(** * d2download: the file-transfer core of [Main.py]

    A shallow embedding of the transfer handler ([handleClient]), the
    fetch client ([downloadFileUi] from the look-up of the peer on), the
    content verifier ([calculateFileHash]), the address book
    ([loadAddressBook], [saveAddressBook], [addPeerUi]), the listing
    ([listFiles]) and the keys of the menu ([displayUi]), with the library
    functions they call
    ([hashlib.sha256], [json.dumps]/[json.loads], [str.encode] /
    [bytes.decode], [os.path.join], [os.path.exists], [open], [os.remove],
    socket [recv]/[sendall]) modelled as executable definitions. *)

From Stdlib Require Import List ZArith NArith Lia Bool.
From Stdlib Require Import Strings.Byte.
From Stdlib Require Strings.String Strings.Ascii.
Import String.StringSyntax.
Delimit Scope string_scope with string.
Delimit Scope byte_scope with byte.
Import ListNotations.

Set Implicit Arguments.

(** ** Python values: [bytes] and [str] *)

(** A Python [bytes] object. *)
Definition bytes := list byte.

(** A Python [str]: a sequence of Unicode code points. *)
Definition str := list N.

(** The code point of an ASCII character, and a [str] literal. *)
Definition ch (a : Ascii.ascii) : N := Ascii.N_of_ascii a.
Definition py (s : String.string) : str :=
  map Ascii.N_of_ascii (String.list_ascii_of_string s).
Arguments py s%_string.

(** A [str] literal written with apostrophes where the text has double
    quotes. *)
Definition pyq (s : String.string) : str :=
  map (fun c => if N.eqb c 39 then 34%N else c) (py s).
Arguments pyq s%_string.

Definition str_eqb (a b : str) : bool :=
  if list_eq_dec N.eq_dec a b then true else false.

Definition byte_of_code (c : N) : byte :=
  match Byte.of_N c with Some b => b | None => x00 end.

(** ** hashlib.sha256 *)

Module SHA256.

Local Open Scope Z_scope.

Definition word := Z.
Definition wrap (x : Z) : word := x mod 2 ^ 32.
Definition add (x y : word) : word := wrap (x + y).
Definition rotr (n : Z) (x : word) : word :=
  Z.lor (Z.shiftr x n) (wrap (Z.shiftl x (32 - n))).
Definition shr (n : Z) (x : word) : word := Z.shiftr x n.
Definition lnot32 (x : word) : word := Z.lxor x (2 ^ 32 - 1).

Definition Ch (x y z : word) : word :=
  Z.lxor (Z.land x y) (Z.land (lnot32 x) z).
Definition Maj (x y z : word) : word :=
  Z.lxor (Z.lxor (Z.land x y) (Z.land x z)) (Z.land y z).
Definition Sigma0 (x : word) : word :=
  Z.lxor (Z.lxor (rotr 2 x) (rotr 13 x)) (rotr 22 x).
Definition Sigma1 (x : word) : word :=
  Z.lxor (Z.lxor (rotr 6 x) (rotr 11 x)) (rotr 25 x).
Definition sigma0 (x : word) : word :=
  Z.lxor (Z.lxor (rotr 7 x) (rotr 18 x)) (shr 3 x).
Definition sigma1 (x : word) : word :=
  Z.lxor (Z.lxor (rotr 17 x) (rotr 19 x)) (shr 10 x).

Definition K : list word :=
  [ 0x428A2F98; 0x71374491; 0xB5C0FBCF; 0xE9B5DBA5; 0x3956C25B; 0x59F111F1;
    0x923F82A4; 0xAB1C5ED5; 0xD807AA98; 0x12835B01; 0x243185BE; 0x550C7DC3;
    0x72BE5D74; 0x80DEB1FE; 0x9BDC06A7; 0xC19BF174; 0xE49B69C1; 0xEFBE4786;
    0x0FC19DC6; 0x240CA1CC; 0x2DE92C6F; 0x4A7484AA; 0x5CB0A9DC; 0x76F988DA;
    0x983E5152; 0xA831C66D; 0xB00327C8; 0xBF597FC7; 0xC6E00BF3; 0xD5A79147;
    0x06CA6351; 0x14292967; 0x27B70A85; 0x2E1B2138; 0x4D2C6DFC; 0x53380D13;
    0x650A7354; 0x766A0ABB; 0x81C2C92E; 0x92722C85; 0xA2BFE8A1; 0xA81A664B;
    0xC24B8B70; 0xC76C51A3; 0xD192E819; 0xD6990624; 0xF40E3585; 0x106AA070;
    0x19A4C116; 0x1E376C08; 0x2748774C; 0x34B0BCB5; 0x391C0CB3; 0x4ED8AA4A;
    0x5B9CCA4F; 0x682E6FF3; 0x748F82EE; 0x78A5636F; 0x84C87814; 0x8CC70208;
    0x90BEFFFA; 0xA4506CEB; 0xBEF9A3F7; 0xC67178F2 ]%Z.

(** The eight chaining words. *)
Definition chain := list word.

Definition H0 : chain :=
  [ 0x6A09E667; 0xBB67AE85; 0x3C6EF372; 0xA54FF53A;
    0x510E527F; 0x9B05688C; 0x1F83D9AB; 0x5BE0CD19 ]%Z.

Definition byteZ (b : byte) : Z := Z.of_N (Byte.to_N b).

(** Big-endian 32-bit words of a block. *)
Fixpoint be_words (bs : bytes) : list word :=
  match bs with
  | a :: b :: c :: d :: rest =>
      (byteZ a * 2 ^ 24 + byteZ b * 2 ^ 16 + byteZ c * 2 ^ 8 + byteZ d)%Z
      :: be_words rest
  | _ => []
  end.

(** Message schedule, kept newest word first: [rev_w] holds
    [W(t-1); W(t-2); ...]. *)
Fixpoint extend (n : nat) (rev_w : list word) : list word :=
  match n with
  | O => rev_w
  | S n' =>
      let w :=
        add (add (sigma1 (nth 1 rev_w 0%Z)) (nth 6 rev_w 0%Z))
            (add (sigma0 (nth 14 rev_w 0%Z)) (nth 15 rev_w 0%Z)) in
      extend n' (w :: rev_w)
  end.

Definition schedule (block : bytes) : list word :=
  rev (extend 48 (rev (be_words block))).

Definition round (v : chain) (kw : word * word) : chain :=
  match v with
  | [a; b; c; d; e; f; g; h] =>
      let t1 := add (add (add h (Sigma1 e)) (add (Ch e f g) (fst kw))) (snd kw) in
      let t2 := add (Sigma0 a) (Maj a b c) in
      [add t1 t2; a; b; c; add d t1; e; f; g]
  | _ => v
  end.

Fixpoint add_chain (x y : chain) : chain :=
  match x, y with
  | a :: x', b :: y' => add a b :: add_chain x' y'
  | _, _ => []
  end.

(** One application of the compression function to a 64-byte block. *)
Definition compress (h : chain) (block : bytes) : chain :=
  add_chain h (fold_left round (combine K (schedule block)) h).

(** *** The one-pass digest of a whole message *)

Fixpoint be_bytes (n : nat) (x : Z) : bytes :=
  match n with
  | O => []
  | S n' =>
      byte_of_code (Z.to_N ((x / 2 ^ (8 * Z.of_nat n')) mod 256)) :: be_bytes n' x
  end.

(** The padding that follows a message of [len] bytes. *)
Definition padding (len : nat) : bytes :=
  x80 :: repeat x00 ((119 - len mod 64) mod 64)%nat ++ be_bytes 8 (8 * Z.of_nat len).

(** Cut a byte string into 64-byte blocks (a shorter tail is dropped). *)
Fixpoint blocks_fuel (fuel : nat) (bs : bytes) : list bytes :=
  match fuel with
  | O => []
  | S fuel' =>
      if Nat.ltb (length bs) 64 then []
      else firstn 64 bs :: blocks_fuel fuel' (skipn 64 bs)
  end.
Definition blocks (bs : bytes) : list bytes := blocks_fuel (length bs) bs.

Definition digest_words (msg : bytes) : chain :=
  fold_left compress (blocks (msg ++ padding (length msg))) H0.

Definition hex_digit (n : Z) : N :=
  if (n <? 10)%Z then Z.to_N (48 + n) else Z.to_N (87 + n).

Definition hex_word (w : word) : str :=
  map (fun i => hex_digit ((w / 16 ^ i) mod 16)) [7; 6; 5; 4; 3; 2; 1; 0]%Z.

Definition hex (h : chain) : str := flat_map hex_word h.

(** [hashlib.sha256(msg).hexdigest()]. *)
Definition sha256 (msg : bytes) : str := hex (digest_words msg).

(** *** The streaming object *)

Record t := mk { chaining : chain; pending : bytes; count : nat }.

(** [hashlib.sha256()] *)
Definition new : t := mk H0 [] 0.

(** Take bytes into the block buffer; each time it holds 64 of them,
    compress. *)
Fixpoint absorb (h : chain) (buf : bytes) (data : bytes) : chain * bytes :=
  match data with
  | [] => (h, buf)
  | b :: rest =>
      let buf' := buf ++ [b] in
      if Nat.eqb (length buf') 64 then absorb (compress h buf') [] rest
      else absorb h buf' rest
  end.

(** [obj.update(data)] *)
Definition update (s : t) (data : bytes) : t :=
  let (h, buf) := absorb (chaining s) (pending s) data in
  mk h buf (count s + length data)%nat.

(** [obj.hexdigest()]: pads a copy of the state, the object is unchanged. *)
Definition hexdigest (s : t) : str :=
  hex (fst (absorb (chaining s) (pending s) (padding (count s)))).

End SHA256.

Definition bytes_of_string (s : String.string) : bytes :=
  String.list_byte_of_string s.
Arguments bytes_of_string s%_string.

(** ** [str.encode()] and [bytes.decode()]: UTF-8, strict *)

Module UTF8.

Local Open Scope N_scope.

Definition is_surrogate (c : N) : bool := (0xD800 <=? c) && (c <=? 0xDFFF).

(** A Unicode scalar value: what [bytes.decode()] can produce. *)
Definition is_scalar (c : N) : bool := (c <=? 0x10FFFF) && negb (is_surrogate c).

(** The payload of a continuation byte [10xxxxxx]. *)
Definition cont (b : byte) : option N :=
  let n := Byte.to_N b in
  if (0x80 <=? n) && (n <=? 0xBF) then Some (n - 0x80) else None.

(** [bs.decode()]; [None] stands for [UnicodeDecodeError]. *)
Fixpoint decode (bs : bytes) : option str :=
  match bs with
  | [] => Some []
  | b0 :: r0 =>
      let n0 := Byte.to_N b0 in
      if n0 <? 0x80 then option_map (cons n0) (decode r0)
      else if (0xC2 <=? n0) && (n0 <=? 0xDF) then
        match r0 with
        | b1 :: r1 =>
            match cont b1 with
            | Some c1 => option_map (cons ((n0 - 0xC0) * 64 + c1)) (decode r1)
            | None => None
            end
        | _ => None
        end
      else if (0xE0 <=? n0) && (n0 <=? 0xEF) then
        match r0 with
        | b1 :: b2 :: r2 =>
            match cont b1, cont b2 with
            | Some c1, Some c2 =>
                let c := (n0 - 0xE0) * 4096 + c1 * 64 + c2 in
                if (0x800 <=? c) && negb (is_surrogate c)
                then option_map (cons c) (decode r2) else None
            | _, _ => None
            end
        | _ => None
        end
      else if (0xF0 <=? n0) && (n0 <=? 0xF4) then
        match r0 with
        | b1 :: b2 :: b3 :: r3 =>
            match cont b1, cont b2, cont b3 with
            | Some c1, Some c2, Some c3 =>
                let c := (n0 - 0xF0) * 262144 + c1 * 4096 + c2 * 64 + c3 in
                if (0x10000 <=? c) && (c <=? 0x10FFFF)
                then option_map (cons c) (decode r3) else None
            | _, _, _ => None
            end
        | _ => None
        end
      else None
  end.

Definition encode1 (c : N) : option bytes :=
  if c <? 0x80 then Some [byte_of_code c]
  else if c <? 0x800 then
    Some [byte_of_code (0xC0 + c / 64); byte_of_code (0x80 + c mod 64)]
  else if is_surrogate c then None
  else if c <? 0x10000 then
    Some [byte_of_code (0xE0 + c / 4096); byte_of_code (0x80 + (c / 64) mod 64);
          byte_of_code (0x80 + c mod 64)]
  else if c <=? 0x10FFFF then
    Some [byte_of_code (0xF0 + c / 262144); byte_of_code (0x80 + (c / 4096) mod 64);
          byte_of_code (0x80 + (c / 64) mod 64); byte_of_code (0x80 + c mod 64)]
  else None.

(** [s.encode()]; [None] stands for [UnicodeEncodeError]. *)
Fixpoint encode (s : str) : option bytes :=
  match s with
  | [] => Some []
  | c :: s' =>
      match encode1 c, encode s' with
      | Some b, Some bs => Some (b ++ bs)
      | _, _ => None
      end
  end.

End UTF8.

(** ** The [json] module *)

Module Json.

Local Open Scope N_scope.

(** What [json.loads] returns: [None], [bool], a number (kept as its
    literal), [str], [list] and [dict] (in insertion order). *)
#[warnings="-register-all"] Inductive value :=
| Null
| Bool (b : bool)
| Num (text : str)
| Str (s : str)
| Arr (items : list value)
| Obj (members : list (str * value)).

(** [d[k] = v]: a key already there keeps its place. *)
Fixpoint dict_set (k : str) (v : value) (d : list (str * value)) : list (str * value) :=
  match d with
  | [] => [(k, v)]
  | (k', v') :: d' =>
      if str_eqb k' k then (k', v) :: d' else (k', v') :: dict_set k v d'
  end.

Fixpoint dict_get (k : str) (d : list (str * value)) : option value :=
  match d with
  | [] => None
  | (k', v') :: d' => if str_eqb k' k then Some v' else dict_get k d'
  end.

(** *** json.dumps (default options: [ensure_ascii], separators [", "] and [": "]) *)

Definition hex_digit (n : N) : N := if n <? 10 then 48 + n else 87 + n.

Definition hex4 (n : N) : str :=
  [hex_digit ((n / 4096) mod 16); hex_digit ((n / 256) mod 16);
   hex_digit ((n / 16) mod 16); hex_digit (n mod 16)].

Definition escape_char (c : N) : str :=
  if c =? 34 then [92; 34]
  else if c =? 92 then [92; 92]
  else if c =? 10 then [92; 110]
  else if c =? 13 then [92; 114]
  else if c =? 9 then [92; 116]
  else if c =? 8 then [92; 98]
  else if c =? 12 then [92; 102]
  else if (32 <=? c) && (c <=? 126) then [c]
  else if c <? 0x10000 then 92 :: 117 :: hex4 c
  else
    let n := c - 0x10000 in
    92 :: 117 :: hex4 (0xD800 + (n / 1024) mod 1024)
    ++ 92 :: 117 :: hex4 (0xDC00 + n mod 1024).

Definition encode_string (s : str) : str := 34 :: flat_map escape_char s ++ [34].

Fixpoint join (sep : str) (parts : list str) : str :=
  match parts with
  | [] => []
  | [p] => p
  | p :: rest => p ++ sep ++ join sep rest
  end.

Fixpoint dumps (v : value) : str :=
  match v with
  | Null => py "null"
  | Bool true => py "true"
  | Bool false => py "false"
  | Num t => t
  | Str s => encode_string s
  | Arr items => [91] ++ join (py ", ") (map dumps items) ++ [93]
  | Obj members =>
      [123]
      ++ join (py ", ")
           (map (fun kv => match kv with
                           | (k, x) => encode_string k ++ py ": " ++ dumps x
                           end) members)
      ++ [125]
  end.

(** *** json.loads: a pushdown automaton over the characters *)

(** An array or object under construction. *)
Inductive frame :=
| FArr (done : list value)
| FObj (done : list (str * value)) (key : option str).

(** What may come next between two tokens. *)
Inductive expect :=
| EValue | EValueOrClose | EKeyOrClose | EKey | EColon | EAfter.

Inductive mode :=
| Between (e : expect)
| Done (v : value)
| InString (acc : str)
| InEscape (acc : str)
| InHex (acc : str) (hi : option N) (digits : list N)
| AfterHigh (acc : str) (hi : N)
| AfterHighEsc (acc : str) (hi : N)
| InNumber (acc : str)
| InLiteral (rest : str) (v : value)
| Failed.

Definition pstate : Type := mode * list frame.

Definition failed : pstate := (Failed, []).

(** A complete value goes to the enclosing array or object, or is the
    result. *)
Definition deliver (v : value) (stk : list frame) : pstate :=
  match stk with
  | [] => (Done v, [])
  | FArr done :: stk' => (Between EAfter, FArr (v :: done) :: stk')
  | FObj done (Some k) :: stk' => (Between EAfter, FObj (dict_set k v done) None :: stk')
  | FObj _ None :: _ => failed
  end.

(** A complete string is a key when an object waits for one. *)
Definition deliver_string (s : str) (stk : list frame) : pstate :=
  match stk with
  | FObj done None :: stk' => (Between EColon, FObj done (Some s) :: stk')
  | _ => deliver (Str s) stk
  end.

Definition is_ws (c : N) : bool := (c =? 32) || (c =? 9) || (c =? 10) || (c =? 13).
Definition is_digit (c : N) : bool := (48 <=? c) && (c <=? 57).
Definition is_num_char (c : N) : bool :=
  is_digit c || (c =? 45) || (c =? 43) || (c =? 46) || (c =? 101) || (c =? 69).

Definition hex_val (c : N) : option N :=
  if is_digit c then Some (c - 48)
  else if (97 <=? c) && (c <=? 102) then Some (c - 87)
  else if (65 <=? c) && (c <=? 70) then Some (c - 55)
  else None.

Definition is_high (u : N) : bool := (0xD800 <=? u) && (u <=? 0xDBFF).
Definition is_low (u : N) : bool := (0xDC00 <=? u) && (u <=? 0xDFFF).

(** The number grammar: an optional minus sign; a zero, or a non-zero
    digit and further digits; optionally a point and one or more digits;
    optionally [e] or [E], an optional sign and one or more digits. *)
Fixpoint skip_digits (s : str) : str :=
  match s with
  | c :: s' => if is_digit c then skip_digits s' else s
  | [] => []
  end.

Definition digits1 (s : str) : option str :=
  match s with
  | c :: s' => if is_digit c then Some (skip_digits s') else None
  | [] => None
  end.

Definition exponent_ok (s : str) : bool :=
  match s with
  | [] => true
  | c :: s' =>
      if (c =? 101) || (c =? 69) then
        let s2 := match s' with
                  | d :: s3 => if (d =? 43) || (d =? 45) then s3 else s'
                  | [] => []
                  end in
        match digits1 s2 with Some [] => true | _ => false end
      else false
  end.

Definition fraction_ok (s : str) : bool :=
  match s with
  | c :: s' =>
      if c =? 46 then
        match digits1 s' with Some s2 => exponent_ok s2 | None => false end
      else exponent_ok s
  | [] => true
  end.

Definition valid_number (s : str) : bool :=
  let s1 := match s with
            | c :: r => if c =? 45 then r else s
            | [] => []
            end in
  match s1 with
  | c :: r =>
      if c =? 48 then fraction_ok r
      else if is_digit c then fraction_ok (skip_digits r)
      else false
  | [] => false
  end.

(** The first character of a value. *)
Definition start_value (c : N) (stk : list frame) : pstate :=
  if c =? 34 then (InString [], stk)
  else if c =? 91 then (Between EValueOrClose, FArr [] :: stk)
  else if c =? 123 then (Between EKeyOrClose, FObj [] None :: stk)
  else if c =? 116 then (InLiteral (py "rue") (Bool true), stk)
  else if c =? 102 then (InLiteral (py "alse") (Bool false), stk)
  else if c =? 110 then (InLiteral (py "ull") Null, stk)
  else if c =? 78 then (InLiteral (py "aN") (Num (py "NaN")), stk)
  else if c =? 73 then (InLiteral (py "nfinity") (Num (py "Infinity")), stk)
  else if (c =? 45) || is_digit c then (InNumber [c], stk)
  else failed.

(** A character between two tokens. *)
Definition between (e : expect) (stk : list frame) (c : N) : pstate :=
  if is_ws c then (Between e, stk)
  else
    match e with
    | EValue => start_value c stk
    | EValueOrClose =>
        if c =? 93 then
          match stk with
          | FArr done :: stk' => deliver (Arr (rev done)) stk'
          | _ => failed
          end
        else start_value c stk
    | EKeyOrClose =>
        if c =? 125 then
          match stk with
          | FObj done None :: stk' => deliver (Obj done) stk'
          | _ => failed
          end
        else if c =? 34 then (InString [], stk)
        else failed
    | EKey => if c =? 34 then (InString [], stk) else failed
    | EColon => if c =? 58 then (Between EValue, stk) else failed
    | EAfter =>
        match stk with
        | FArr done :: stk' =>
            if c =? 44 then (Between EValue, stk)
            else if c =? 93 then deliver (Arr (rev done)) stk'
            else failed
        | FObj done None :: stk' =>
            if c =? 44 then (Between EKey, stk)
            else if c =? 125 then deliver (Obj done) stk'
            else failed
        | _ => failed
        end
    end.

(** A character right after a complete value. *)
Definition after_value (st : pstate) (c : N) : pstate :=
  match st with
  | (Between e, stk) => between e stk c
  | (Done v, stk) => if is_ws c then st else failed
  | _ => failed
  end.

(** A character inside a string literal ([strict]: no control characters). *)
Definition in_string (acc : str) (stk : list frame) (c : N) : pstate :=
  if c =? 34 then deliver_string acc stk
  else if c =? 92 then (InEscape acc, stk)
  else if c <? 32 then failed
  else (InString (acc ++ [c]), stk).

(** The character after a backslash. *)
Definition in_escape (acc : str) (stk : list frame) (c : N) : pstate :=
  if c =? 34 then (InString (acc ++ [34]), stk)
  else if c =? 92 then (InString (acc ++ [92]), stk)
  else if c =? 47 then (InString (acc ++ [47]), stk)
  else if c =? 98 then (InString (acc ++ [8]), stk)
  else if c =? 102 then (InString (acc ++ [12]), stk)
  else if c =? 110 then (InString (acc ++ [10]), stk)
  else if c =? 114 then (InString (acc ++ [13]), stk)
  else if c =? 116 then (InString (acc ++ [9]), stk)
  else if c =? 117 then (InHex acc None [], stk)
  else failed.

(** A [\uXXXX] escape that does not complete a surrogate pair. *)
Definition fresh_unit (acc : str) (u : N) (stk : list frame) : pstate :=
  if is_high u then (AfterHigh acc u, stk) else (InString (acc ++ [u]), stk).

(** The four digits of a [\uXXXX] escape are read; [hi] is a high surrogate
    that came right before it. *)
Definition finish_unit (acc : str) (hi : option N) (u : N) (stk : list frame) : pstate :=
  match hi with
  | Some h =>
      if is_low u then (InString (acc ++ [0x10000 + (h - 0xD800) * 1024 + (u - 0xDC00)]), stk)
      else fresh_unit (acc ++ [h]) u stk
  | None => fresh_unit acc u stk
  end.

Definition step (st : pstate) (c : N) : pstate :=
  match st with
  | (Between e, stk) => between e stk c
  | (Done v, stk) => if is_ws c then st else failed
  | (InString acc, stk) => in_string acc stk c
  | (InEscape acc, stk) => in_escape acc stk c
  | (InHex acc hi digits, stk) =>
      match hex_val c with
      | Some d =>
          match digits with
          | [d1; d2; d3] => finish_unit acc hi (((d1 * 16 + d2) * 16 + d3) * 16 + d) stk
          | _ => (InHex acc hi (digits ++ [d]), stk)
          end
      | None => failed
      end
  | (AfterHigh acc h, stk) =>
      if c =? 92 then (AfterHighEsc acc h, stk) else in_string (acc ++ [h]) stk c
  | (AfterHighEsc acc h, stk) =>
      if c =? 117 then (InHex acc (Some h) [], stk) else in_escape (acc ++ [h]) stk c
  | (InNumber acc, stk) =>
      if is_num_char c then (InNumber (acc ++ [c]), stk)
      else if (c =? 73) && str_eqb acc [45]
      then (InLiteral (py "nfinity") (Num (py "-Infinity")), stk)
      else if valid_number acc then after_value (deliver (Num acc) stk) c
      else failed
  | (InLiteral rest v, stk) =>
      match rest with
      | [] => failed
      | x :: rest' =>
          if c =? x then
            match rest' with
            | [] => deliver v stk
            | _ => (InLiteral rest' v, stk)
            end
          else failed
      end
  | (Failed, _) => failed
  end.

(** The end of the text. *)
Definition finish (st : pstate) : option value :=
  match st with
  | (Done v, []) => Some v
  | (InNumber acc, []) => if valid_number acc then Some (Num acc) else None
  | _ => None
  end.

(** [json.loads(s)] for a [str]; [None] stands for [JSONDecodeError]
    (a text that starts with a byte order mark is refused).  The limits of
    the interpreter, on the depth of nested containers and on the digits
    of one integer, are outside this model, as the size of memory is. *)
Definition loads (s : str) : option value :=
  match s with
  | c :: _ => if c =? 0xFEFF then None else finish (fold_left step s (Between EValue, []))
  | [] => None
  end.

End Json.

(** ** Exceptions *)

Inductive errno :=
| ENOENT | ENOTDIR | EISDIR | EPIPE | ECONNRESET | ECONNREFUSED | EBADF | EIO
| EAI_NONAME.

(** The exceptions the modelled operations raise.  All of them derive from
    [Exception]; [IOError] is [OSError]; [JSONDecodeError] and
    [UnicodeDecodeError] derive from [ValueError]. *)
Inductive exn :=
| OSError (code : errno)
| ValueError
| UnicodeDecodeError
| JSONDecodeError
| KeyError (key : str)
| TypeError
| AttributeError
| OverflowError.

Definition is_IOError (e : exn) : bool :=
  match e with OSError _ => true | _ => false end.

Definition is_JSONDecodeError (e : exn) : bool :=
  match e with JSONDecodeError => true | _ => false end.

Definition is_Exception (e : exn) : bool := true.

Inductive result (A : Type) :=
| Ok (a : A)
| Raise (e : exn).
Arguments Ok {A} a.
Arguments Raise {A} e.

(** ** The file system: [os.path], [open], [os.remove] *)

Module Posix.

Local Open Scope N_scope.

(** A regular file, a directory, or a node that is neither and that a
    reader can open (a named pipe with a writer, a device): [supply] is
    what it yields before the end of file. *)
Inductive node :=
| File (content : bytes)
| Dir
| Special (supply : bytes).

(** Where a node is: the names from the root down. *)
Definition location := list str.

Definition location_eqb (a b : location) : bool :=
  if list_eq_dec (list_eq_dec N.eq_dec) a b then true else false.

Record t := mk { tree : location -> option node; cwd : location }.

(** The file system that holds the listed nodes, first entry first. *)
Definition of_list (entries : list (location * node)) (cwd : location) : t :=
  mk (fun l => match find (fun e => location_eqb (fst e) l) entries with
               | Some e => Some (snd e)
               | None => None
               end) cwd.

Definition set_node (loc : location) (n : option node) (fs : t) : t :=
  mk (fun l => if location_eqb l loc then n else tree fs l) (cwd fs).

(** [s.split(sep)] for a separator of one character. *)
Fixpoint split_on (sep : N) (s : str) : list str :=
  match s with
  | [] => [[]]
  | c :: s' =>
      let parts := split_on sep s' in
      if c =? sep then [] :: parts
      else match parts with
           | p :: ps => (c :: p) :: ps
           | [] => [[c]]
           end
  end.

(** [os.path.join(a, b)] of [posixpath]. *)
Definition join (a b : str) : str :=
  match b with
  | c :: _ =>
      if c =? 47 then b
      else match a with
           | [] => b
           | _ => if last a 0 =? 47 then a ++ b else a ++ [47] ++ b
           end
  | [] =>
      match a with
      | [] => b
      | _ => if last a 0 =? 47 then a ++ b else a ++ [47] ++ b
      end
  end.

(** One path component, taken from a directory at [loc]. *)
Definition step_loc (loc : location) (c : str) : location :=
  if str_eqb c [] || str_eqb c [46] then loc
  else if str_eqb c [46; 46] then removelast loc
  else loc ++ [c].

(** Resolve the components one by one; each is looked up in a directory. *)
Fixpoint walk (tr : location -> option node) (loc : location) (comps : list str)
  : result location :=
  match comps with
  | [] => Ok loc
  | c :: rest =>
      match tr loc with
      | Some Dir => walk tr (step_loc loc c) rest
      | Some _ => Raise (OSError ENOTDIR)
      | None => Raise (OSError ENOENT)
      end
  end.

(** A character of a path that the file system encoding (UTF-8 with
    [surrogateescape]) cannot pass to the system, or a null character. *)
Definition bad_path_char (c : N) : bool :=
  (c =? 0) || negb (UTF8.is_scalar c || ((0xDC80 <=? c) && (c <=? 0xDCFF))).

Definition locate (fs : t) (path : str) : result location :=
  if existsb bad_path_char path then Raise ValueError
  else
    match path with
    | [] => Raise (OSError ENOENT)
    | c :: _ => walk (tree fs) (if c =? 47 then [] else cwd fs) (split_on 47 path)
    end.

(** [os.stat(path)] *)
Definition stat (fs : t) (path : str) : result (location * node) :=
  match locate fs path with
  | Ok loc =>
      match tree fs loc with
      | Some n => Ok (loc, n)
      | None => Raise (OSError ENOENT)
      end
  | Raise e => Raise e
  end.

(** [os.path.exists(path)]: false on [OSError] and on [ValueError]. *)
Definition exists_ (fs : t) (path : str) : bool :=
  match stat fs path with Ok _ => true | Raise _ => false end.

(** [os.path.isfile(path)] *)
Definition isfile (fs : t) (path : str) : bool :=
  match stat fs path with Ok (_, File _) => true | _ => false end.

(** [open(path, 'rb')]: the bytes the reads will yield. *)
Definition open_rb (fs : t) (path : str) : result bytes :=
  match stat fs path with
  | Ok (_, File content) => Ok content
  | Ok (_, Special supply) => Ok supply
  | Ok (_, Dir) => Raise (OSError EISDIR)
  | Raise e => Raise e
  end.

(** [open(path, 'wb')]: creates the file or cuts it to length 0; the
    handle is the location. *)
Definition open_wb (fs : t) (path : str) : result (location * t) :=
  match locate fs path with
  | Ok loc =>
      match tree fs loc with
      | Some Dir => Raise (OSError EISDIR)
      | Some (Special _) => Ok (loc, fs)
      | Some (File _) | None =>
          match loc with
          | [] => Raise (OSError EISDIR)
          | _ => Ok (loc, set_node loc (Some (File [])) fs)
          end
      end
  | Raise e => Raise e
  end.

(** [f.write(data)] on a handle of [open_wb]. *)
Definition write (loc : location) (data : bytes) (fs : t) : t :=
  match tree fs loc with
  | Some (File content) => set_node loc (Some (File (content ++ data))) fs
  | _ => fs
  end.

(** [os.remove(path)] *)
Definition remove (fs : t) (path : str) : result t :=
  match stat fs path with
  | Ok (loc, Dir) => Raise (OSError EISDIR)
  | Ok (loc, _) => Ok (set_node loc None fs)
  | Raise e => Raise e
  end.

(** The results of the successive [f.read(n)] until the first empty one. *)
Fixpoint chunks_fuel (fuel n : nat) (data : bytes) : list bytes :=
  match fuel with
  | O => []
  | S fuel' =>
      match data with
      | [] => []
      | _ => firstn n data :: chunks_fuel fuel' n (skipn n data)
      end
  end.
Definition chunks (n : nat) (data : bytes) : list bytes :=
  chunks_fuel (length data) n data.

End Posix.

(** ** Sockets *)

(** What arrives on a connection: a segment of the peer's byte stream, or
    a failure of the transport. *)
Inductive event :=
| Data (b : bytes)
| Fault (e : exn).

(** One end of a TCP connection together with what its environment does:
    [inbox] is what the peer and the network deliver, in order, before the
    peer closes; [resolves] tells the hosts that have an address;
    [refuses] makes [connect] fail at a host that has one; [breaks_after]
    is the number of [sendall] calls that go through before the connection
    breaks.  [outbox] logs the arguments of the [sendall] calls that went
    through and [closes] counts the calls of [close]. *)
Record socket := mkSocket {
  inbox : list event;
  resolves : str -> bool;
  refuses : option exn;
  breaks_after : option nat;
  outbox : list bytes;
  closes : nat
}.

(** A connection whose peer delivers [evs], to a host that has an address
    whatever its name, and that never breaks. *)
Definition connection (evs : list event) : socket :=
  mkSocket evs (fun _ => true) None None [] 0.

(** [sock.recv(n)] on the inbox: at most [n] bytes of the next segment;
    [b''] once the peer has closed. *)
Fixpoint recv_from (n : nat) (evs : list event) : result bytes * list event :=
  match evs with
  | [] => (Ok [], [])
  | Fault e :: rest => (Raise e, rest)
  | Data [] :: rest => recv_from n rest
  | Data b :: rest =>
      (Ok (firstn n b),
       if Nat.leb (length b) n then rest else Data (skipn n b) :: rest)
  end.

(** The results of the successive [sock.recv(n)] up to the first empty
    one or the first failure. *)
Fixpoint recv_results (n : nat) (evs : list event) : list event :=
  match evs with
  | [] => []
  | Fault e :: _ => [Fault e]
  | Data b :: rest => map Data (Posix.chunks n b) ++ recv_results n rest
  end.

(** ** The state the program runs in, and its monad *)

(** What the program shows: the handler's [print], and line 6 of the
    client's screen. *)
Inductive message :=
| HandlerError (e : exn)
| Verified (filename : str)
| VerificationFailed
| ClientError (e : exn).

Record state := mkState {
  fs : Posix.t;
  sock : socket;
  shown : list message
}.

Definition M (A : Type) : Type := state -> result A * state.

Definition ret {A} (a : A) : M A := fun s => (Ok a, s).
Definition raise {A} (e : exn) : M A := fun s => (Raise e, s).
Definition lift {A} (r : result A) : M A := fun s => (r, s).
Definition bind {A B} (m : M A) (k : A -> M B) : M B :=
  fun s => match m s with
           | (Ok a, s') => k a s'
           | (Raise e, s') => (Raise e, s')
           end.

Notation "x <- m ;; k" := (bind m (fun x => k))
  (at level 61, m at next level, right associativity).
Notation "m ;;; k" := (bind m (fun _ => k))
  (at level 61, right associativity).

(** [try: body / except Exception as e: handler(e)] *)
Definition try_except {A} (body : M A) (handler : exn -> M A) : M A :=
  fun s => match body s with
           | (Raise e, s') => if is_Exception e then handler e s' else (Raise e, s')
           | ok => ok
           end.

(** [try: body / finally: final], and the exit of a [with] block. *)
Definition try_finally {A} (body : M A) (final : M unit) : M A :=
  fun s => match body s with
           | (r, s') =>
               match final s' with
               | (Ok _, s'') => (r, s'')
               | (Raise e, s'') => (Raise e, s'')
               end
           end.

Fixpoint for_each {A} (xs : list A) (body : A -> M unit) : M unit :=
  match xs with
  | [] => ret tt
  | x :: xs' => body x ;;; for_each xs' body
  end.

Definition with_sock (f : socket -> socket) (s : state) : state :=
  mkState (fs s) (f (sock s)) (shown s).

Definition show (m : message) : M unit :=
  fun s => (Ok tt, mkState (fs s) (sock s) (shown s ++ [m])).

(** [sock.connect((host, port))]: the port has to fit an [int] of C, then
    the host is resolved ([socket.gaierror] is an [OSError]), then the port
    has to be between 0 and 65535, and then the peer is reached or
    refuses.  (A host with characters beyond ASCII is first encoded with
    the [idna] codec, which can fail; that is outside this model.) *)
Definition connect (host : str) (port : Z) : M unit :=
  fun s =>
    if negb ((-2147483648 <=? port)%Z && (port <=? 2147483647)%Z)
    then (Raise OverflowError, s)
    else if negb (resolves (sock s) host) then (Raise (OSError EAI_NONAME), s)
    else if (0 <=? port)%Z && (port <=? 65535)%Z then
      match refuses (sock s) with
      | Some e => (Raise e, s)
      | None => (Ok tt, s)
      end
    else (Raise OverflowError, s).

(** [sock.sendall(data)] *)
Definition sendall (data : bytes) : M unit :=
  fun s =>
    let k := sock s in
    if Nat.ltb 0 (closes k) then (Raise (OSError EBADF), s)
    else
      match breaks_after k with
      | Some O => (Raise (OSError EPIPE), s)
      | Some (S n) =>
          (Ok tt, with_sock (fun k => mkSocket (inbox k) (resolves k) (refuses k) (Some n)
                                        (outbox k ++ [data]) (closes k)) s)
      | None =>
          (Ok tt, with_sock (fun k => mkSocket (inbox k) (resolves k) (refuses k) None
                                        (outbox k ++ [data]) (closes k)) s)
      end.

(** [sock.recv(n)] *)
Definition recv (n : nat) : M bytes :=
  fun s =>
    let k := sock s in
    if Nat.ltb 0 (closes k) then (Raise (OSError EBADF), s)
    else
      match recv_from n (inbox k) with
      | (r, rest) =>
          (r, with_sock (fun k => mkSocket rest (resolves k) (refuses k) (breaks_after k)
                                    (outbox k) (closes k)) s)
      end.

(** [sock.close()] *)
Definition close : M unit :=
  fun s =>
    (Ok tt, with_sock (fun k => mkSocket (inbox k) (resolves k) (refuses k) (breaks_after k)
                                  (outbox k) (S (closes k))) s).

(** [open(path, 'rb')] *)
Definition open_rb (path : str) : M bytes :=
  fun s => (Posix.open_rb (fs s) path, s).

(** [open(path, 'wb')] *)
Definition open_wb (path : str) : M Posix.location :=
  fun s =>
    match Posix.open_wb (fs s) path with
    | Ok (loc, fs') => (Ok loc, mkState fs' (sock s) (shown s))
    | Raise e => (Raise e, s)
    end.

(** [f.write(data)] *)
Definition write (f : Posix.location) (data : bytes) : M unit :=
  fun s => (Ok tt, mkState (Posix.write f data (fs s)) (sock s) (shown s)).

(** [os.remove(path)] *)
Definition os_remove (path : str) : M unit :=
  fun s =>
    match Posix.remove (fs s) path with
    | Ok fs' => (Ok tt, mkState fs' (sock s) (shown s))
    | Raise e => (Raise e, s)
    end.

(** ** Python operations on the values of [json] *)

(** [v[key]] for a [str] key. *)
Definition subscript (v : Json.value) (key : str) : result Json.value :=
  match v with
  | Json.Obj members =>
      match Json.dict_get key members with
      | Some x => Ok x
      | None => Raise (KeyError key)
      end
  | _ => Raise TypeError
  end.

(** [v == s] for a [str] [s]. *)
Definition equals_str (v : Json.value) (s : str) : bool :=
  match v with
  | Json.Str t => str_eqb t s
  | _ => false
  end.

(** [os.path.join(a, v)]: a [TypeError] unless [v] is a [str]. *)
Definition os_path_join (a : str) (v : Json.value) : result str :=
  match v with
  | Json.Str b => Ok (Posix.join a b)
  | _ => Raise TypeError
  end.

(** [bytes.decode()] and [json.loads] as raising operations. *)
Definition decode (data : bytes) : result str :=
  match UTF8.decode data with Some s => Ok s | None => Raise UnicodeDecodeError end.

Definition encode (s : str) : result bytes :=
  match UTF8.encode s with Some b => Ok b | None => Raise ValueError end.

Definition json_loads (s : str) : result Json.value :=
  match Json.loads s with Some v => Ok v | None => Raise JSONDecodeError end.

(** Reading a file opened in text mode turns [\r\n] and [\r] into [\n]. *)
Fixpoint universal_newlines (s : str) : str :=
  match s with
  | [] => []
  | c :: s' =>
      if N.eqb c 13 then
        match s' with
        | d :: s'' => if N.eqb d 10 then 10%N :: universal_newlines s''
                      else 10%N :: universal_newlines s'
        | [] => [10%N]
        end
      else c :: universal_newlines s'
  end.

(** [int(s)] in base 10, on ASCII: white space around (tab, line feed,
    vertical tab, form feed, carriage return and space), a sign, digits
    with single underscores between them.  ([int] also takes the digits
    and spaces of other scripts; here they are refused.) *)
Definition is_space (c : N) : bool :=
  ((9 <=? c) && (c <=? 13) || (c =? 32))%N.

Fixpoint lstrip (s : str) : str :=
  match s with
  | c :: s' => if is_space c then lstrip s' else s
  | [] => []
  end.

Definition strip (s : str) : str := rev (lstrip (rev (lstrip s))).

Fixpoint digits_value (acc : Z) (after_digit : bool) (s : str) : option Z :=
  match s with
  | [] => if after_digit then Some acc else None
  | c :: s' =>
      if Json.is_digit c then digits_value (acc * 10 + Z.of_N (c - 48)) true s'
      else if N.eqb c 95 && after_digit then digits_value acc false s'
      else None
  end.

Definition int (s : str) : result Z :=
  let t := strip s in
  let signed :=
    match t with
    | c :: r => if N.eqb c 45 then (true, r) else if N.eqb c 43 then (false, r) else (false, t)
    | [] => (false, t)
    end in
  match digits_value 0 false (snd signed) with
  | Some v => Ok (if fst signed then (- v)%Z else v)
  | None => Raise ValueError
  end.

(** ** The program: [Main.py] *)

Definition uploadsDir : str := py "Uploads".
Definition downloadsDir : str := py "Downloads".
Definition addressBookFile : str := py "address_book.json".
Definition chunkSize : nat := 32 * 1024.
Definition defaultPort : Z := 5000.

(** [calculateFileHash(filePath)]: the loop over [f.read(chunkSize)] feeds
    the accumulator; an [IOError] gives [None]. *)
Definition calculateFileHash (disk : Posix.t) (filePath : str) : result (option str) :=
  let sha256 := SHA256.new in
  match Posix.open_rb disk filePath with
  | Ok f =>
      Ok (Some (SHA256.hexdigest
                  (fold_left SHA256.update (Posix.chunks chunkSize f) sha256)))
  | Raise e => if is_IOError e then Ok None else Raise e
  end.

(** [a == b] for two results of [calculateFileHash]. *)
Definition same_hash (a b : option str) : bool :=
  match a, b with
  | Some x, Some y => str_eqb x y
  | None, None => true
  | _, _ => false
  end.

(** [json.loads(data.decode())] *)
Definition parse_request (data : bytes) : result Json.value :=
  match decode data with
  | Ok text => json_loads text
  | Raise e => Raise e
  end.

(** The [try] suite of [handleClient]. *)
Definition serve_request : M unit :=
  data <- recv 1024 ;;
  request <- lift (parse_request data) ;;
  operation <- lift (subscript request (py "request")) ;;
  if equals_str operation (py "download") then
    filename <- lift (subscript request (py "filename")) ;;
    filePath <- lift (os_path_join uploadsDir filename) ;;
    present <- (fun s => (Ok (Posix.exists_ (fs s) filePath), s)) ;;
    if (present : bool) then
      f <- open_rb filePath ;;
      for_each (Posix.chunks chunkSize f) sendall
    else sendall []
  else ret tt.

(** [handleClient(clientSock, addr)] *)
Definition handleClient : M unit :=
  try_finally
    (try_except serve_request (fun e => show (HandlerError e)))
    close.

(** The payload is a request to download [filename], as the handler reads
    it. *)
Definition asks_for (data : bytes) (filename : str) : Prop :=
  exists request operation,
    parse_request data = Ok request
    /\ subscript request (py "request") = Ok operation
    /\ equals_str operation (py "download") = true
    /\ subscript request (py "filename") = Ok (Json.Str filename).

(** [listFiles()], given the names [os.listdir(uploadsDir)] returns. *)
Definition listFiles (disk : Posix.t) (listing : list str) : list str :=
  filter (fun f => Posix.isfile disk (Posix.join uploadsDir f)) listing.

(** [loadAddressBook()] *)
Definition loadAddressBook (disk : Posix.t) : result Json.value :=
  let body :=
    match Posix.open_rb disk addressBookFile with
    | Ok raw =>
        match decode raw with
        | Ok text => json_loads (universal_newlines text)
        | Raise e => Raise e
        end
    | Raise e => Raise e
    end in
  match body with
  | Raise e => if is_IOError e || is_JSONDecodeError e then Ok (Json.Obj []) else Raise e
  | Ok v => Ok v
  end.

(** The request of the client: [json.dumps({"request": "download",
    "filename": filename})]. *)
Definition request_text (filename : str) : str :=
  Json.dumps (Json.Obj [(py "request", Json.Str (py "download"));
                        (py "filename", Json.Str filename)]).

(** [ipAddress, port = peer.split(":")] and [port = int(port)] *)
Definition parse_peer (peer : str) : result (str * Z) :=
  match Posix.split_on 58 peer with
  | [ipAddress; port] =>
      match int port with
      | Ok p => Ok (ipAddress, p)
      | Raise e => Raise e
      end
  | _ => Raise ValueError
  end.

(** [while chunk := sock.recv(chunkSize): f.write(chunk)] over the results
    of the successive calls of [recv]. *)
Fixpoint write_chunks (f : Posix.location) (received : list event) : M unit :=
  match received with
  | [] => ret tt
  | Data chunk :: rest => write f chunk ;;; write_chunks f rest
  | Fault e :: _ => raise e
  end.

Definition receive_into (f : Posix.location) : M unit :=
  fun s =>
    write_chunks f (recv_results chunkSize (inbox (sock s)))
      (with_sock (fun k => mkSocket [] (resolves k) (refuses k) (breaks_after k)
                             (outbox k) (closes k)) s).

(** Lines 152 to 167: receive the file, then verify it. *)
Definition receive_and_verify (filename : str) : M unit :=
  let filePath := Posix.join downloadsDir filename in
  f <- open_wb filePath ;;
  receive_into f ;;;
  downloadedFileHash <- (fun s => (calculateFileHash (fs s) filePath, s)) ;;
  originalFileHash <-
    (fun s => (calculateFileHash (fs s) (Posix.join uploadsDir filename), s)) ;;
  if same_hash downloadedFileHash originalFileHash then
    show (Verified filename)
  else
    show VerificationFailed ;;;
    os_remove filePath.

(** Lines 148 to 167: the suite of [with socket.socket(...) as sock]. *)
Definition transfer (host : str) (port : Z) (filename : str) : M unit :=
  connect host port ;;;
  request <- lift (encode (request_text filename)) ;;
  sendall request ;;;
  receive_and_verify filename.

(** [downloadFileUi(stdscr)] from line 142 on, for the peer (after the
    look-up in the address book) and the file name the user typed. *)
Definition downloadFileUi (peer filename : str) : M unit :=
  try_except
    (address <- lift (parse_peer peer) ;;
     try_finally (transfer (fst address) (snd address) filename) close)
    (fun e => show (ClientError e)).

(** The chunks [write_chunks] writes, and the failure that stops it. *)
Fixpoint written_chunks (received : list event) : list bytes :=
  match received with
  | Data chunk :: rest => chunk :: written_chunks rest
  | _ => []
  end.

Fixpoint failure (received : list event) : option exn :=
  match received with
  | [] => None
  | Data _ :: rest => failure rest
  | Fault e :: _ => Some e
  end.

(** ** Running the two ends *)

(** The bytes of the client's request. *)
Definition request_bytes (filename : str) : bytes :=
  match UTF8.encode (request_text filename) with
  | Some b => b
  | None => []
  end.

(** A handler on [disk] whose connection delivers [payload] and then
    closes, and a client on [disk] whose connection delivers [segments]
    and then closes. *)
Definition serving (disk : Posix.t) (payload : bytes) : state :=
  mkState disk (connection [Data payload]) [].

Definition fetching (disk : Posix.t) (segments : list bytes) : state :=
  mkState disk (connection (map Data segments)) [].

(** What a handler sent, in the order of the [sendall] calls. *)
Definition sent (r : result unit * state) : list bytes := outbox (sock (snd r)).

(** ** A sample disk for the checks *)

(** A disk with the two directories of the program, a file of five bytes
    and an empty file among the served ones, seen from the directory the
    program runs in. *)
Definition home : Posix.location := [py "home"; py "user"].

Definition sample_disk : Posix.t :=
  Posix.of_list
    [ ([], Posix.Dir); ([py "home"], Posix.Dir); (home, Posix.Dir);
      (home ++ [py "Uploads"], Posix.Dir);
      (home ++ [py "Downloads"], Posix.Dir);
      (home ++ [py "Downloads"; py "sub"], Posix.Dir);
      (home ++ [py "Uploads"; py "hello.txt"], Posix.File (bytes_of_string "hello"));
      (home ++ [py "Uploads"; py "empty.bin"], Posix.File []);
      (home ++ [py "Uploads"; py "photos"], Posix.Dir);
      (home ++ [py "Uploads"; py "pipe"], Posix.Special (bytes_of_string "xyz")) ]
    home.

(** The sample disk with one more served file. *)
Definition disk_serving (name : str) (content : bytes) : Posix.t :=
  Posix.of_list
    [ ([], Posix.Dir); ([py "home"], Posix.Dir); (home, Posix.Dir);
      (home ++ [py "Uploads"], Posix.Dir);
      (home ++ [py "Downloads"], Posix.Dir);
      (home ++ [py "Uploads"; name], Posix.File content) ]
    home.

(** ** File names and the downloads directory *)

(** A name a directory entry can have and a user can type: not empty, not
    [.] or [..], without a separator or a null character. *)
Definition is_entry_name (name : str) : bool :=
  negb (str_eqb name []) && negb (str_eqb name [46%N]) && negb (str_eqb name [46%N; 46%N])
  && forallb (fun c => negb (N.eqb c 47) && negb (N.eqb c 0) && UTF8.is_scalar c) name.

(** The file name has a path separator. *)
Definition has_separator (name : str) : bool := existsb (N.eqb 47) name.

(** The file name has two points in a row. *)
Fixpoint has_parent_reference (name : str) : bool :=
  match name with
  | c :: rest =>
      match rest with
      | d :: _ => (N.eqb c 46 && N.eqb d 46) || has_parent_reference rest
      | [] => false
      end
  | [] => false
  end.

(** The location [loc] is below the directory at [dir]. *)
Definition below (dir loc : Posix.location) : bool :=
  Nat.ltb (length dir) (length loc) && Posix.location_eqb (firstn (length dir) loc) dir.

(** Where the program's downloads directory is. *)
Definition downloads_location (disk : Posix.t) : Posix.location :=
  Posix.cwd disk ++ [downloadsDir].

(** A disk with an address book of the given bytes. *)
Definition disk_with_address_book (raw : bytes) : Posix.t :=
  Posix.of_list
    [ ([], Posix.Dir); ([py "home"], Posix.Dir); (home, Posix.Dir);
      (home ++ [addressBookFile], Posix.File raw) ]
    home.


(** The bytes of a text, for the checks. *)
Definition utf8 (text : str) : bytes :=
  match UTF8.encode text with
  | Some b => b
  | None => []
  end.

(** ** Notions the properties are stated with *)

(** What the [try] suite of the handler leaves as it was. *)
Definition same_but_socket_data (s s' : state) : Prop :=
  fs s' = fs s /\ shown s' = shown s /\ closes (sock s') = closes (sock s).

(** The connection once [recv] has taken the payload. *)
Definition after_recv (rest : list event) (s : state) : state :=
  with_sock (fun k => mkSocket rest (resolves k) (refuses k) (breaks_after k) (outbox k) (closes k)) s.

(** A character [json.dumps] writes as it is or in an escape of ASCII. *)
Definition is_ascii (c : N) : bool := (c <? 128)%N.

(** The chunks written one after the other through a handle. *)
Definition writes (loc : Posix.location) (chunks : list bytes) (disk : Posix.t) : Posix.t :=
  fold_left (fun d c => Posix.write loc c d) chunks disk.

(** What the client receives: the results of its calls of [recv]. *)
Definition received (s : state) : list event :=
  recv_results chunkSize (inbox (sock s)).

(** How the part of the client that stores and verifies the file ends, from
    the state [s]: [open] fails and nothing is touched; the transport fails
    and what was written stays; the digests agree and the file stays; they
    differ and the file is removed. *)
Inductive ending (filename : str) (s : state) : result unit -> state -> Prop :=
| NotOpened e :
    Posix.open_wb (fs s) (Posix.join downloadsDir filename) = Raise e ->
    ending filename s (Raise e) s
| Broken loc d1 e :
    Posix.open_wb (fs s) (Posix.join downloadsDir filename) = Ok (loc, d1) ->
    failure (received s) = Some e ->
    ending filename s (Raise e)
      (mkState (writes loc (written_chunks (received s)) d1)
               (mkSocket [] (resolves (sock s)) (refuses (sock s)) (breaks_after (sock s))
                         (outbox (sock s)) (closes (sock s)))
               (shown s))
| Kept loc d1 dh oh :
    Posix.open_wb (fs s) (Posix.join downloadsDir filename) = Ok (loc, d1) ->
    failure (received s) = None ->
    calculateFileHash (writes loc (written_chunks (received s)) d1)
      (Posix.join downloadsDir filename) = Ok dh ->
    calculateFileHash (writes loc (written_chunks (received s)) d1)
      (Posix.join uploadsDir filename) = Ok oh ->
    same_hash dh oh = true ->
    ending filename s (Ok tt)
      (mkState (writes loc (written_chunks (received s)) d1)
               (mkSocket [] (resolves (sock s)) (refuses (sock s)) (breaks_after (sock s))
                         (outbox (sock s)) (closes (sock s)))
               (shown s ++ [Verified filename]))
| Removed loc d1 dh oh :
    Posix.open_wb (fs s) (Posix.join downloadsDir filename) = Ok (loc, d1) ->
    failure (received s) = None ->
    calculateFileHash (writes loc (written_chunks (received s)) d1)
      (Posix.join downloadsDir filename) = Ok dh ->
    calculateFileHash (writes loc (written_chunks (received s)) d1)
      (Posix.join uploadsDir filename) = Ok oh ->
    same_hash dh oh = false ->
    ending filename s (Ok tt)
      (mkState (Posix.set_node loc None (writes loc (written_chunks (received s)) d1))
               (mkSocket [] (resolves (sock s)) (refuses (sock s)) (breaks_after (sock s))
                         (outbox (sock s)) (closes (sock s)))
               (shown s ++ [VerificationFailed])).

(** What [downloadFileUi] adds around the transfer: the socket is closed
    and an exception becomes the message on the screen. *)
Definition closed_socket (k : socket) : socket :=
  mkSocket (inbox k) (resolves k) (refuses k) (breaks_after k) (outbox k) (S (closes k)).

(** [downloadFileUi] after the transfer has ended with [r] in the state [s]. *)
Definition conclude (r : result unit) (s : state) : result unit * state :=
  (Ok tt,
   mkState (fs s) (closed_socket (sock s))
           (shown s ++ match r with Ok _ => [] | Raise e => [ClientError e] end)).

(** The request of the specification's wording, with a field [operation]. *)
Definition operation_payload : bytes :=
  map byte_of_code (pyq "{'operation': 'download', 'filename': 'hello.txt'}").

(** ** The address book and the peers *)

(** What the management of the peers prints or shows: the line
    [saveAddressBook] prints when it cannot write, and the line
    [addPeerUi] ends with. *)
Inductive notice :=
| SaveFailed (e : exn)
| PeerAdded (name : str).

(** [saveAddressBook(addressBook)]: what it prints, and the disk it
    leaves.  The file is opened with [open(addressBookFile, 'w')], which
    cuts it to length 0, and [json.dump] writes the text. *)
Definition saveAddressBook (addressBook : Json.value) (disk : Posix.t)
  : result (list notice) * Posix.t :=
  match Posix.open_wb disk addressBookFile with
  | Ok (f, opened) =>
      match encode (Json.dumps addressBook) with
      | Ok data => (Ok [], Posix.write f data opened)
      | Raise e => if is_IOError e then (Ok [SaveFailed e], opened) else (Raise e, opened)
      end
  | Raise e => if is_IOError e then (Ok [SaveFailed e], disk) else (Raise e, disk)
  end.

(** [container[key] = v] for a [str] key: only a [dict] takes it. *)
Definition setitem (container : Json.value) (key : str) (v : Json.value)
  : result Json.value :=
  match container with
  | Json.Obj members => Ok (Json.Obj (Json.dict_set key v members))
  | _ => Raise TypeError
  end.

(** [addPeerUi(stdscr)], for the name and the address the user typed. *)
Definition addPeerUi (name addr : str) (disk : Posix.t) : result (list notice) * Posix.t :=
  match loadAddressBook disk with
  | Ok addressBook =>
      match setitem addressBook name (Json.Str addr) with
      | Ok addressBook' =>
          match saveAddressBook addressBook' disk with
          | (Ok printed, disk') => (Ok (printed ++ [PeerAdded name]), disk')
          | (Raise e, disk') => (Raise e, disk')
          end
      | Raise e => (Raise e, disk)
      end
  | Raise e => (Raise e, disk)
  end.

(** [text.startswith(prefix)] and [needle in text] for [str]. *)
Fixpoint starts_with (prefix text : str) : bool :=
  match prefix, text with
  | [], _ => true
  | p :: prefix', c :: text' => N.eqb p c && starts_with prefix' text'
  | _ :: _, [] => false
  end.

Fixpoint is_substring (needle text : str) : bool :=
  starts_with needle text
  || match text with
     | [] => false
     | _ :: text' => is_substring needle text'
     end.

(** [item in container] for a [str] item: a key of a [dict], an element of
    a [list], a part of a [str]; the other values are not iterable. *)
Definition contains (container : Json.value) (item : str) : result bool :=
  match container with
  | Json.Obj members =>
      Ok (match Json.dict_get item members with Some _ => true | None => false end)
  | Json.Arr items => Ok (existsb (fun x => equals_str x item) items)
  | Json.Str text => Ok (is_substring item text)
  | _ => Raise TypeError
  end.

(** Lines 137 and 138: [if peer in addressBook: peer = addressBook[peer]]. *)
Definition lookUpPeer (addressBook : Json.value) (peer : str) : result Json.value :=
  match contains addressBook peer with
  | Ok true => subscript addressBook peer
  | Ok false => Ok (Json.Str peer)
  | Raise e => Raise e
  end.

(** [downloadFileUi(stdscr)] from line 136 on, for the peer and the file
    name the user typed: the peer is looked up in the address book, and
    what comes of it goes through line 142 on.  A value that is not a
    [str] has no [split], which the [try] suite turns into a message. *)
Definition downloadFileUi_from_book (peer filename : str) : M unit :=
  fun s =>
    match loadAddressBook (fs s) with
    | Ok addressBook =>
        match lookUpPeer addressBook peer with
        | Ok (Json.Str address) => downloadFileUi address filename s
        | Ok _ => try_except (raise AttributeError) (fun e => show (ClientError e)) s
        | Raise e => (Raise e, s)
        end
    | Raise e => (Raise e, s)
    end.

(** The address book that holds the listed names and addresses. *)
Definition address_book (entries : list (str * str)) : Json.value :=
  Json.Obj (map (fun entry => (fst entry, Json.Str (snd entry))) entries).

(** The names are different and the texts are what [bytes.decode()] can
    give. *)
Fixpoint distinct_names (entries : list (str * str)) : bool :=
  match entries with
  | [] => true
  | (name, _) :: rest =>
      negb (existsb (fun entry => str_eqb (fst entry) name) rest) && distinct_names rest
  end.

Definition decoded_texts (entries : list (str * str)) : bool :=
  forallb (fun entry => forallb UTF8.is_scalar (fst entry)
                        && forallb UTF8.is_scalar (snd entry)) entries.

(** ** The menu of [displayUi] *)

(** The key codes of [curses]. *)
Definition KEY_DOWN : Z := 258.
Definition KEY_UP : Z := 259.
Definition KEY_ENTER : Z := 343.

Definition options : list str :=
  [py "List Files"; py "List Peers"; py "Add Peer"; py "Download File"; py "Quit"].

(** What a key of the menu starts. *)
Inductive choice := RunListFilesUi | RunListPeersUi | RunAddPeerUi | RunDownloadFileUi | Quit.

(** Lines 233 to 247: the selection after the key, and what the key
    starts. *)
Definition menu_key (selectedIdx : Z) (key : Z) : Z * option choice :=
  let last := (Z.of_nat (length options) - 1)%Z in
  if (key =? KEY_UP)%Z && (selectedIdx >? 0)%Z then ((selectedIdx - 1)%Z, None)
  else if (key =? KEY_DOWN)%Z && (selectedIdx <? last)%Z then ((selectedIdx + 1)%Z, None)
  else if (key =? KEY_ENTER)%Z || existsb (Z.eqb key) [10%Z; 13%Z] then
    if (selectedIdx =? last)%Z then (selectedIdx, Some Quit)
    else if (selectedIdx =? 0)%Z then (selectedIdx, Some RunListFilesUi)
    else if (selectedIdx =? 1)%Z then (selectedIdx, Some RunListPeersUi)
    else if (selectedIdx =? 2)%Z then (selectedIdx, Some RunAddPeerUi)
    else if (selectedIdx =? 3)%Z then (selectedIdx, Some RunDownloadFileUi)
    else (selectedIdx, None)
  else (selectedIdx, None).

(** The keys the menu reads, from the selection [selectedIdx] on, up to
    the one that quits: the selection it ends with and what was started,
    in order. *)
Fixpoint displayUi_keys (keys : list Z) (selectedIdx : Z) : Z * list choice :=
  match keys with
  | [] => (selectedIdx, [])
  | key :: rest =>
      match menu_key selectedIdx key with
      | (idx, Some Quit) => (idx, [Quit])
      | (idx, Some started) =>
          (fst (displayUi_keys rest idx), started :: snd (displayUi_keys rest idx))
      | (idx, None) => displayUi_keys rest idx
      end
  end.

(** The text [json.dumps] writes for one entry of the address book. *)
Definition entry_text (entry : str * str) : str :=
  Json.encode_string (fst entry) ++ py ": " ++ Json.encode_string (snd entry).

(** [addressBook[name] = addr] on the entries. *)
Fixpoint set_entry (name addr : str) (entries : list (str * str)) : list (str * str) :=
  match entries with
  | [] => [(name, addr)]
  | (n, a) :: rest =>
      if str_eqb n name then (n, addr) :: rest else (n, a) :: set_entry name addr rest
  end.

(** A printable character of ASCII. *)
Definition is_plain (c : N) : bool := (32 <=? c)%N && (c <=? 126)%N.

(** Where the address book is, and whether it can be written: the program
    runs in a directory, and the book is a regular file or is not there. *)
Definition book_location (disk : Posix.t) : Posix.location :=
  Posix.cwd disk ++ [addressBookFile].

Definition book_writable (disk : Posix.t) : bool :=
  match Posix.tree disk (Posix.cwd disk), Posix.tree disk (book_location disk) with
  | Some Posix.Dir, None => true
  | Some Posix.Dir, Some (Posix.File _) => true
  | _, _ => false
  end.

(** The sample disk with a directory where the address book should be. *)
Definition disk_with_book_directory : Posix.t :=
  Posix.set_node (home ++ [addressBookFile]) (Some Posix.Dir) sample_disk.


(** The sample disk with a file beside the two directories of the
    program. *)
Definition disk_with_notes : Posix.t :=
  Posix.set_node (home ++ [py "notes.txt"])
    (Some (Posix.File (bytes_of_string "secret"))) sample_disk.

(** A client on [disk] whose connection delivers [segments] and then
    fails with [e]. *)
Definition fetching_until (disk : Posix.t) (segments : list bytes) (e : exn) : state :=
  mkState disk (connection (map Data segments ++ [Fault e])) [].

(** A digit of a [hexdigest]. *)
Definition is_lower_hex (c : N) : bool :=
  ((48 <=? c) && (c <=? 57) || (97 <=? c) && (c <=? 102))%N.

(** How often a key is among the keys. *)
Definition presses (key : Z) (keys : list Z) : nat := length (filter (Z.eqb key) keys).

(** A state of the reader of [json.loads] that waits for the end of an
    array or an object, or that is at its end for good. *)
Definition pending_or_settled (st : Json.pstate) : bool :=
  match st with
  | (Json.Done _, _) => true
  | (Json.Failed, _) => true
  | (_, []) => false
  | (_, _ :: _) => true
  end.


(** The disk of another node: the two directories of the program and
    nothing in them. *)
Definition fresh_disk : Posix.t :=
  Posix.of_list
    [ ([], Posix.Dir); ([py "home"], Posix.Dir); (home, Posix.Dir);
      (home ++ [py "Uploads"], Posix.Dir);
      (home ++ [py "Downloads"], Posix.Dir) ]
    home.

(* ================================================================== *)
(** * Properties *)

(** ** Test vectors for the digest *)

Example sha256_empty :
SHA256.sha256 [] = py "e3b0c44298fc1c149afbf4c8996fb92427ae41e4649b934ca495991b7852b855".
Proof. vm_compute. reflexivity. Qed.

Example sha256_abc :
SHA256.sha256 (bytes_of_string "abc")
= py "ba7816bf8f01cfea414140de5dae2223b00361a396177a9cb410ff61f20015ad".
Proof. vm_compute. reflexivity. Qed.

Example sha256_stream_abc :
SHA256.hexdigest (SHA256.update (SHA256.update SHA256.new (bytes_of_string "a")) (bytes_of_string "bc"))
= py "ba7816bf8f01cfea414140de5dae2223b00361a396177a9cb410ff61f20015ad".
Proof. vm_compute. reflexivity. Qed.

Example sha256_119 :
SHA256.sha256 (repeat "a"%byte 119)
= py "31eba51c313a5c08226adf18d4a359cfdfd8d2e816b13f4af952f7ea6584dcfb".
Proof. vm_compute. reflexivity. Qed.

Example sha256_56 :
SHA256.hexdigest (SHA256.update SHA256.new (repeat "a"%byte 56))
= py "b35439a4ac6f0948b6d6f9e3c6af0f5f590ce20f1bde7090ef7970686ec6738a".
Proof. vm_compute. reflexivity. Qed.

Example utf8_decode_euro :
UTF8.decode [xe2; x82; xac; x41] = Some [0x20AC; 0x41]%N.
Proof. reflexivity. Qed.

Example utf8_encode_euro :
UTF8.encode [0x20AC; 0x41; 0x1F600; 0xE9]%N
= Some [xe2; x82; xac; x41; xf0; x9f; x98; x80; xc3; xa9].
Proof. reflexivity. Qed.

Example utf8_decode_rejects :
UTF8.decode [xff] = None /\ UTF8.decode [xc0; x80] = None
/\ UTF8.decode [xed; xa0; x80] = None /\ UTF8.decode [xe2; x82] = None.
Proof. repeat split; reflexivity. Qed.

(** ** Checks of the JSON reader and writer *)

(** ** Reading in chunks loses nothing *)

Lemma chunks_fuel_concat (n : nat) :
  0 < n -> forall fuel data, length data <= fuel ->
  concat (Posix.chunks_fuel fuel n data) = data.
Proof.
  intros Hn fuel; induction fuel as [|fuel IH]; intros data Hlen.
  - destruct data; [reflexivity | simpl in Hlen; lia].
  - destruct data as [|b data]; [reflexivity|].
    change (Posix.chunks_fuel (S fuel) n (b :: data))
      with (firstn n (b :: data) :: Posix.chunks_fuel fuel n (skipn n (b :: data))).
    simpl concat. rewrite IH.
    + apply firstn_skipn.
    + rewrite length_skipn. simpl length in *. lia.
Qed.

Lemma concat_chunks (n : nat) (data : bytes) :
  0 < n -> concat (Posix.chunks n data) = data.
Proof. intros Hn. apply chunks_fuel_concat; auto. Qed.

Lemma chunkSize_pos : 0 < chunkSize.
Proof. unfold chunkSize. lia. Qed.

Lemma chunks_fuel_bounds (n : nat) :
  0 < n -> forall fuel data,
  Forall (fun c => c <> [] /\ length c <= n) (Posix.chunks_fuel fuel n data).
Proof.
  intros Hn fuel; induction fuel as [|fuel IH]; intros data; [constructor|].
  destruct data as [|b data]; [constructor|].
  change (Posix.chunks_fuel (S fuel) n (b :: data))
    with (firstn n (b :: data) :: Posix.chunks_fuel fuel n (skipn n (b :: data))).
  constructor; [|apply IH].
  split.
  - destruct n; [lia | discriminate].
  - apply firstn_le_length.
Qed.

Lemma concat_flat_map_chunks (n : nat) (segments : list bytes) :
  0 < n -> concat (flat_map (Posix.chunks n) segments) = concat segments.
Proof.
  intros Hn. induction segments as [|x xs IH]; [reflexivity|].
  simpl. rewrite concat_app, IH, concat_chunks; auto.
Qed.

(** ** The streaming digest *)

Lemma absorb_app (a b : bytes) : forall h buf,
  SHA256.absorb h buf (a ++ b)
  = SHA256.absorb (fst (SHA256.absorb h buf a)) (snd (SHA256.absorb h buf a)) b.
Proof.
  induction a as [|x a IH]; intros h buf; [reflexivity|].
  simpl. destruct (Nat.eqb (length (buf ++ [x])) 64); apply IH.
Qed.

Lemma update_app (s : SHA256.t) (a b : bytes) :
  SHA256.update (SHA256.update s a) b = SHA256.update s (a ++ b).
Proof.
  unfold SHA256.update. rewrite absorb_app.
  destruct (SHA256.absorb (SHA256.chaining s) (SHA256.pending s) a) as [h1 b1].
  simpl. destruct (SHA256.absorb h1 b1 b) as [h2 b2].
  f_equal. rewrite length_app. lia.
Qed.

Lemma update_nil (s : SHA256.t) : SHA256.update s [] = s.
Proof. destruct s. unfold SHA256.update. simpl. f_equal. lia. Qed.

Lemma fold_update (pieces : list bytes) : forall s,
  fold_left SHA256.update pieces s = SHA256.update s (concat pieces).
Proof.
  induction pieces as [|p ps IH]; intros s; simpl.
  - symmetry. apply update_nil.
  - rewrite IH. apply update_app.
Qed.

(** Absorbing from an empty buffer compresses the 64-byte blocks in turn. *)
Lemma absorb_short (data : bytes) : forall h buf,
  length buf + length data < 64 ->
  SHA256.absorb h buf data = (h, buf ++ data).
Proof.
  induction data as [|x data IH]; intros h buf Hlen; simpl.
  - now rewrite app_nil_r.
  - simpl in Hlen.
    replace (Nat.eqb (length (buf ++ [x])) 64) with false.
    + rewrite IH; [now rewrite <- app_assoc | rewrite length_app; simpl; lia].
    + symmetry. apply Nat.eqb_neq. rewrite length_app. simpl. lia.
Qed.

Lemma absorb_fill (data : bytes) : forall h buf rest,
  data <> [] -> length buf + length data = 64 ->
  SHA256.absorb h buf (data ++ rest)
  = SHA256.absorb (SHA256.compress h (buf ++ data)) [] rest.
Proof.
  induction data as [|x data IH]; intros h buf rest Hne Hlen; [congruence|].
  simpl in *.
  destruct (Nat.eqb (length (buf ++ [x])) 64) eqn:E.
  - apply Nat.eqb_eq in E. rewrite length_app in E. simpl in E.
    assert (data = []) by (destruct data; [reflexivity | simpl in Hlen; lia]).
    subst data. reflexivity.
  - apply Nat.eqb_neq in E. rewrite length_app in E. simpl in E.
    rewrite IH.
    + now rewrite <- app_assoc.
    + destruct data; [simpl in Hlen; lia | discriminate].
    + rewrite length_app. simpl. lia.
Qed.

Lemma absorb_blocks : forall fuel data h,
  length data <= fuel ->
  fst (SHA256.absorb h [] data) = fold_left SHA256.compress (SHA256.blocks_fuel fuel data) h.
Proof.
  induction fuel as [|fuel IH]; intros data h Hlen.
  - destruct data; [reflexivity | simpl in Hlen; lia].
  - change (SHA256.blocks_fuel (S fuel) data)
      with (if Nat.ltb (length data) 64 then []
            else firstn 64 data :: SHA256.blocks_fuel fuel (skipn 64 data)).
    destruct (Nat.ltb (length data) 64) eqn:E.
    + apply Nat.ltb_lt in E. rewrite absorb_short by (simpl; lia). reflexivity.
    + apply Nat.ltb_ge in E.
      assert (Hsplit : data = firstn 64 data ++ skipn 64 data)
        by (symmetry; apply firstn_skipn).
      remember (firstn 64 data) as block eqn:Hb.
      remember (skipn 64 data) as rest eqn:Hr.
      assert (Hbl : length block = 64) by (subst block; rewrite length_firstn; lia).
      assert (Hrl : length rest <= fuel) by (subst rest; rewrite length_skipn; lia).
      rewrite Hsplit, absorb_fill.
      * cbn [app fold_left]. apply IH. exact Hrl.
      * intros H. rewrite H in Hbl. discriminate.
      * simpl. exact Hbl.
Qed.

(** The streaming object computes the one-pass digest. *)
Lemma hexdigest_update (msg : bytes) :
  SHA256.hexdigest (SHA256.update SHA256.new msg) = SHA256.sha256 msg.
Proof.
  unfold SHA256.hexdigest, SHA256.update, SHA256.sha256, SHA256.digest_words, SHA256.blocks.
  simpl SHA256.chaining. simpl SHA256.pending. simpl SHA256.count.
  rewrite <- absorb_blocks by lia.
  rewrite absorb_app.
  destruct (SHA256.absorb SHA256.H0 [] msg) as [h buf]. reflexivity.
Qed.

(** ** The content verifier *)

Lemma walk_raises_OSError (tr : Posix.location -> option Posix.node) (comps : list str) :
  forall loc e, Posix.walk tr loc comps = Raise e -> is_IOError e = true.
Proof.
  induction comps as [|c comps IH]; intros loc e H; simpl in H; [discriminate|].
  destruct (tr loc) as [[| |]|]; try (inversion H; reflexivity).
  eapply IH; eauto.
Qed.

(** On a path the system accepts, [open] fails with an [OSError] only. *)
Lemma open_rb_raises_OSError (disk : Posix.t) (path : str) (e : exn) :
  existsb Posix.bad_path_char path = false ->
  Posix.open_rb disk path = Raise e -> is_IOError e = true.
Proof.
  unfold Posix.open_rb, Posix.stat, Posix.locate. intros Hok H. rewrite Hok in H.
  destruct path as [|c path]; [inversion H; reflexivity|].
  destruct (Posix.walk _ _ _) as [loc|e'] eqn:W.
  - destruct (Posix.tree disk loc) as [[| |]|]; inversion H; reflexivity.
  - inversion H; subst. eapply walk_raises_OSError; eauto.
Qed.

Lemma calculateFileHash_content (disk : Posix.t) (filePath : str) (content : bytes) :
  Posix.open_rb disk filePath = Ok content ->
  calculateFileHash disk filePath = Ok (Some (SHA256.sha256 content)).
Proof.
  intros H. unfold calculateFileHash. rewrite H.
  rewrite fold_update, concat_chunks by apply chunkSize_pos.
  now rewrite hexdigest_update.
Qed.

(** C7 — For every readable file, the digest that [calculateFileHash]
    computes by feeding the file to the streaming accumulator in chunks of
    [chunkSize] bytes is the digest of the whole content computed in one
    pass; and so is the digest of the accumulator fed with any other
    division of the content into pieces: the result depends on the content
    only. *)
Theorem C7_chunked_digest_is_digest_of_content :
  forall (disk : Posix.t) (filePath : str) (content : bytes),
    Posix.open_rb disk filePath = Ok content ->
    calculateFileHash disk filePath = Ok (Some (SHA256.sha256 content))
    /\ (forall pieces : list bytes,
          concat pieces = content ->
          SHA256.hexdigest (fold_left SHA256.update pieces SHA256.new)
          = SHA256.sha256 content)
    /\ (forall s a b,
          SHA256.update (SHA256.update s a) b = SHA256.update s (a ++ b)).
Proof.
  intros disk filePath content Hopen. split; [|split].
  - now apply calculateFileHash_content.
  - intros pieces Hcat. rewrite fold_update, Hcat. apply hexdigest_update.
  - intros. apply update_app.
Qed.

Lemma C7_witness :
  Posix.open_rb sample_disk (py "Uploads/hello.txt") = Ok (bytes_of_string "hello")
  /\ calculateFileHash sample_disk (py "Uploads/hello.txt")
     = Ok (Some (SHA256.sha256 (bytes_of_string "hello"))).
Proof.
  split; [vm_compute; reflexivity|].
  apply (C7_chunked_digest_is_digest_of_content sample_disk (py "Uploads/hello.txt")).
  vm_compute; reflexivity.
Defined.

(** C6 — [calculateFileHash] returns [None] for a file that cannot be
    opened, and for a file that is there and empty the digest of the empty
    input, which is not [None]: the two results differ. *)
Theorem C6_missing_and_empty_are_told_apart :
  forall (disk : Posix.t) (missing empty : str) (e : exn) (loc : Posix.location),
    existsb Posix.bad_path_char missing = false ->
    Posix.open_rb disk missing = Raise e ->
    Posix.stat disk empty = Ok (loc, Posix.File []) ->
    calculateFileHash disk missing = Ok None
    /\ calculateFileHash disk empty
       = Ok (Some (py "e3b0c44298fc1c149afbf4c8996fb92427ae41e4649b934ca495991b7852b855"))
    /\ calculateFileHash disk missing <> calculateFileHash disk empty.
Proof.
  intros disk missing empty e loc Hpath Hfail Hstat.
  assert (Hm : calculateFileHash disk missing = Ok None).
  { unfold calculateFileHash. rewrite Hfail.
    now rewrite (open_rb_raises_OSError disk missing Hpath Hfail). }
  assert (He : calculateFileHash disk empty = Ok (Some (SHA256.sha256 []))).
  { apply calculateFileHash_content. unfold Posix.open_rb. now rewrite Hstat. }
  rewrite Hm, He.
  split; [reflexivity | split; [now rewrite sha256_empty | discriminate]].
Qed.

Lemma C6_witness :
  existsb Posix.bad_path_char (py "Uploads/missing.txt") = false
  /\ Posix.open_rb sample_disk (py "Uploads/missing.txt") = Raise (OSError ENOENT)
  /\ Posix.stat sample_disk (py "Uploads/empty.bin")
     = Ok (home ++ [py "Uploads"; py "empty.bin"], Posix.File [])
  /\ calculateFileHash sample_disk (py "Uploads/missing.txt")
     <> calculateFileHash sample_disk (py "Uploads/empty.bin").
Proof.
  assert (H1 : existsb Posix.bad_path_char (py "Uploads/missing.txt") = false)
    by (vm_compute; reflexivity).
  assert (H2 : Posix.open_rb sample_disk (py "Uploads/missing.txt") = Raise (OSError ENOENT))
    by (vm_compute; reflexivity).
  assert (H3 : Posix.stat sample_disk (py "Uploads/empty.bin")
               = Ok (home ++ [py "Uploads"; py "empty.bin"], Posix.File []))
    by (vm_compute; reflexivity).
  repeat split; try assumption.
  apply (C6_missing_and_empty_are_told_apart sample_disk _ _ H1 H2 H3).
Defined.

(** ** The transfer handler *)

Lemma sendall_frame (data : bytes) (s : state) :
  same_but_socket_data s (snd (sendall data s)).
Proof.
  unfold sendall, same_but_socket_data.
  destruct (Nat.ltb 0 (closes (sock s))); [simpl; auto|].
  destruct (breaks_after (sock s)) as [[|n]|]; simpl; auto.
Qed.

Lemma for_each_sendall_frame (xs : list bytes) : forall s,
  same_but_socket_data s (snd (for_each xs sendall s)).
Proof.
  induction xs as [|x xs IH]; intros s.
  - simpl. unfold same_but_socket_data; auto.
  - simpl. unfold bind.
    pose proof (sendall_frame x s) as Hx.
    destruct (sendall x s) as [[[]|e] s1]; simpl in *.
    + specialize (IH s1). unfold same_but_socket_data in *.
      destruct Hx as (A & B & C), IH as (A' & B' & C').
      rewrite A', B', C'. auto.
    + exact Hx.
Qed.

Lemma recv_frame (n : nat) (s : state) :
  same_but_socket_data s (snd (recv n s))
  /\ outbox (sock (snd (recv n s))) = outbox (sock s)
  /\ breaks_after (sock (snd (recv n s))) = breaks_after (sock s).
Proof.
  unfold recv, same_but_socket_data.
  destruct (Nat.ltb 0 (closes (sock s))); [simpl; auto|].
  destruct (recv_from n (inbox (sock s))) as [r rest]; simpl; auto.
Qed.

Lemma serve_request_frame (s : state) :
  same_but_socket_data s (snd (serve_request s)).
Proof.
  unfold serve_request, bind, lift, ret.
  destruct (recv_frame 1024 s) as (F & _ & _).
  destruct (recv 1024 s) as [[data|e] s1]; simpl in *; [|exact F].
  destruct (parse_request data) as [request|e]; [|exact F].
  destruct (subscript request (py "request")) as [operation|e]; [|exact F].
  destruct (equals_str operation (py "download")); [|exact F].
  destruct (subscript request (py "filename")) as [filename|e]; [|exact F].
  destruct (os_path_join uploadsDir filename) as [filePath|e]; [|exact F].
  assert (T : forall m : M unit,
             same_but_socket_data s1 (snd (m s1)) -> same_but_socket_data s (snd (m s1))).
  { intros m (A & B & C). destruct F as (A' & B' & C').
    unfold same_but_socket_data. rewrite A, B, C. auto. }
  destruct (Posix.exists_ (fs s1) filePath).
  - unfold open_rb. destruct (Posix.open_rb (fs s1) filePath) as [f|e]; [|exact F].
    apply (T (for_each (Posix.chunks chunkSize f) sendall)), for_each_sendall_frame.
  - apply (T (sendall [])), sendall_frame.
Qed.

(** Whatever the [try] suite does, [handleClient] returns normally, with
    the connection closed once more than before. *)
Lemma handleClient_returns (s : state) :
  fst (handleClient s) = Ok tt
  /\ closes (sock (snd (handleClient s))) = S (closes (sock s))
  /\ fs (snd (handleClient s)) = fs s
  /\ outbox (sock (snd (handleClient s))) = outbox (sock (snd (serve_request s)))
  /\ shown (snd (handleClient s))
     = shown s ++ match fst (serve_request s) with
                  | Ok _ => []
                  | Raise e => [HandlerError e]
                  end.
Proof.
  unfold handleClient, try_finally, try_except.
  destruct (serve_request_frame s) as (A & B & C).
  destruct (serve_request s) as [[[]|e] s1]; simpl in *.
  - rewrite A, B, C, app_nil_r. auto.
  - rewrite A, B, C. auto.
Qed.

Lemma serve_request_not_download (s : state) (data : bytes) (rest : list event) :
  recv_from 1024 (inbox (sock s)) = (Ok data, rest) ->
  (forall request operation,
      parse_request data = Ok request ->
      subscript request (py "request") = Ok operation ->
      equals_str operation (py "download") = false) ->
  outbox (sock (snd (serve_request s))) = outbox (sock s).
Proof.
  intros Hrecv Hop. unfold serve_request, bind, lift, ret, recv.
  destruct (Nat.ltb 0 (closes (sock s))); [reflexivity|].
  rewrite Hrecv. simpl.
  destruct (parse_request data) as [request|e] eqn:P; [|reflexivity].
  destruct (subscript request (py "request")) as [operation|e] eqn:O; [|reflexivity].
  rewrite (Hop request operation eq_refl O). reflexivity.
Qed.

(** C5 — For every inbound connection: [handleClient] returns without an
    exception and has closed the connection, exactly once, on every path;
    and when the payload does not parse, or has no entry that names the
    operation, or names another operation than "download", nothing has been
    sent. *)
Theorem C5_handler_fails_closed :
  forall s : state,
    fst (handleClient s) = Ok tt
    /\ closes (sock (snd (handleClient s))) = S (closes (sock s))
    /\ (forall data rest,
          recv_from 1024 (inbox (sock s)) = (Ok data, rest) ->
          (forall request operation,
              parse_request data = Ok request ->
              subscript request (py "request") = Ok operation ->
              equals_str operation (py "download") = false) ->
          sent (handleClient s) = outbox (sock s)).
Proof.
  intros s. destruct (handleClient_returns s) as (R & C & _ & O & _).
  split; [exact R | split; [exact C|]].
  intros data rest Hrecv Hop. unfold sent. rewrite O.
  eapply serve_request_not_download; eauto.
Qed.

Lemma serve_request_download (s : state) (data : bytes) (rest : list event) (fn : str) :
  closes (sock s) = 0 ->
  recv_from 1024 (inbox (sock s)) = (Ok data, rest) ->
  asks_for data fn ->
  serve_request s
  = (if Posix.exists_ (fs s) (Posix.join uploadsDir fn)
     then f <- open_rb (Posix.join uploadsDir fn) ;; for_each (Posix.chunks chunkSize f) sendall
     else sendall []) (after_recv rest s).
Proof.
  intros Hc Hrecv (request & operation & P & O & E & F).
  unfold serve_request, bind at 1, recv. rewrite Hc, Hrecv. simpl.
  unfold bind at 1, lift. rewrite P.
  unfold bind at 1. rewrite O. rewrite E.
  unfold bind at 1. rewrite F.
  unfold bind at 1. simpl os_path_join.
  unfold bind at 1. simpl fs.
  reflexivity.
Qed.

Lemma for_each_sendall_ok (xs : list bytes) : forall s,
  closes (sock s) = 0 -> breaks_after (sock s) = None ->
  fst (for_each xs sendall s) = Ok tt
  /\ outbox (sock (snd (for_each xs sendall s))) = outbox (sock s) ++ xs.
Proof.
  induction xs as [|x xs IH]; intros [d [inb res ref brk out cl] sh] Hc Hb;
    simpl in Hc, Hb; subst cl brk.
  - simpl. now rewrite app_nil_r.
  - specialize (IH (mkState d (mkSocket inb res ref None (out ++ [x]) 0) sh) eq_refl eq_refl).
    simpl in IH. destruct IH as (A & B).
    cbn [for_each]. unfold bind. unfold sendall at 1. unfold with_sock. simpl.
    destruct (for_each xs sendall _) as [r s2] eqn:E. simpl in A, B. subst r. simpl.
    rewrite B, <- app_assoc. auto.
Qed.

(** The handler streams what [os.path.exists] and [open] let through: a
    regular file and a node that is not one alike; for a directory [open]
    raises and nothing is sent. *)
Lemma handler_streams (s : state) (data : bytes) (rest : list event) (fn : str) :
  closes (sock s) = 0 ->
  recv_from 1024 (inbox (sock s)) = (Ok data, rest) ->
  asks_for data fn ->
  match Posix.stat (fs s) (Posix.join uploadsDir fn) with
  | Ok (_, Posix.Dir) =>
      sent (handleClient s) = outbox (sock s)
      /\ shown (snd (handleClient s)) = shown s ++ [HandlerError (OSError EISDIR)]
  | Ok (_, Posix.File content) | Ok (_, Posix.Special content) =>
      breaks_after (sock s) = None ->
      sent (handleClient s) = outbox (sock s) ++ Posix.chunks chunkSize content
      /\ shown (snd (handleClient s)) = shown s
  | Raise _ =>
      concat (sent (handleClient s)) = concat (outbox (sock s))
      /\ (breaks_after (sock s) = None -> shown (snd (handleClient s)) = shown s)
  end.
Proof.
  intros Hc Hrecv Hask.
  destruct (handleClient_returns s) as (_ & _ & _ & O & Sh).
  unfold sent. rewrite O, Sh. clear O Sh.
  rewrite (serve_request_download s Hc Hrecv Hask).
  unfold Posix.exists_, open_rb, bind. simpl fs.
  destruct (Posix.stat (fs s) (Posix.join uploadsDir fn)) as [[loc [content| |supply]]|e] eqn:St;
    unfold after_recv, with_sock; simpl; unfold Posix.open_rb; rewrite ?St.
  - intros Hb.
    match goal with |- context [for_each ?xs sendall ?st] =>
      destruct (for_each_sendall_ok xs st) as (A & B); [exact Hc | exact Hb |];
      destruct (for_each xs sendall st) as [r s2] end.
    simpl in *. subst r. rewrite B, app_nil_r. auto.
  - simpl. auto.
  - intros Hb.
    match goal with |- context [for_each ?xs sendall ?st] =>
      destruct (for_each_sendall_ok xs st) as (A & B); [exact Hc | exact Hb |];
      destruct (for_each xs sendall st) as [r s2] end.
    simpl in *. subst r. rewrite B, app_nil_r. auto.
  - unfold sendall. simpl. rewrite Hc. simpl.
    destruct (breaks_after (sock s)) as [[|n]|]; simpl;
      rewrite ?app_nil_r, ?concat_app; simpl; rewrite ?app_nil_r;
      split; auto; discriminate.
Qed.

(** ** The request: [json.dumps], [encode], [decode], [json.loads] *)

Ltac N_bool :=
  repeat match goal with
  | H : (_ && _)%bool = true |- _ => apply andb_true_iff in H; destruct H
  | H : (_ || _)%bool = false |- _ => apply orb_false_iff in H; destruct H
  | H : negb _ = true |- _ => apply negb_true_iff in H
  | H : negb _ = false |- _ => apply negb_false_iff in H
  | H : N.leb _ _ = true |- _ => apply N.leb_le in H
  | H : N.leb _ _ = false |- _ => apply N.leb_gt in H
  | H : N.ltb _ _ = true |- _ => apply N.ltb_lt in H
  | H : N.ltb _ _ = false |- _ => apply N.ltb_ge in H
  | H : N.eqb _ _ = true |- _ => apply N.eqb_eq in H
  | H : N.eqb _ _ = false |- _ => apply N.eqb_neq in H
  end.

Lemma hex_val_hex_digit (d : N) :
  (d < 16)%N -> Json.hex_val (Json.hex_digit d) = Some d.
Proof.
  intros Hd. unfold Json.hex_val, Json.hex_digit, Json.is_digit.
  destruct (N.ltb_spec d 10).
  - replace ((48 <=? 48 + d) && (48 + d <=? 57))%N with true.
    + f_equal. lia.
    + symmetry. apply andb_true_iff. split; apply N.leb_le; lia.
  - replace ((48 <=? 87 + d) && (87 + d <=? 57))%N with false.
    + replace ((97 <=? 87 + d) && (87 + d <=? 102))%N with true.
      * f_equal. lia.
      * symmetry. apply andb_true_iff. split; apply N.leb_le; lia.
    + symmetry. apply andb_false_iff. right. apply N.leb_gt. lia.
Qed.

Lemma hex_digit_ascii (d : N) : (d < 16)%N -> (Json.hex_digit d < 128)%N.
Proof. intros Hd. unfold Json.hex_digit. destruct (d <? 10)%N; lia. Qed.

Lemma nibble (n k : N) : ((n / k) mod 16 < 16)%N.
Proof. apply N.mod_lt. discriminate. Qed.

Lemma hex4_value (n : N) :
  (n < 65536)%N ->
  ((((n / 4096) mod 16 * 16 + (n / 256) mod 16) * 16 + (n / 16) mod 16) * 16 + n mod 16 = n)%N.
Proof.
  intros Hn.
  pose proof (N.div_mod n 16 ltac:(discriminate)).
  pose proof (N.div_mod (n / 16) 16 ltac:(discriminate)).
  pose proof (N.div_mod (n / 16 / 16) 16 ltac:(discriminate)).
  rewrite !N.Div0.div_div in *.
  change (16 * 16)%N with 256%N in *. change (256 * 16)%N with 4096%N in *.
  assert (n / 4096 < 16)%N by (apply N.Div0.div_lt_upper_bound; lia).
  rewrite (N.mod_small (n / 4096) 16) in * by assumption.
  lia.
Qed.

Lemma hex4_steps (n : N) (acc : str) (hi : option N) (stk : list Json.frame) :
  (n < 65536)%N ->
  fold_left Json.step (Json.hex4 n) (Json.InHex acc hi [], stk)
  = Json.finish_unit acc hi n stk.
Proof.
  intros Hn. unfold Json.hex4.
  repeat (cbn [fold_left Json.step app];
          rewrite hex_val_hex_digit by (apply nibble || (apply N.mod_lt; discriminate))).
  cbn [app]. now rewrite hex4_value.
Qed.

(** Reading back the escape of one character. *)
Lemma escape_char_read (c : N) (acc : str) (stk : list Json.frame) :
  UTF8.is_scalar c = true ->
  fold_left Json.step (Json.escape_char c) (Json.InString acc, stk)
  = (Json.InString (acc ++ [c]), stk).
Proof.
  intros Hc. unfold UTF8.is_scalar, UTF8.is_surrogate in Hc.
  unfold Json.escape_char.
  destruct (N.eqb_spec c 34); [subst; reflexivity|].
  destruct (N.eqb_spec c 92); [subst; reflexivity|].
  destruct (N.eqb_spec c 10); [subst; reflexivity|].
  destruct (N.eqb_spec c 13); [subst; reflexivity|].
  destruct (N.eqb_spec c 9); [subst; reflexivity|].
  destruct (N.eqb_spec c 8); [subst; reflexivity|].
  destruct (N.eqb_spec c 12); [subst; reflexivity|].
  destruct ((32 <=? c) && (c <=? 126))%N eqn:P.
  - N_bool. cbn [fold_left Json.step]. unfold Json.in_string.
    destruct (N.eqb_spec c 34); [contradiction|].
    destruct (N.eqb_spec c 92); [contradiction|].
    destruct (N.ltb_spec c 32); [lia | reflexivity].
  - destruct (N.ltb_spec c 65536) as [Hlt|Hge].
    + change (fold_left Json.step (92 :: 117 :: Json.hex4 c) (Json.InString acc, stk))%N
        with (fold_left Json.step (Json.hex4 c) (Json.InHex acc None [], stk)).
      rewrite hex4_steps by assumption.
      unfold Json.finish_unit, Json.fresh_unit, Json.is_high.
      destruct ((55296 <=? c) && (c <=? 56319))%N eqn:Q; [|reflexivity].
      exfalso. N_bool.
      destruct (N.leb_spec 55296 c); destruct (N.leb_spec c 57343); simpl in *;
        try discriminate; lia.
    + N_bool.
      assert (Hoff : exists off, (c = 65536 + off /\ off < 1048576)%N)
        by (exists (c - 65536)%N; lia).
      destruct Hoff as (off & Hcoff & Hn).
      replace (c - 65536)%N with off by lia.
      assert (Hsplit : (off = (off / 1024) mod 1024 * 1024 + off mod 1024)%N).
      { assert (off / 1024 < 1024)%N by (apply N.Div0.div_lt_upper_bound; lia).
        pose proof (N.div_mod off 1024 ltac:(discriminate)).
        rewrite (N.mod_small (off / 1024) 1024) by assumption. lia. }
      assert (Hq : ((off / 1024) mod 1024 < 1024)%N) by (apply N.mod_lt; discriminate).
      assert (Hr : (off mod 1024 < 1024)%N) by (apply N.mod_lt; discriminate).
      remember ((off / 1024) mod 1024)%N as q eqn:Eq.
      remember (off mod 1024)%N as r eqn:Er.
      clear Eq Er.
      change (fold_left Json.step
                (92 :: 117 :: Json.hex4 (55296 + q) ++ 92 :: 117 :: Json.hex4 (56320 + r))
                (Json.InString acc, stk))%N
        with (fold_left Json.step
                (Json.hex4 (55296 + q) ++ 92 :: 117 :: Json.hex4 (56320 + r))
                (Json.InHex acc None [], stk))%N.
      rewrite fold_left_app, hex4_steps by lia.
      unfold Json.finish_unit at 1, Json.fresh_unit, Json.is_high.
      replace ((55296 <=? 55296 + q) && (55296 + q <=? 56319))%N with true
        by (symmetry; apply andb_true_iff; split; apply N.leb_le; lia).
      change (fold_left Json.step (92 :: 117 :: Json.hex4 (56320 + r))
                (Json.AfterHigh acc (55296 + q), stk))%N
        with (fold_left Json.step (Json.hex4 (56320 + r))
                (Json.InHex acc (Some (55296 + q)) [], stk))%N.
      rewrite hex4_steps by lia.
      unfold Json.finish_unit, Json.is_low.
      replace ((56320 <=? 56320 + r) && (56320 + r <=? 57343))%N with true
        by (symmetry; apply andb_true_iff; split; apply N.leb_le; lia).
      assert (E : (65536 + (55296 + q - 55296) * 1024 + (56320 + r - 56320))%N = c) by lia.
      rewrite E. reflexivity.
Qed.

Lemma escaped_read (s : str) : forall (acc rest : str) (stk : list Json.frame),
  forallb UTF8.is_scalar s = true ->
  fold_left Json.step (flat_map Json.escape_char s ++ rest) (Json.InString acc, stk)
  = fold_left Json.step rest (Json.InString (acc ++ s), stk).
Proof.
  induction s as [|c s IH]; intros acc rest stk Hs; simpl in *.
  - now rewrite app_nil_r.
  - apply andb_true_iff in Hs. destruct Hs as [Hc Hs].
    rewrite <- app_assoc, fold_left_app, escape_char_read by assumption.
    rewrite IH by assumption. now rewrite <- app_assoc.
Qed.

Lemma request_text_shape (filename : str) :
  request_text filename
  = pyq "{'request': 'download', 'filename': '"
    ++ (flat_map Json.escape_char filename ++ pyq "'}").
Proof.
  unfold request_text. simpl. unfold Json.encode_string.
  rewrite <- app_assoc. reflexivity.
Qed.

(** [json.loads] reads the client's request back as the dictionary it
    was written from. *)
Lemma loads_request_text (filename : str) :
  forallb UTF8.is_scalar filename = true ->
  Json.loads (request_text filename)
  = Some (Json.Obj [(py "request", Json.Str (py "download"));
                    (py "filename", Json.Str filename)]).
Proof.
  intros Hs. rewrite request_text_shape.
  unfold Json.loads.
  change (pyq "{'request': 'download', 'filename': '"
          ++ (flat_map Json.escape_char filename ++ pyq "'}"))
    with (123%N :: (skipn 1 (pyq "{'request': 'download', 'filename': '")
                    ++ (flat_map Json.escape_char filename ++ pyq "'}"))) at 1.
  cbv iota beta. change (123 =? 65279)%N with false. cbv iota.
  rewrite fold_left_app.
  change (fold_left Json.step (pyq "{'request': 'download', 'filename': '")
            (Json.Between Json.EValue, []))
    with (Json.InString [],
          [Json.FObj [(py "request", Json.Str (py "download"))] (Some (py "filename"))]).
  rewrite escaped_read by assumption.
  reflexivity.
Qed.

Lemma to_N_byte_of_code (c : N) : (c < 256)%N -> Byte.to_N (byte_of_code c) = c.
Proof.
  intros Hc. unfold byte_of_code.
  destruct (Byte.of_N c) as [b|] eqn:E.
  - now apply Byte.to_of_N.
  - apply Byte.of_N_None_iff in E. lia.
Qed.

Lemma encode_ascii (s : str) :
  forallb is_ascii s = true -> UTF8.encode s = Some (map byte_of_code s).
Proof.
  induction s as [|c s IH]; intros H; [reflexivity|].
  simpl in H. apply andb_true_iff in H. destruct H as [Hc Hs].
  simpl. rewrite (IH Hs). unfold UTF8.encode1. unfold is_ascii in Hc. now rewrite Hc.
Qed.

Lemma decode_ascii (s : str) :
  forallb is_ascii s = true -> UTF8.decode (map byte_of_code s) = Some s.
Proof.
  induction s as [|c s IH]; intros H; [reflexivity|].
  simpl in H. apply andb_true_iff in H. destruct H as [Hc Hs].
  unfold is_ascii in Hc. pose proof Hc as Hlt. apply N.ltb_lt in Hlt.
  cbn [map UTF8.decode]. rewrite to_N_byte_of_code by lia.
  rewrite Hc, (IH Hs). reflexivity.
Qed.

Lemma hex4_ascii (n : N) : forallb is_ascii (Json.hex4 n) = true.
Proof.
  unfold Json.hex4, is_ascii. cbn [forallb].
  rewrite !andb_true_iff.
  repeat split; try apply N.ltb_lt; try apply hex_digit_ascii;
    try apply nibble; try (apply N.mod_lt; discriminate).
Qed.

Lemma escape_char_ascii (c : N) : forallb is_ascii (Json.escape_char c) = true.
Proof.
  unfold Json.escape_char.
  repeat match goal with
         | |- context [if (c =? ?k)%N then _ else _] =>
             destruct (c =? k)%N; [reflexivity|]
         end.
  destruct ((32 <=? c) && (c <=? 126))%N eqn:P.
  - N_bool. simpl. unfold is_ascii. replace (c <? 128)%N with true; [reflexivity|].
    symmetry. apply N.ltb_lt. lia.
  - destruct (c <? 65536)%N.
    + cbn [forallb]. now rewrite hex4_ascii.
    + cbn [forallb]. rewrite forallb_app. cbn [forallb]. now rewrite !hex4_ascii.
Qed.

Lemma request_text_ascii (filename : str) :
  forallb is_ascii (request_text filename) = true.
Proof.
  rewrite request_text_shape, !forallb_app.
  replace (forallb is_ascii (flat_map Json.escape_char filename)) with true.
  - reflexivity.
  - symmetry. induction filename as [|c s IH]; [reflexivity|].
    simpl. now rewrite forallb_app, escape_char_ascii, IH.
Qed.

Lemma request_bytes_eq (filename : str) :
  request_bytes filename = map byte_of_code (request_text filename).
Proof.
  unfold request_bytes. now rewrite encode_ascii by apply request_text_ascii.
Qed.

(** The handler reads the client's request as a request to download the
    file name the client was given. *)
Lemma request_round_trip (filename : str) :
  forallb UTF8.is_scalar filename = true ->
  encode (request_text filename) = Ok (request_bytes filename)
  /\ parse_request (request_bytes filename)
     = Ok (Json.Obj [(py "request", Json.Str (py "download"));
                     (py "filename", Json.Str filename)])
  /\ asks_for (request_bytes filename) filename.
Proof.
  intros Hs.
  assert (P : parse_request (request_bytes filename)
              = Ok (Json.Obj [(py "request", Json.Str (py "download"));
                              (py "filename", Json.Str filename)])).
  { unfold parse_request, decode, json_loads.
    rewrite request_bytes_eq, decode_ascii by apply request_text_ascii.
    now rewrite loads_request_text. }
  split; [|split].
  - unfold encode. rewrite request_bytes_eq.
    now rewrite encode_ascii by apply request_text_ascii.
  - exact P.
  - eexists; eexists. split; [exact P|]. repeat split; reflexivity.
Qed.

(** ** Files *)

Lemma location_eqb_eq (a b : Posix.location) : Posix.location_eqb a b = true <-> a = b.
Proof.
  unfold Posix.location_eqb.
  destruct (list_eq_dec (list_eq_dec N.eq_dec) a b); split; congruence.
Qed.

Lemma location_eqb_refl (a : Posix.location) : Posix.location_eqb a a = true.
Proof. now apply location_eqb_eq. Qed.

Lemma location_eqb_neq (a b : Posix.location) : a <> b -> Posix.location_eqb a b = false.
Proof.
  intros H. destruct (Posix.location_eqb a b) eqn:E; [|reflexivity].
  apply location_eqb_eq in E. contradiction.
Qed.

(** A path resolves alike in two trees with the same directories along
    it. *)
Lemma walk_agree (tr tr' : Posix.location -> option Posix.node) (comps : list str) :
  (forall l, tr l = Some Posix.Dir -> tr' l = Some Posix.Dir) ->
  forall start loc,
    Posix.walk tr start comps = Ok loc -> Posix.walk tr' start comps = Ok loc.
Proof.
  intros Hdir. induction comps as [|c comps IH]; intros start loc H; simpl in *; [exact H|].
  destruct (tr start) as [[| |]|] eqn:E; try discriminate.
  rewrite (Hdir _ E). now apply IH.
Qed.

Lemma locate_agree (disk disk' : Posix.t) (path : str) (loc : Posix.location) :
  Posix.cwd disk' = Posix.cwd disk ->
  (forall l, Posix.tree disk l = Some Posix.Dir -> Posix.tree disk' l = Some Posix.Dir) ->
  Posix.locate disk path = Ok loc -> Posix.locate disk' path = Ok loc.
Proof.
  unfold Posix.locate. intros Hcwd Hdir H.
  destruct (existsb Posix.bad_path_char path); [discriminate|].
  destruct path as [|c path]; [discriminate|].
  rewrite Hcwd. eapply walk_agree; eauto.
Qed.

Lemma writes_spec (loc : Posix.location) (chunks : list bytes) : forall disk,
  Posix.cwd (writes loc chunks disk) = Posix.cwd disk
  /\ (forall l, l <> loc -> Posix.tree (writes loc chunks disk) l = Posix.tree disk l)
  /\ Posix.tree (writes loc chunks disk) loc
     = match Posix.tree disk loc with
       | Some (Posix.File content) => Some (Posix.File (content ++ concat chunks))
       | other => other
       end.
Proof.
  induction chunks as [|c chunks IH]; intros disk.
  - simpl. repeat split. destruct (Posix.tree disk loc) as [[| |]|]; auto.
    now rewrite app_nil_r.
  - simpl. destruct (IH (Posix.write loc c disk)) as (A & B & C).
    unfold writes in *. rewrite A, C. clear A C.
    unfold Posix.write in *.
    destruct (Posix.tree disk loc) as [[content| |supply]|] eqn:E; simpl.
    + rewrite location_eqb_refl. rewrite <- app_assoc. repeat split.
      intros l Hl. rewrite B by assumption. simpl. now rewrite location_eqb_neq.
    + rewrite E. repeat split. assumption.
    + rewrite E. repeat split. assumption.
    + rewrite E. repeat split. assumption.
Qed.

Lemma write_chunks_run (received : list event) (loc : Posix.location) : forall s,
  write_chunks loc received s
  = (match failure received with None => Ok tt | Some e => Raise e end,
     mkState (writes loc (written_chunks received) (fs s)) (sock s) (shown s)).
Proof.
  induction received as [|[chunk|e] rest IH]; intros [d k sh]; simpl.
  - reflexivity.
  - unfold bind, write. simpl. rewrite IH. reflexivity.
  - reflexivity.
Qed.

(** What a successful [open(path, 'wb')] found and left. *)
Lemma open_wb_ok (disk disk1 : Posix.t) (path : str) (loc : Posix.location) :
  Posix.open_wb disk path = Ok (loc, disk1) ->
  Posix.locate disk path = Ok loc
  /\ Posix.tree disk loc <> Some Posix.Dir
  /\ Posix.cwd disk1 = Posix.cwd disk
  /\ (forall l, l <> loc -> Posix.tree disk1 l = Posix.tree disk l)
  /\ match Posix.tree disk loc with
     | Some (Posix.Special supply) => disk1 = disk
     | _ => Posix.tree disk1 loc = Some (Posix.File [])
     end.
Proof.
  unfold Posix.open_wb. intros H.
  destruct (Posix.locate disk path) as [loc'|e]; [|discriminate].
  destruct (Posix.tree disk loc') as [[content| |supply]|] eqn:E; try discriminate.
  - destruct loc' as [|x loc']; [discriminate|]. inversion H; subst. rewrite E.
    repeat split; try discriminate.
    + intros l Hl. simpl. now rewrite location_eqb_neq.
    + simpl. now rewrite location_eqb_refl.
  - inversion H; subst. rewrite E. repeat split; discriminate.
  - destruct loc' as [|x loc']; [discriminate|]. inversion H; subst. rewrite E.
    repeat split; try discriminate.
    + intros l Hl. simpl. now rewrite location_eqb_neq.
    + simpl. now rewrite location_eqb_refl.
Qed.


(** ** The fetch client *)

Lemma encode_request (filename : str) :
  encode (request_text filename) = Ok (request_bytes filename).
Proof.
  unfold encode. rewrite request_bytes_eq.
  now rewrite encode_ascii by apply request_text_ascii.
Qed.

(** [os.path.join] with one of the two directories of the program. *)
Lemma join_dir (dir fn : str) :
  dir <> [] -> (last dir 0 =? 47)%N = false ->
  Posix.join dir fn
  = match fn with
    | c :: _ => if (c =? 47)%N then fn else dir ++ 47%N :: fn
    | [] => dir ++ [47%N]
    end.
Proof.
  intros Hne Hlast. unfold Posix.join.
  destruct dir as [|d dir]; [congruence|]. rewrite Hlast.
  destruct fn as [|c fn]; [reflexivity|].
  destruct (c =? 47)%N; reflexivity.
Qed.

Lemma join_uploads_acceptable (fn : str) :
  existsb Posix.bad_path_char (Posix.join downloadsDir fn) = false ->
  existsb Posix.bad_path_char (Posix.join uploadsDir fn) = false.
Proof.
  rewrite !join_dir by (discriminate || reflexivity).
  destruct fn as [|c fn]; [reflexivity|].
  destruct (c =? 47)%N; [auto|].
  rewrite !existsb_app. intros H. apply orb_false_iff in H. destruct H as [_ H].
  rewrite H. reflexivity.
Qed.

Lemma locate_acceptable (disk : Posix.t) (path : str) (loc : Posix.location) :
  Posix.locate disk path = Ok loc -> existsb Posix.bad_path_char path = false.
Proof.
  unfold Posix.locate. destruct (existsb Posix.bad_path_char path); [discriminate|auto].
Qed.

(** [calculateFileHash] returns on a path the system accepts. *)
Lemma calculateFileHash_returns (disk : Posix.t) (path : str) :
  existsb Posix.bad_path_char path = false ->
  exists h, calculateFileHash disk path = Ok h.
Proof.
  intros Hp. unfold calculateFileHash.
  destruct (Posix.open_rb disk path) as [f|e] eqn:E; [eauto|].
  rewrite (open_rb_raises_OSError disk path Hp E). eauto.
Qed.

(** The write target once the file is open and some chunks are written. *)
Lemma target_after_writes (disk d1 : Posix.t) (path : str) (loc : Posix.location)
      (chunks : list bytes) :
  Posix.open_wb disk path = Ok (loc, d1) ->
  Posix.cwd (writes loc chunks d1) = Posix.cwd disk
  /\ (forall l, l <> loc -> Posix.tree (writes loc chunks d1) l = Posix.tree disk l)
  /\ (forall l, Posix.tree disk l = Some Posix.Dir ->
                Posix.tree (writes loc chunks d1) l = Some Posix.Dir)
  /\ Posix.locate (writes loc chunks d1) path = Ok loc
  /\ match Posix.tree disk loc with
     | Some (Posix.Special supply) =>
         Posix.tree (writes loc chunks d1) loc = Some (Posix.Special supply)
     | _ => Posix.tree (writes loc chunks d1) loc = Some (Posix.File (concat chunks))
     end.
Proof.
  intros Hopen. destruct (@open_wb_ok _ _ _ _ Hopen) as (L & ND & CW & OT & AT).
  destruct (writes_spec loc chunks d1) as (A & B & C).
  assert (Hother : forall l, l <> loc ->
                     Posix.tree (writes loc chunks d1) l = Posix.tree disk l).
  { intros l Hl. rewrite B, OT by assumption. reflexivity. }
  assert (Hdir : forall l, Posix.tree disk l = Some Posix.Dir ->
                   Posix.tree (writes loc chunks d1) l = Some Posix.Dir).
  { intros l Hl. rewrite Hother; [assumption|]. intros ->. contradiction. }
  split; [rewrite A; exact CW|].
  split; [exact Hother|].
  split; [exact Hdir|].
  split; [eapply locate_agree; [rewrite A; exact CW | exact Hdir | exact L]|].
  rewrite C. destruct (Posix.tree disk loc) as [[content| |supply]|] eqn:E.
  - now rewrite AT.
  - congruence.
  - subst d1. now rewrite E.
  - now rewrite AT.
Qed.

Lemma remove_target (disk d1 : Posix.t) (path : str) (loc : Posix.location)
      (chunks : list bytes) :
  Posix.open_wb disk path = Ok (loc, d1) ->
  Posix.remove (writes loc chunks d1) path
  = Ok (Posix.set_node loc None (writes loc chunks d1)).
Proof.
  intros Hopen.
  destruct (@target_after_writes _ _ _ _ chunks Hopen) as (_ & _ & _ & L & T).
  unfold Posix.remove, Posix.stat. rewrite L.
  destruct (Posix.tree disk loc) as [[content| |supply]|]; rewrite T; reflexivity.
Qed.

Lemma receive_and_verify_ends (filename : str) (s : state) :
  ending filename s (fst (receive_and_verify filename s))
                    (snd (receive_and_verify filename s)).
Proof.
  destruct (receive_and_verify filename s) as [r s'] eqn:E. simpl.
  destruct s as [disk k sh].
  unfold receive_and_verify, bind, open_wb, receive_into in E. simpl in E.
  destruct (Posix.open_wb disk (Posix.join downloadsDir filename)) as [[loc d1]|e] eqn:Hopen.
  - rewrite write_chunks_run in E. simpl in E.
    set (rs := recv_results chunkSize (inbox k)) in *.
    destruct (failure rs) as [e|] eqn:Hf.
    + inversion E; subst. eapply Broken; eauto.
    + set (d2 := writes loc (written_chunks rs) d1) in *.
      pose proof (proj1 (@open_wb_ok _ _ _ _ Hopen)) as L.
      pose proof (@locate_acceptable _ _ _ L) as Acc.
      destruct (@calculateFileHash_returns d2 _ Acc) as [dh Hd].
      destruct (@calculateFileHash_returns d2 _ (@join_uploads_acceptable filename Acc))
        as [oh Ho].
      rewrite Hd, Ho in E.
      destruct (same_hash dh oh) eqn:Hs.
      * inversion E; subst. eapply Kept; eauto.
      * unfold show, os_remove in E. simpl in E. unfold d2 in E.
        rewrite (@remove_target _ _ _ _ _ Hopen) in E.
        inversion E; subst. eapply Removed; eauto.
  - inversion E; subst. now apply NotOpened.
Qed.

(** The transfer fails before anything is received, or it has sent the one
    request and goes on to receive and verify. *)
Lemma transfer_cases (host : str) (port : Z) (filename : str) (s : state) :
  (exists e, transfer host port filename s = (Raise e, s))
  \/ (exists s1,
        fs s1 = fs s /\ shown s1 = shown s
        /\ inbox (sock s1) = inbox (sock s)
        /\ closes (sock s1) = closes (sock s)
        /\ outbox (sock s1) = outbox (sock s) ++ [request_bytes filename]
        /\ transfer host port filename s = receive_and_verify filename s1).
Proof.
  unfold transfer, bind, connect, lift. rewrite encode_request.
  destruct (negb ((-2147483648 <=? port)%Z && (port <=? 2147483647)%Z)); [left; eauto|].
  destruct (negb (resolves (sock s) host)); [left; eauto|].
  destruct ((0 <=? port)%Z && (port <=? 65535)%Z); [|left; eauto].
  destruct (refuses (sock s)) as [e|]; [left; eauto|].
  unfold sendall.
  destruct (Nat.ltb 0 (closes (sock s))); [left; eauto|].
  destruct (breaks_after (sock s)) as [[|n]|]; [left; eauto| |]; right;
    match goal with |- context [receive_and_verify filename ?st] => exists st end;
    repeat split; reflexivity.
Qed.

Lemma downloadFileUi_cases (peer filename : str) (s : state) :
  (exists e, parse_peer peer = Raise e
             /\ downloadFileUi peer filename s
                = (Ok tt, mkState (fs s) (sock s) (shown s ++ [ClientError e])))
  \/ (exists address, parse_peer peer = Ok address
        /\ downloadFileUi peer filename s
           = conclude (fst (transfer (fst address) (snd address) filename s))
                      (snd (transfer (fst address) (snd address) filename s))).
Proof.
  unfold downloadFileUi, try_except, try_finally, bind, lift, conclude.
  destruct (parse_peer peer) as [address|e].
  - right. exists address. split; [reflexivity|].
    destruct (transfer (fst address) (snd address) filename s) as [[[]|e] s2]; simpl.
    + now rewrite app_nil_r.
    + reflexivity.
  - left. exists e. split; reflexivity.
Qed.


(** ** A download from a running handler *)

Lemma str_eqb_refl (a : str) : str_eqb a a = true.
Proof. unfold str_eqb. destruct (list_eq_dec N.eq_dec a a); congruence. Qed.

Lemma failure_data (chunks : list bytes) (rest : list event) :
  failure (map Data chunks ++ rest) = failure rest.
Proof. induction chunks; simpl; auto. Qed.

Lemma written_chunks_data (chunks : list bytes) (rest : list event) :
  written_chunks (map Data chunks ++ rest) = chunks ++ written_chunks rest.
Proof. induction chunks; simpl; congruence. Qed.

(** When only data arrives, nothing fails and all of it is written. *)
Lemma recv_results_data (n : nat) (segments : list bytes) :
  failure (recv_results n (map Data segments)) = None
  /\ written_chunks (recv_results n (map Data segments))
     = flat_map (Posix.chunks n) segments.
Proof.
  induction segments as [|x xs (A & B)]; simpl; [auto|].
  rewrite failure_data, written_chunks_data, A, B. auto.
Qed.

(** One [recv(1024)] takes a whole request of at most 1024 bytes. *)
Lemma recv_whole (payload : bytes) :
  payload <> [] -> length payload <= 1024 ->
  recv_from 1024 [Data payload] = (Ok payload, []).
Proof.
  intros Hne Hlen. destruct payload as [|b payload]; [congruence|].
  cbn [recv_from]. rewrite firstn_all2 by exact Hlen.
  apply Nat.leb_le in Hlen. now rewrite Hlen.
Qed.

Lemma request_bytes_not_empty (filename : str) : request_bytes filename <> [].
Proof. rewrite request_bytes_eq, request_text_shape. discriminate. Qed.

(** The handler sends the served file in chunks. *)
Lemma handler_serves_file (disk : Posix.t) (filename : str) (loc : Posix.location)
      (content : bytes) :
  forallb UTF8.is_scalar filename = true ->
  length (request_bytes filename) <= 1024 ->
  Posix.stat disk (Posix.join uploadsDir filename) = Ok (loc, Posix.File content) ->
  sent (handleClient (serving disk (request_bytes filename)))
  = Posix.chunks chunkSize content.
Proof.
  intros Hs Hlen Hstat.
  pose proof (@handler_streams (serving disk (request_bytes filename))
                (request_bytes filename) [] filename eq_refl
                (recv_whole (@request_bytes_not_empty filename) Hlen)
                (proj2 (proj2 (request_round_trip filename Hs)))) as H.
  simpl fs in H. rewrite Hstat in H. destruct (H eq_refl) as [H1 _]. exact H1.
Qed.

Lemma transfer_connected (host : str) (port : Z) (filename : str) (s : state) :
  (0 <= port <= 65535)%Z -> resolves (sock s) host = true ->
  refuses (sock s) = None -> closes (sock s) = 0 -> breaks_after (sock s) = None ->
  transfer host port filename s
  = receive_and_verify filename
      (with_sock (fun k => mkSocket (inbox k) (resolves k) (refuses k) None
                             (outbox k ++ [request_bytes filename]) (closes k)) s).
Proof.
  intros Hp Hres Hr Hc Hb. unfold transfer, bind, connect, lift, sendall.
  rewrite encode_request.
  replace ((-2147483648 <=? port)%Z && (port <=? 2147483647)%Z) with true
    by (symmetry; apply andb_true_iff; split; apply Z.leb_le; lia).
  replace ((0 <=? port)%Z && (port <=? 65535)%Z) with true
    by (symmetry; apply andb_true_iff; split; apply Z.leb_le; lia).
  rewrite Hres. cbn [negb]. rewrite Hr. cbv beta iota. rewrite Hc, Hb. reflexivity.
Qed.

Lemma stat_inv (disk : Posix.t) (path : str) (loc : Posix.location) (n : Posix.node) :
  Posix.stat disk path = Ok (loc, n) <->
  Posix.locate disk path = Ok loc /\ Posix.tree disk loc = Some n.
Proof.
  unfold Posix.stat. destruct (Posix.locate disk path) as [loc'|e].
  - destruct (Posix.tree disk loc') as [n'|] eqn:E; split.
    + intros H. inversion H; subst. auto.
    + intros [H1 H2]. inversion H1; subst. congruence.
    + discriminate.
    + intros [H1 H2]. inversion H1; subst. congruence.
  - split; [discriminate | intros [H _]; discriminate].
Qed.

Lemma open_rb_file (disk : Posix.t) (path : str) (loc : Posix.location) (content : bytes) :
  Posix.locate disk path = Ok loc -> Posix.tree disk loc = Some (Posix.File content) ->
  Posix.open_rb disk path = Ok content.
Proof.
  intros L T. unfold Posix.open_rb.
  now rewrite (proj2 (stat_inv disk path loc (Posix.File content)) (conj L T)).
Qed.

(** The client on a node that holds the file among its served files, fed
    with the bytes of that file in any segmentation. *)
Lemma client_verifies (disk : Posix.t) (peer host filename : str) (port : Z)
      (segments : list bytes) (content : bytes) (uloc dloc : Posix.location) :
  parse_peer peer = Ok (host, port) -> (0 <= port <= 65535)%Z ->
  Posix.stat disk (Posix.join uploadsDir filename) = Ok (uloc, Posix.File content) ->
  Posix.open_wb disk (Posix.join downloadsDir filename)
  = Ok (dloc, Posix.set_node dloc (Some (Posix.File [])) disk) ->
  dloc <> uloc ->
  concat segments = content ->
  fst (downloadFileUi peer filename (fetching disk segments)) = Ok tt
  /\ shown (snd (downloadFileUi peer filename (fetching disk segments)))
     = [Verified filename]
  /\ Posix.stat (fs (snd (downloadFileUi peer filename (fetching disk segments))))
       (Posix.join downloadsDir filename) = Ok (dloc, Posix.File content)
  /\ Posix.stat (fs (snd (downloadFileUi peer filename (fetching disk segments))))
       (Posix.join uploadsDir filename) = Ok (uloc, Posix.File content)
  /\ outbox (sock (snd (downloadFileUi peer filename (fetching disk segments))))
     = [request_bytes filename]
  /\ closes (sock (snd (downloadFileUi peer filename (fetching disk segments)))) = 1.
Proof.
  intros Hpeer Hport Href Hopen Hne Hcat.
  destruct (downloadFileUi_cases peer filename (fetching disk segments))
    as [(e & P & _)|(address & P & E)]; [congruence|].
  rewrite Hpeer in P. inversion P; subst address. clear P. rewrite E. clear E.
  cbn [fst snd]. rewrite transfer_connected by (assumption || reflexivity).
  match goal with |- context [receive_and_verify filename ?st] => set (s1 := st) end.
  pose proof (receive_and_verify_ends filename s1) as Hend.
  destruct (receive_and_verify filename s1) as [r s2]. cbn [fst snd] in *.
  destruct (recv_results_data chunkSize segments) as (Hfail & Hwr).
  assert (Hrec : received s1 = recv_results chunkSize (map Data segments)) by reflexivity.
  apply stat_inv in Href. destruct Href as (UL & UT).
  destruct (@open_wb_ok _ _ _ _ Hopen) as (DL & _ & _ & _ & AT).
  assert (Hnotspecial : forall supply, Posix.tree disk dloc <> Some (Posix.Special supply)).
  { intros supply Hsp. rewrite Hsp in AT.
    apply (f_equal (fun d => Posix.tree d dloc)) in AT. simpl in AT.
    rewrite location_eqb_refl in AT. congruence. }
  set (d2 := writes dloc (flat_map (Posix.chunks chunkSize) segments)
               (Posix.set_node dloc (Some (Posix.File [])) disk)).
  destruct (@target_after_writes _ _ _ _ (flat_map (Posix.chunks chunkSize) segments) Hopen)
    as (CW & OT & DT & L2 & T2). fold d2 in CW, OT, DT, L2, T2.
  assert (T2' : Posix.tree d2 dloc = Some (Posix.File content)).
  { destruct (Posix.tree disk dloc) as [[| |supply]|] eqn:E; rewrite T2;
      rewrite ?concat_flat_map_chunks by apply chunkSize_pos; try congruence;
      exfalso; now apply (Hnotspecial supply). }
  assert (Hdh : calculateFileHash d2 (Posix.join downloadsDir filename)
                = Ok (Some (SHA256.sha256 content))).
  { apply calculateFileHash_content. eapply open_rb_file; eauto. }
  assert (UL2 : Posix.locate d2 (Posix.join uploadsDir filename) = Ok uloc)
    by (eapply locate_agree; [exact CW | exact DT | exact UL]).
  assert (UT2 : Posix.tree d2 uloc = Some (Posix.File content))
    by (rewrite OT by congruence; exact UT).
  assert (Hoh : calculateFileHash d2 (Posix.join uploadsDir filename)
                = Ok (Some (SHA256.sha256 content)))
    by (apply calculateFileHash_content; eapply open_rb_file; eauto).
  inversion Hend as [e Ho|loc d1 e Ho Hf|loc d1 dh oh Ho Hf Hd Hoo Hs
                    |loc d1 dh oh Ho Hf Hd Hoo Hs]; subst;
    simpl fs in Ho; rewrite Hopen in Ho; inversion Ho; subst; clear Ho.
  - rewrite Hrec, Hfail in Hf. discriminate.
  - unfold conclude. cbn [fst snd fs sock shown closed_socket outbox closes].
    rewrite Hrec, Hwr. fold d2.
    repeat split; apply stat_inv; auto.
  - exfalso. rewrite Hrec, Hwr in Hd, Hoo. fold d2 in Hd, Hoo.
    rewrite Hdh in Hd. rewrite Hoh in Hoo. inversion Hd; inversion Hoo; subst.
    simpl in Hs. rewrite str_eqb_refl in Hs. discriminate.
Qed.

(** The three sizes the specification names: zero bytes, exactly one chunk,
    one byte more than a chunk. *)
Lemma round_trip_of_size (n : nat) :
  n = 0 \/ n = chunkSize \/ n = S chunkSize ->
  let content := repeat x41 n in
  let disk := disk_serving (py "f.bin") content in
  let stream := sent (handleClient (serving disk (request_bytes (py "f.bin")))) in
  length stream = (n + chunkSize - 1) / chunkSize
  /\ concat stream = content
  /\ shown (snd (downloadFileUi (py "10.0.0.2:5000") (py "f.bin") (fetching disk stream)))
     = [Verified (py "f.bin")]
  /\ Posix.stat
       (fs (snd (downloadFileUi (py "10.0.0.2:5000") (py "f.bin") (fetching disk stream))))
       (py "Downloads/f.bin")
     = Ok (home ++ [py "Downloads"; py "f.bin"], Posix.File content).
Proof.
  intros Hn content disk stream.
  assert (H1 : forallb UTF8.is_scalar (py "f.bin") = true) by (vm_compute; reflexivity).
  assert (H2 : length (request_bytes (py "f.bin")) <= 1024)
    by (apply Nat.leb_le; vm_compute; reflexivity).
  assert (H3 : Posix.stat disk (Posix.join uploadsDir (py "f.bin"))
               = Ok (home ++ [py "Uploads"; py "f.bin"], Posix.File content))
    by reflexivity.
  assert (H5 : Posix.open_wb disk (Posix.join downloadsDir (py "f.bin"))
               = Ok (home ++ [py "Downloads"; py "f.bin"],
                     Posix.set_node (home ++ [py "Downloads"; py "f.bin"])
                       (Some (Posix.File [])) disk))
    by reflexivity.
  assert (H6 : home ++ [py "Downloads"; py "f.bin"] <> home ++ [py "Uploads"; py "f.bin"])
    by discriminate.
  assert (H7 : parse_peer (py "10.0.0.2:5000") = Ok (py "10.0.0.2", 5000%Z))
    by (vm_compute; reflexivity).
  assert (H8 : (0 <= 5000 <= 65535)%Z) by lia.
  assert (Hsent : stream = Posix.chunks chunkSize content)
    by (exact (@handler_serves_file disk _ _ content H1 H2 H3)).
  assert (Hcat : concat stream = content)
    by (rewrite Hsent; apply concat_chunks; apply chunkSize_pos).
  destruct (@client_verifies disk (py "10.0.0.2:5000") (py "10.0.0.2") (py "f.bin")
              5000%Z stream content
              (home ++ [py "Uploads"; py "f.bin"]) (home ++ [py "Downloads"; py "f.bin"])
              H7 H8 H3 H5 H6 Hcat) as (_ & S & D & _).
  split; [|auto].
  rewrite Hsent.
  unfold content. destruct Hn as [->|[->| ->]]; vm_compute; reflexivity.
Qed.

(** ** The request on the wire *)

(** The client sends nothing but its one request. *)
Lemma client_sends_once (peer filename : str) (s : state) :
  outbox (sock (snd (downloadFileUi peer filename s))) = outbox (sock s)
  \/ outbox (sock (snd (downloadFileUi peer filename s)))
     = outbox (sock s) ++ [request_bytes filename].
Proof.
  destruct (downloadFileUi_cases peer filename s) as [(e & _ & E)|(address & _ & E)];
    rewrite E; clear E; [left; reflexivity|].
  unfold conclude. cbn [snd sock closed_socket outbox].
  destruct (transfer_cases (fst address) (snd address) filename s)
    as [(e & E)|(s1 & _ & _ & _ & _ & O1 & E)]; rewrite E; clear E; [left; reflexivity|].
  right. rewrite <- O1.
  pose proof (receive_and_verify_ends filename s1) as Hend.
  destruct (receive_and_verify filename s1) as [r s2]. cbn [fst snd] in *.
  inversion Hend; subst; reflexivity.
Qed.

(** C3, as the specification words it, fails: the client's message has the
    fields [request] and [filename] and no field [operation], and to a
    message with a field [operation] the handler sends nothing. *)
Lemma C3_counterexample :
  request_text (py "hello.txt") = pyq "{'request': 'download', 'filename': 'hello.txt'}"
  /\ parse_request (request_bytes (py "hello.txt"))
     = Ok (Json.Obj [(py "request", Json.Str (py "download"));
                     (py "filename", Json.Str (py "hello.txt"))])
  /\ subscript (Json.Obj [(py "request", Json.Str (py "download"));
                          (py "filename", Json.Str (py "hello.txt"))]) (py "operation")
     = Raise (KeyError (py "operation"))
  /\ parse_request operation_payload
     = Ok (Json.Obj [(py "operation", Json.Str (py "download"));
                     (py "filename", Json.Str (py "hello.txt"))])
  /\ sent (handleClient (serving sample_disk operation_payload)) = []
  /\ shown (snd (handleClient (serving sample_disk operation_payload)))
     = [HandlerError (KeyError (py "request"))]
  /\ sent (handleClient (serving sample_disk (request_bytes (py "hello.txt"))))
     = [bytes_of_string "hello"].
Proof. repeat split; vm_compute; reflexivity. Qed.

(** C3 (amended) — The one request the client sends on a connection is the
    text of an object with an entry [request], whose value is the str
    "download", and an entry [filename], whose value is the file name; it is
    plain ASCII, and the handler reads it back as that object and serves
    the file name in it.  (The entry is called [request], not
    [operation].) *)
Theorem C3_request_names_request_and_filename :
  forall filename : str,
    forallb UTF8.is_scalar filename = true ->
    request_text filename
    = pyq "{'request': 'download', 'filename': '"
      ++ (flat_map Json.escape_char filename ++ pyq "'}")
    /\ encode (request_text filename) = Ok (request_bytes filename)
    /\ parse_request (request_bytes filename)
       = Ok (Json.Obj [(py "request", Json.Str (py "download"));
                       (py "filename", Json.Str filename)])
    /\ asks_for (request_bytes filename) filename
    /\ (forall peer s,
          outbox (sock (snd (downloadFileUi peer filename s))) = outbox (sock s)
          \/ outbox (sock (snd (downloadFileUi peer filename s)))
             = outbox (sock s) ++ [request_bytes filename]).
Proof.
  intros filename Hs.
  destruct (request_round_trip filename Hs) as (A & B & C).
  split; [apply request_text_shape|].
  repeat split; try assumption.
  intros peer s. apply client_sends_once.
Qed.

Lemma C3_witness :
  forallb UTF8.is_scalar (py "hello.txt") = true
  /\ parse_request (request_bytes (py "hello.txt"))
     = Ok (Json.Obj [(py "request", Json.Str (py "download"));
                     (py "filename", Json.Str (py "hello.txt"))]).
Proof.
  assert (H : forallb UTF8.is_scalar (py "hello.txt") = true) by (vm_compute; reflexivity).
  split; [exact H|].
  apply (@C3_request_names_request_and_filename (py "hello.txt") H).
Defined.

(** ** What the handler streams *)

(** C8, as the specification words it, fails: [Uploads/pipe] exists and is
    not a regular file, and the handler streams what reading it gives. *)
Lemma C8_counterexample :
  Posix.exists_ sample_disk (Posix.join uploadsDir (py "pipe")) = true
  /\ Posix.isfile sample_disk (Posix.join uploadsDir (py "pipe")) = false
  /\ Posix.stat sample_disk (Posix.join uploadsDir (py "pipe"))
     = Ok (home ++ [py "Uploads"; py "pipe"], Posix.Special (bytes_of_string "xyz"))
  /\ sent (handleClient (serving sample_disk (request_bytes (py "pipe"))))
     = [bytes_of_string "xyz"].
Proof. repeat split; vm_compute; reflexivity. Qed.

(** C8 (amended) — For a request to download a file name, the handler sends
    bytes only when the path joined to the served directory exists and
    opens for reading: for a path that does not exist it sends no bytes;
    for a directory [open] raises, nothing is sent and the error is logged;
    a regular file is streamed in chunks, and so is a node that is not a
    regular file but opens (a named pipe, a device).  The guard is
    [os.path.exists], not a test for a regular file. *)
Theorem C8_handler_streams_what_opens :
  forall (s : state) (data : bytes) (rest : list event) (filename : str),
    closes (sock s) = 0 ->
    recv_from 1024 (inbox (sock s)) = (Ok data, rest) ->
    asks_for data filename ->
    (concat (sent (handleClient s)) <> concat (outbox (sock s)) ->
       Posix.exists_ (fs s) (Posix.join uploadsDir filename) = true
       /\ forall loc, Posix.stat (fs s) (Posix.join uploadsDir filename)
                      <> Ok (loc, Posix.Dir))
    /\ (forall loc,
          Posix.stat (fs s) (Posix.join uploadsDir filename) = Ok (loc, Posix.Dir) ->
          sent (handleClient s) = outbox (sock s)
          /\ shown (snd (handleClient s)) = shown s ++ [HandlerError (OSError EISDIR)])
    /\ (forall loc content,
          breaks_after (sock s) = None ->
          Posix.stat (fs s) (Posix.join uploadsDir filename)
          = Ok (loc, Posix.File content) ->
          sent (handleClient s) = outbox (sock s) ++ Posix.chunks chunkSize content)
    /\ (forall loc supply,
          breaks_after (sock s) = None ->
          Posix.stat (fs s) (Posix.join uploadsDir filename)
          = Ok (loc, Posix.Special supply) ->
          sent (handleClient s) = outbox (sock s) ++ Posix.chunks chunkSize supply).
Proof.
  intros s data rest filename Hc Hrecv Hask.
  pose proof (handler_streams s Hc Hrecv Hask) as H.
  unfold Posix.exists_.
  destruct (Posix.stat (fs s) (Posix.join uploadsDir filename))
    as [[loc [content| |supply]]|e] eqn:St.
  - split; [intros _; split; [reflexivity | discriminate]|].
    split; [discriminate|].
    split; [intros loc' content' Hb E; inversion E; subst; now apply H|].
    discriminate.
  - destruct H as [H1 H2].
    split; [intros Hne; rewrite H1 in Hne; congruence|].
    split; [auto|]. split; discriminate.
  - split; [intros _; split; [reflexivity | discriminate]|].
    split; [discriminate|].
    split; [discriminate|].
    intros loc' supply' Hb E; inversion E; subst; now apply H.
  - destruct H as [H1 H2].
    split; [intros Hne; congruence|].
    split; [discriminate|]. split; discriminate.
Qed.

Lemma C8_witness :
  recv_from 1024 (inbox (sock (serving sample_disk (request_bytes (py "photos")))))
  = (Ok (request_bytes (py "photos")), [])
  /\ Posix.stat sample_disk (Posix.join uploadsDir (py "photos"))
     = Ok (home ++ [py "Uploads"; py "photos"], Posix.Dir)
  /\ sent (handleClient (serving sample_disk (request_bytes (py "photos")))) = []
  /\ shown (snd (handleClient (serving sample_disk (request_bytes (py "photos")))))
     = [HandlerError (OSError EISDIR)].
Proof.
  assert (H1 : recv_from 1024
                 (inbox (sock (serving sample_disk (request_bytes (py "photos")))))
               = (Ok (request_bytes (py "photos")), []))
    by (vm_compute; reflexivity).
  assert (H2 : asks_for (request_bytes (py "photos")) (py "photos"))
    by (apply request_round_trip; vm_compute; reflexivity).
  assert (H3 : Posix.stat sample_disk (Posix.join uploadsDir (py "photos"))
               = Ok (home ++ [py "Uploads"; py "photos"], Posix.Dir))
    by (vm_compute; reflexivity).
  split; [exact H1|]. split; [exact H3|].
  apply (proj1 (proj2 (@C8_handler_streams_what_opens
                         (serving sample_disk (request_bytes (py "photos")))
                         (request_bytes (py "photos")) [] (py "photos")
                         eq_refl H1 H2))
           (home ++ [py "Uploads"; py "photos"]) H3).
Defined.

(** ** A file that is not served *)

Lemma handler_sends_nothing (disk : Posix.t) (filename : str) :
  forallb UTF8.is_scalar filename = true ->
  length (request_bytes filename) <= 1024 ->
  Posix.exists_ disk (Posix.join uploadsDir filename) = false ->
  concat (sent (handleClient (serving disk (request_bytes filename)))) = [].
Proof.
  intros Hs Hlen Hex.
  pose proof (@handler_streams (serving disk (request_bytes filename))
                (request_bytes filename) [] filename eq_refl
                (recv_whole (@request_bytes_not_empty filename) Hlen)
                (proj2 (proj2 (request_round_trip filename Hs)))) as H.
  simpl fs in H. unfold Posix.exists_ in Hex.
  destruct (Posix.stat disk (Posix.join uploadsDir filename)) as [[loc n]|e];
    [discriminate|]. destruct H as [H _]. exact H.
Qed.

(** The client on a node that does not hold the file among its served
    files: whatever data arrives, the verification fails and the local file
    is removed. *)
Lemma client_rejects (disk d1 : Posix.t) (peer host filename : str) (port : Z)
      (segments : list bytes) (uloc dloc : Posix.location) :
  parse_peer peer = Ok (host, port) -> (0 <= port <= 65535)%Z ->
  Posix.locate disk (Posix.join uploadsDir filename) = Ok uloc ->
  Posix.tree disk uloc = None ->
  Posix.open_wb disk (Posix.join downloadsDir filename) = Ok (dloc, d1) ->
  dloc <> uloc ->
  fst (downloadFileUi peer filename (fetching disk segments)) = Ok tt
  /\ shown (snd (downloadFileUi peer filename (fetching disk segments)))
     = [VerificationFailed]
  /\ Posix.tree (fs (snd (downloadFileUi peer filename (fetching disk segments)))) dloc
     = None
  /\ (forall l, l <> dloc ->
        Posix.tree (fs (snd (downloadFileUi peer filename (fetching disk segments)))) l
        = Posix.tree disk l).
Proof.
  intros Hpeer Hport UL UT Hopen Hne.
  destruct (downloadFileUi_cases peer filename (fetching disk segments))
    as [(e & P & _)|(address & P & E)]; [congruence|].
  rewrite Hpeer in P. inversion P; subst address. clear P. rewrite E. clear E.
  cbn [fst snd]. rewrite transfer_connected by (assumption || reflexivity).
  match goal with |- context [receive_and_verify filename ?st] => set (s1 := st) end.
  pose proof (receive_and_verify_ends filename s1) as Hend.
  destruct (receive_and_verify filename s1) as [r s2]. cbn [fst snd] in *.
  destruct (recv_results_data chunkSize segments) as (Hfail & Hwr).
  assert (Hrec : received s1 = recv_results chunkSize (map Data segments)) by reflexivity.
  set (d2 := writes dloc (flat_map (Posix.chunks chunkSize) segments) d1).
  destruct (@target_after_writes _ _ _ _ (flat_map (Posix.chunks chunkSize) segments) Hopen)
    as (CW & OT & DT & L2 & T2). fold d2 in CW, OT, DT, L2, T2.
  assert (Hdh : exists h, calculateFileHash d2 (Posix.join downloadsDir filename)
                          = Ok (Some h)).
  { unfold calculateFileHash, Posix.open_rb, Posix.stat. rewrite L2.
    destruct (Posix.tree disk dloc) as [[| |supply]|]; rewrite T2; eauto. }
  assert (Hoh : calculateFileHash d2 (Posix.join uploadsDir filename) = Ok None).
  { unfold calculateFileHash, Posix.open_rb, Posix.stat.
    rewrite (@locate_agree disk d2 _ _ CW DT UL), OT, UT by congruence. reflexivity. }
  destruct Hdh as [h Hdh].
  inversion Hend as [e Ho|loc d1' e Ho Hf|loc d1' dh oh Ho Hf Hd Hoo Hs
                    |loc d1' dh oh Ho Hf Hd Hoo Hs]; subst;
    simpl fs in Ho; rewrite Hopen in Ho; inversion Ho; subst; clear Ho.
  - rewrite Hrec, Hfail in Hf. discriminate.
  - exfalso. rewrite Hrec, Hwr in Hd, Hoo. fold d2 in Hd, Hoo.
    rewrite Hdh in Hd. rewrite Hoh in Hoo. inversion Hd; inversion Hoo; subst.
    discriminate.
  - unfold conclude. cbn [fst snd fs sock shown]. rewrite Hrec, Hwr. fold d2.
    split; [reflexivity|]. split; [reflexivity|].
    split; [simpl; now rewrite location_eqb_refl|].
    intros l Hl. simpl. rewrite location_eqb_neq by assumption. now apply OT.
Qed.

(** C2, as the specification words it, fails: [missing.txt] is not among the
    served files, zero bytes arrive, and the message of the client is the
    one of a verification failure; the empty local file is removed. *)
Lemma C2_counterexample :
  Posix.exists_ sample_disk (Posix.join uploadsDir (py "missing.txt")) = false
  /\ concat (sent (handleClient (serving sample_disk (request_bytes (py "missing.txt")))))
     = []
  /\ shown (snd (downloadFileUi (py "127.0.0.1:5000") (py "missing.txt")
                   (fetching sample_disk [])))
     = [VerificationFailed]
  /\ Posix.exists_
       (fs (snd (downloadFileUi (py "127.0.0.1:5000") (py "missing.txt")
                   (fetching sample_disk []))))
       (Posix.join downloadsDir (py "missing.txt")) = false.
Proof. repeat split; vm_compute; reflexivity. Qed.

(** ** Where the client writes *)

Lemma split_on_plain (s : str) :
  existsb (N.eqb 47) s = false -> Posix.split_on 47 s = [s].
Proof.
  induction s as [|c s IH]; intros H; [reflexivity|].
  cbn [existsb] in H. apply orb_false_iff in H. destruct H as [Hc Hs].
  cbn [Posix.split_on]. rewrite N.eqb_sym, Hc, (IH Hs). reflexivity.
Qed.

Lemma split_on_segment (a b : str) :
  existsb (N.eqb 47) a = false ->
  Posix.split_on 47 (a ++ 47%N :: b) = a :: Posix.split_on 47 b.
Proof.
  induction a as [|c a IH]; intros H; [reflexivity|].
  cbn [existsb] in H. apply orb_false_iff in H. destruct H as [Hc Ha].
  cbn [Posix.split_on app]. rewrite N.eqb_sym, Hc, (IH Ha). reflexivity.
Qed.

Lemma entry_name_facts (name : str) :
  is_entry_name name = true ->
  name <> [] /\ existsb (N.eqb 47) name = false
  /\ existsb Posix.bad_path_char name = false
  /\ forallb UTF8.is_scalar name = true
  /\ forall loc, Posix.step_loc loc name = loc ++ [name].
Proof.
  unfold is_entry_name. intros H.
  apply andb_true_iff in H. destruct H as [H Hall].
  apply andb_true_iff in H. destruct H as [H H2].
  apply andb_true_iff in H. destruct H as [H0 H1].
  apply negb_true_iff in H0, H1, H2.
  assert (Hchars : existsb (N.eqb 47) name = false
                   /\ existsb Posix.bad_path_char name = false
                   /\ forallb UTF8.is_scalar name = true).
  { clear H0 H1 H2. induction name as [|c s IH]; [auto|].
    cbn [forallb] in Hall. apply andb_true_iff in Hall. destruct Hall as [Hc Hs].
    apply andb_true_iff in Hc. destruct Hc as [Hc Hsc].
    apply andb_true_iff in Hc. destruct Hc as [H47 H00].
    apply negb_true_iff in H47, H00.
    destruct (IH Hs) as (A & B & C). cbn [existsb forallb].
    rewrite A, B, C, Hsc. unfold Posix.bad_path_char. rewrite H00, Hsc.
    rewrite (N.eqb_sym 47 c), H47. auto. }
  destruct Hchars as (A & B & C).
  split; [intros ->; discriminate|]. repeat split; try assumption.
  intros loc. unfold Posix.step_loc. now rewrite H0, H1, H2.
Qed.

(** A plain name resolves in the downloads directory; behind [../] it
    resolves beside that directory, and behind [/] in the root. *)
Lemma write_targets (disk : Posix.t) (name : str) :
  is_entry_name name = true ->
  Posix.tree disk [] = Some Posix.Dir ->
  Posix.tree disk (Posix.cwd disk) = Some Posix.Dir ->
  Posix.tree disk (downloads_location disk) = Some Posix.Dir ->
  Posix.locate disk (Posix.join downloadsDir name) = Ok (downloads_location disk ++ [name])
  /\ Posix.locate disk (Posix.join downloadsDir (py "../" ++ name))
     = Ok (Posix.cwd disk ++ [name])
  /\ Posix.locate disk (Posix.join downloadsDir (47%N :: name)) = Ok [name].
Proof.
  intros Hname Hroot Hcwd Hdl.
  destruct (entry_name_facts name Hname) as (Hne & H47 & Hbad & _ & Hstep).
  destruct name as [|c name]; [congruence|].
  assert (Hc : (c =? 47)%N = false).
  { cbn [existsb] in H47. apply orb_false_iff in H47. rewrite N.eqb_sym. tauto. }
  unfold downloads_location in *.
  split; [|split].
  - rewrite join_dir by (discriminate || reflexivity). rewrite Hc.
    unfold Posix.locate. rewrite existsb_app. simpl existsb at 1.
    cbn [existsb] in Hbad |- *. rewrite Hbad.
    change (existsb Posix.bad_path_char downloadsDir) with false.
    change (Posix.bad_path_char 47) with false. cbn [orb].
    change (downloadsDir ++ 47%N :: c :: name)
      with (68%N :: (skipn 1 downloadsDir ++ 47%N :: c :: name)) at 1.
    cbv iota beta. change (68 =? 47)%N with false. cbv iota.
    rewrite split_on_segment by reflexivity.
    rewrite split_on_plain by exact H47.
    cbn [Posix.walk]. rewrite Hcwd.
    change (Posix.step_loc (Posix.cwd disk) downloadsDir)
      with (Posix.cwd disk ++ [downloadsDir]).
    rewrite Hdl, Hstep. reflexivity.
  - rewrite join_dir by (discriminate || reflexivity).
    change (py "../" ++ c :: name) with (46%N :: (46%N :: 47%N :: c :: name)).
    cbv iota beta. change (46 =? 47)%N with false. cbv iota.
    unfold Posix.locate. rewrite existsb_app.
    change (existsb Posix.bad_path_char downloadsDir) with false.
    cbn [existsb orb] in Hbad |- *.
    change (Posix.bad_path_char 47) with false.
    change (Posix.bad_path_char 46) with false. cbn [orb]. rewrite Hbad.
    change (downloadsDir ++ 47%N :: 46%N :: 46%N :: 47%N :: c :: name)
      with (68%N :: (skipn 1 downloadsDir ++ 47%N :: ([46%N; 46%N] ++ 47%N :: c :: name))) at 1.
    cbv iota beta. change (68 =? 47)%N with false. cbv iota.
    change (downloadsDir ++ 47%N :: 46%N :: 46%N :: 47%N :: c :: name)
      with (downloadsDir ++ 47%N :: ([46%N; 46%N] ++ 47%N :: c :: name)).
    rewrite split_on_segment by reflexivity.
    rewrite split_on_segment by reflexivity.
    rewrite split_on_plain by exact H47.
    cbn [Posix.walk]. rewrite Hcwd.
    change (Posix.step_loc (Posix.cwd disk) downloadsDir)
      with (Posix.cwd disk ++ [downloadsDir]).
    rewrite Hdl.
    change (Posix.step_loc (Posix.cwd disk ++ [downloadsDir]) [46%N; 46%N])
      with (removelast (Posix.cwd disk ++ [downloadsDir])).
    rewrite removelast_last, Hcwd, Hstep. reflexivity.
  - unfold Posix.join. change (47 =? 47)%N with true. cbv iota.
    unfold Posix.locate. cbn [existsb] in Hbad |- *.
    change (Posix.bad_path_char 47) with false. cbn [orb]. rewrite Hbad.
    change (47 =? 47)%N with true. cbv iota.
    change (47%N :: c :: name) with ([] ++ 47%N :: c :: name).
    rewrite split_on_segment by reflexivity.
    rewrite split_on_plain by exact H47.
    cbn [Posix.walk]. rewrite Hroot.
    change (Posix.step_loc [] []) with (@nil str).
    rewrite Hroot, Hstep. reflexivity.
Qed.

Lemma below_child (dir : Posix.location) (name : str) : below dir (dir ++ [name]) = true.
Proof.
  unfold below. rewrite length_app. cbn [length].
  replace (Nat.ltb (length dir) (length dir + 1)) with true
    by (symmetry; apply Nat.ltb_lt; lia).
  rewrite firstn_app, Nat.sub_diag, firstn_all. cbn [firstn].
  rewrite app_nil_r. apply location_eqb_refl.
Qed.

Lemma below_sibling (parent : Posix.location) (a b : str) :
  below (parent ++ [a]) (parent ++ [b]) = false.
Proof.
  unfold below. rewrite !length_app. cbn [length].
  now rewrite Nat.ltb_irrefl.
Qed.

Lemma below_top (parent : Posix.location) (a b : str) : below (parent ++ [a]) [b] = false.
Proof.
  unfold below. rewrite length_app. cbn [length].
  replace (Nat.ltb (length parent + 1) 1) with false
    by (symmetry; apply Nat.ltb_ge; lia).
  reflexivity.
Qed.

(** The one location [downloadFileUi] changes is the one its joined path
    resolves to. *)
Lemma client_changes_target_only (peer filename : str) (s : state) (l : Posix.location) :
  Posix.tree (fs (snd (downloadFileUi peer filename s))) l <> Posix.tree (fs s) l ->
  Posix.locate (fs s) (Posix.join downloadsDir filename) = Ok l.
Proof.
  destruct (downloadFileUi_cases peer filename s) as [(e & _ & E)|(address & _ & E)];
    rewrite E; clear E.
  { cbn [snd fs]. congruence. }
  unfold conclude. cbn [snd fs].
  destruct (transfer_cases (fst address) (snd address) filename s)
    as [(e & E)|(s1 & F1 & _ & _ & _ & _ & E)]; rewrite E; clear E.
  { cbn [snd]. congruence. }
  pose proof (receive_and_verify_ends filename s1) as Hend.
  destruct (receive_and_verify filename s1) as [r s2]. cbn [fst snd] in *.
  inversion Hend as [e Hopen|loc d1 e Hopen Hf|loc d1 dh oh Hopen Hf Hd Ho Hs
                    |loc d1 dh oh Hopen Hf Hd Ho Hs]; subst; cbn [fs].
  - congruence.
  - rewrite F1 in Hopen. intros Hch.
    destruct (list_eq_dec (list_eq_dec N.eq_dec) l loc) as [->|Hne];
      [apply (@open_wb_ok _ _ _ _ Hopen)|].
    destruct (@target_after_writes _ _ _ _ (written_chunks (received s1)) Hopen)
      as (_ & O & _). now rewrite (O l Hne) in Hch.
  - rewrite F1 in Hopen. intros Hch.
    destruct (list_eq_dec (list_eq_dec N.eq_dec) l loc) as [->|Hne];
      [apply (@open_wb_ok _ _ _ _ Hopen)|].
    destruct (@target_after_writes _ _ _ _ (written_chunks (received s1)) Hopen)
      as (_ & O & _). now rewrite (O l Hne) in Hch.
  - rewrite F1 in Hopen. intros Hch.
    destruct (list_eq_dec (list_eq_dec N.eq_dec) l loc) as [->|Hne];
      [apply (@open_wb_ok _ _ _ _ Hopen)|].
    destruct (@target_after_writes _ _ _ _ (written_chunks (received s1)) Hopen)
      as (_ & O & _).
    cbn [Posix.set_node Posix.tree] in Hch.
    rewrite (location_eqb_neq Hne), (O l Hne) in Hch. congruence.
Qed.

(** C9, as the specification words it, fails: the file name [sub/x] has a
    path separator and [sub/../x] has a parent reference as well, and with
    a directory [sub] among the downloads both write targets are below the
    downloads directory. *)
Lemma C9_counterexample :
  has_separator (py "sub/x") = true
  /\ Posix.locate sample_disk (Posix.join downloadsDir (py "sub/x"))
     = Ok (downloads_location sample_disk ++ [py "sub"; py "x"])
  /\ below (downloads_location sample_disk)
           (downloads_location sample_disk ++ [py "sub"; py "x"]) = true
  /\ has_separator (py "sub/../x") = true
  /\ has_parent_reference (py "sub/../x") = true
  /\ Posix.locate sample_disk (Posix.join downloadsDir (py "sub/../x"))
     = Ok (downloads_location sample_disk ++ [py "x"])
  /\ below (downloads_location sample_disk)
           (downloads_location sample_disk ++ [py "x"]) = true.
Proof. repeat split; vm_compute; reflexivity. Qed.

(** ** The address book *)

(** An address book whose text decodes but is not JSON, and one that cannot
    be opened, are read as the empty [dict]. *)
Lemma loadAddressBook_sample_runs :
  loadAddressBook sample_disk = Ok (Json.Obj [])
  /\ loadAddressBook (disk_with_address_book (utf8 (pyq "{'bob': "))) = Ok (Json.Obj [])
  /\ loadAddressBook (disk_with_address_book []) = Ok (Json.Obj []).
Proof. repeat split; vm_compute; reflexivity. Qed.

(** Bytes that are not UTF-8 are refused while the file is read, with an
    exception [loadAddressBook] does not catch. *)
Lemma loadAddressBook_undecodable :
  loadAddressBook (disk_with_address_book [xff]) = Raise UnicodeDecodeError.
Proof. vm_compute. reflexivity. Qed.

(** C10, as the specification words it, fails: an address book that holds
    well-formed JSON other than an object is returned as it was parsed, a
    [list] or a [str] here, and the caller does not receive a [dict]. *)
Lemma C10_counterexample :
  loadAddressBook (disk_with_address_book (utf8 (pyq "['10.0.0.2:5000']")))
  = Ok (Json.Arr [Json.Str (py "10.0.0.2:5000")])
  /\ loadAddressBook (disk_with_address_book (utf8 (pyq "'bob'")))
     = Ok (Json.Str (py "bob"))
  /\ loadAddressBook (disk_with_address_book (utf8 (py "null"))) = Ok Json.Null.
Proof. repeat split; vm_compute; reflexivity. Qed.

(** C10, amended — For an address book whose bytes decode, [loadAddressBook]
    returns and does not raise: the empty [dict] when the file cannot be
    opened or its text is not JSON, and otherwise the value the text
    denotes, of whatever type. *)
Theorem C10_address_book_is_empty_or_as_parsed :
  forall (disk : Posix.t),
    (forall raw, Posix.open_rb disk addressBookFile = Ok raw -> UTF8.decode raw <> None) ->
    exists v,
      loadAddressBook disk = Ok v
      /\ match Posix.open_rb disk addressBookFile with
         | Raise _ => v = Json.Obj []
         | Ok raw =>
             match UTF8.decode raw with
             | Some text =>
                 match Json.loads (universal_newlines text) with
                 | Some parsed => v = parsed
                 | None => v = Json.Obj []
                 end
             | None => False
             end
         end.
Proof.
  intros disk Hdec. unfold loadAddressBook, decode, json_loads.
  destruct (Posix.open_rb disk addressBookFile) as [raw|e] eqn:Hopen.
  - specialize (Hdec raw eq_refl).
    destruct (UTF8.decode raw) as [text|]; [|congruence].
    destruct (Json.loads (universal_newlines text)) as [parsed|].
    + exists parsed. split; reflexivity.
    + exists (Json.Obj []). split; reflexivity.
  - exists (Json.Obj []). split; [|reflexivity].
    now rewrite (@open_rb_raises_OSError disk addressBookFile e eq_refl Hopen).
Qed.

Lemma C10_witness :
  exists v,
    loadAddressBook (disk_with_address_book (utf8 (pyq "{'bob': '10.0.0.2:5000'}"))) = Ok v
    /\ v = Json.Obj [(py "bob", Json.Str (py "10.0.0.2:5000"))].
Proof.
  assert (H : forall raw,
             Posix.open_rb (disk_with_address_book (utf8 (pyq "{'bob': '10.0.0.2:5000'}")))
               addressBookFile = Ok raw -> UTF8.decode raw <> None).
  { intros raw E. vm_compute in E. inversion E. vm_compute. discriminate. }
  destruct (@C10_address_book_is_empty_or_as_parsed _ H) as (v & E & P).
  exists v. split; [exact E|].
  vm_compute in P. exact P.
Defined.

(** ** Writing and reading the address book *)

Lemma dict_set_fresh (k : str) (v : Json.value) (d : list (str * Json.value)) :
  existsb (fun m => str_eqb (fst m) k) d = false ->
  Json.dict_set k v d = d ++ [(k, v)].
Proof.
  induction d as [|[k' v'] d IH]; intros H; [reflexivity|].
  cbn [existsb fst] in H. apply orb_false_iff in H. destruct H as [Hk Hd].
  cbn [Json.dict_set app]. rewrite Hk, (IH Hd). reflexivity.
Qed.

Lemma dict_get_set (k k' : str) (v : Json.value) (d : list (str * Json.value)) :
  Json.dict_get k' (Json.dict_set k v d)
  = if str_eqb k k' then Some v else Json.dict_get k' d.
Proof.
  assert (T : forall a b c : str, str_eqb a b = true -> str_eqb a c = str_eqb b c).
  { intros a b c E. unfold str_eqb in *.
    destruct (list_eq_dec N.eq_dec a b); [subst; reflexivity | discriminate]. }
  induction d as [|[k0 v0] d IH]; cbn [Json.dict_set Json.dict_get].
  - reflexivity.
  - destruct (str_eqb k0 k) eqn:E; cbn [Json.dict_get].
    + rewrite <- (T _ _ k' E). destruct (str_eqb k0 k'); reflexivity.
    + destruct (str_eqb k0 k') eqn:E'; [|exact IH].
      destruct (str_eqb k k') eqn:E2; [|reflexivity].
      unfold str_eqb in *.
      destruct (list_eq_dec N.eq_dec k0 k'); [|discriminate].
      destruct (list_eq_dec N.eq_dec k k'); [|discriminate].
      subst. destruct (list_eq_dec N.eq_dec k' k'); congruence.
Qed.

(** The members [json.loads] builds from the entries, one after the other. *)
Lemma entries_as_members (entries : list (str * str)) :
  distinct_names entries = true ->
  forall done : list (str * Json.value),
    (forall entry, In entry entries ->
                   existsb (fun m => str_eqb (fst m) (fst entry)) done = false) ->
    fold_left (fun d entry => Json.dict_set (fst entry) (Json.Str (snd entry)) d) entries done
    = done ++ map (fun entry => (fst entry, Json.Str (snd entry))) entries.
Proof.
  induction entries as [|[name addr] entries IH]; intros Hd done Hfresh.
  - cbn. now rewrite app_nil_r.
  - cbn [distinct_names] in Hd. apply andb_true_iff in Hd. destruct Hd as [Hn Hd].
    apply negb_true_iff in Hn.
    cbn [fold_left map fst snd].
    rewrite dict_set_fresh by (apply (Hfresh (name, addr)); now left).
    rewrite IH; [now rewrite <- app_assoc | exact Hd |].
    intros entry Hin. rewrite existsb_app. cbn [existsb fst orb].
    rewrite (Hfresh entry) by (now right). cbn [orb]. rewrite orb_false_r.
    destruct (str_eqb name (fst entry)) eqn:E; [|reflexivity].
    exfalso.
    assert (X : existsb (fun e => str_eqb (fst e) name) entries = true).
    { apply existsb_exists. exists entry. split; [exact Hin|].
      unfold str_eqb in *.
      destruct (list_eq_dec N.eq_dec name (fst entry)); [|discriminate].
      destruct (list_eq_dec N.eq_dec (fst entry) name); congruence. }
    congruence.
Qed.


Lemma entry_read (name addr : str) (e : Json.expect) (done : list (str * Json.value))
      (stk : list Json.frame) (rest : str) :
  e = Json.EKey \/ e = Json.EKeyOrClose ->
  forallb UTF8.is_scalar name = true -> forallb UTF8.is_scalar addr = true ->
  fold_left Json.step (entry_text (name, addr) ++ rest)
    (Json.Between e, Json.FObj done None :: stk)
  = fold_left Json.step rest
      (Json.Between Json.EAfter,
       Json.FObj (Json.dict_set name (Json.Str addr) done) None :: stk).
Proof.
  intros He Hn Ha.
  assert (Shape : entry_text (name, addr) ++ rest
                  = 34%N :: (flat_map Json.escape_char name
                             ++ (pyq "': '" ++ (flat_map Json.escape_char addr
                                                ++ 34%N :: rest)))).
  { unfold entry_text, Json.encode_string. cbn [fst snd].
    change (py ": ") with [58%N; 32%N]. change (pyq "': '") with [34%N; 58%N; 32%N; 34%N].
    repeat (progress cbn [app] || rewrite <- app_assoc). reflexivity. }
  rewrite Shape. cbn [fold_left].
  replace (Json.step (Json.Between e, Json.FObj done None :: stk) 34)
    with (Json.InString [], Json.FObj done None :: stk)
    by (destruct He; subst e; reflexivity).
  rewrite escaped_read by exact Hn. cbn [app].
  change (pyq "': '") with [34%N; 58%N; 32%N; 34%N]. cbn [app fold_left].
  change (Json.step (Json.InString name, Json.FObj done None :: stk) 34)
    with (Json.Between Json.EColon, Json.FObj done (Some name) :: stk).
  change (Json.step (Json.Between Json.EColon, Json.FObj done (Some name) :: stk) 58)
    with (Json.Between Json.EValue, Json.FObj done (Some name) :: stk).
  change (Json.step (Json.Between Json.EValue, Json.FObj done (Some name) :: stk) 32)
    with (Json.Between Json.EValue, Json.FObj done (Some name) :: stk).
  change (Json.step (Json.Between Json.EValue, Json.FObj done (Some name) :: stk) 34)
    with (Json.InString [], Json.FObj done (Some name) :: stk).
  rewrite escaped_read by exact Ha. cbn [app fold_left].
  reflexivity.
Qed.

Lemma entries_read (entries : list (str * str)) :
  entries <> [] -> decoded_texts entries = true ->
  forall (e : Json.expect) (done : list (str * Json.value)) (stk : list Json.frame)
         (rest : str),
    e = Json.EKey \/ e = Json.EKeyOrClose ->
    fold_left Json.step (Json.join (py ", ") (map entry_text entries) ++ rest)
      (Json.Between e, Json.FObj done None :: stk)
    = fold_left Json.step rest
        (Json.Between Json.EAfter,
         Json.FObj (fold_left (fun d entry =>
                                 Json.dict_set (fst entry) (Json.Str (snd entry)) d)
                              entries done) None :: stk).
Proof.
  induction entries as [|[name addr] entries IH]; intros Hne Hd e done stk rest He;
    [congruence|].
  cbn [decoded_texts forallb fst snd] in Hd.
  apply andb_true_iff in Hd. destruct Hd as [Hna Hd].
  apply andb_true_iff in Hna. destruct Hna as [Hn Ha].
  destruct entries as [|second entries].
  - cbn [map Json.join fold_left fst snd]. now apply entry_read.
  - change (Json.join (py ", ") (map entry_text ((name, addr) :: second :: entries)))
      with (entry_text (name, addr)
            ++ py ", " ++ Json.join (py ", ") (map entry_text (second :: entries))).
    rewrite <- !app_assoc.
    rewrite entry_read by assumption.
    change (py ", ") with [44%N; 32%N]. cbn [app fold_left].
    change (Json.step (Json.Between Json.EAfter,
                       Json.FObj (Json.dict_set name (Json.Str addr) done) None :: stk) 44)
      with (Json.Between Json.EKey,
            Json.FObj (Json.dict_set name (Json.Str addr) done) None :: stk).
    change (Json.step (Json.Between Json.EKey,
                       Json.FObj (Json.dict_set name (Json.Str addr) done) None :: stk) 32)
      with (Json.Between Json.EKey,
            Json.FObj (Json.dict_set name (Json.Str addr) done) None :: stk).
    rewrite IH by (discriminate || assumption || (left; reflexivity)).
    reflexivity.
Qed.

Lemma dumps_address_book (entries : list (str * str)) :
  Json.dumps (address_book entries)
  = 123%N :: (Json.join (py ", ") (map entry_text entries) ++ [125%N]).
Proof.
  unfold address_book. cbn [Json.dumps app]. rewrite map_map. reflexivity.
Qed.

(** [json.loads] reads back the address book [json.dumps] wrote. *)
Lemma loads_dumps_address_book (entries : list (str * str)) :
  distinct_names entries = true -> decoded_texts entries = true ->
  Json.loads (Json.dumps (address_book entries)) = Some (address_book entries).
Proof.
  intros Hd Ht. rewrite dumps_address_book. unfold Json.loads.
  change (123 =? 65279)%N with false. cbv iota. cbn [fold_left].
  change (Json.step (Json.Between Json.EValue, []) 123)
    with (Json.Between Json.EKeyOrClose, [Json.FObj [] None]).
  destruct entries as [|first entries]; [reflexivity|].
  rewrite entries_read by (discriminate || assumption || (right; reflexivity)).
  rewrite entries_as_members by (assumption || reflexivity).
  reflexivity.
Qed.

Lemma hex_digit_plain (d : N) : (d < 16)%N -> is_plain (Json.hex_digit d) = true.
Proof.
  intros H. unfold Json.hex_digit, is_plain.
  destruct (d <? 10)%N eqn:E; [apply N.ltb_lt in E | apply N.ltb_ge in E];
    apply andb_true_iff; split; apply N.leb_le; lia.
Qed.

Lemma hex4_plain (n : N) : forallb is_plain (Json.hex4 n) = true.
Proof.
  unfold Json.hex4. cbn [forallb].
  rewrite !hex_digit_plain by (apply N.mod_lt; discriminate). reflexivity.
Qed.

Lemma escape_char_plain (c : N) : forallb is_plain (Json.escape_char c) = true.
Proof.
  unfold Json.escape_char.
  repeat match goal with
         | |- context [if ?b then _ else _] => destruct b eqn:?; try reflexivity
         end.
  - cbn [forallb]. unfold is_plain at 1. now rewrite Heqb6.
  - cbn [forallb]. now rewrite hex4_plain.
  - cbn [forallb]. rewrite forallb_app. cbn [forallb]. now rewrite !hex4_plain.
Qed.

Lemma encode_string_plain (s : str) : forallb is_plain (Json.encode_string s) = true.
Proof.
  unfold Json.encode_string. cbn [forallb]. rewrite forallb_app. cbn [forallb].
  change (is_plain 34) with true. cbn [andb]. rewrite andb_true_r.
  induction s as [|c s IH]; [reflexivity|].
  cbn [flat_map]. now rewrite forallb_app, escape_char_plain, IH.
Qed.

Lemma dumps_address_book_plain (entries : list (str * str)) :
  forallb is_plain (Json.dumps (address_book entries)) = true.
Proof.
  rewrite dumps_address_book. cbn [forallb]. rewrite forallb_app. cbn [forallb].
  change (is_plain 123) with true. change (is_plain 125) with true.
  cbn [andb]. rewrite andb_true_r.
  induction entries as [|entry entries IH]; [reflexivity|].
  assert (E : forallb is_plain (entry_text entry) = true).
  { unfold entry_text. rewrite !forallb_app, !encode_string_plain. reflexivity. }
  destruct entries as [|second entries]; [exact E|].
  change (Json.join (py ", ") (map entry_text (entry :: second :: entries)))
    with (entry_text entry ++ py ", " ++ Json.join (py ", ") (map entry_text (second :: entries))).
  rewrite !forallb_app, E, IH. reflexivity.
Qed.

Lemma plain_is_ascii (s : str) : forallb is_plain s = true -> forallb is_ascii s = true.
Proof.
  induction s as [|c s IH]; [reflexivity|]. cbn [forallb]. intros H.
  apply andb_true_iff in H. destruct H as [Hc Hs]. rewrite (IH Hs), andb_true_r.
  unfold is_plain in Hc. apply andb_true_iff in Hc. destruct Hc as [_ Hc].
  apply N.leb_le in Hc. unfold is_ascii. apply N.ltb_lt. lia.
Qed.

Lemma universal_newlines_plain (s : str) :
  forallb is_plain s = true -> universal_newlines s = s.
Proof.
  induction s as [|c s IH]; [reflexivity|]. cbn [forallb]. intros H.
  apply andb_true_iff in H. destruct H as [Hc Hs].
  cbn [universal_newlines]. rewrite (IH Hs).
  unfold is_plain in Hc. apply andb_true_iff in Hc. destruct Hc as [Hc _].
  apply N.leb_le in Hc.
  replace (c =? 13)%N with false by (symmetry; apply N.eqb_neq; lia). reflexivity.
Qed.

(** Where the address book resolves to. *)
Lemma locate_address_book (disk : Posix.t) :
  Posix.locate disk addressBookFile
  = match Posix.tree disk (Posix.cwd disk) with
    | Some Posix.Dir => Ok (book_location disk)
    | Some _ => Raise (OSError ENOTDIR)
    | None => Raise (OSError ENOENT)
    end.
Proof. reflexivity. Qed.

Lemma open_wb_address_book (disk : Posix.t) :
  book_writable disk = true ->
  Posix.open_wb disk addressBookFile
  = Ok (book_location disk,
        Posix.set_node (book_location disk) (Some (Posix.File [])) disk).
Proof.
  unfold book_writable, Posix.open_wb. rewrite locate_address_book.
  destruct (Posix.tree disk (Posix.cwd disk)) as [[| |]|]; try discriminate.
  destruct (Posix.tree disk (book_location disk)) as [[| |]|] eqn:T; try discriminate;
    intros _; unfold book_location in *;
    destruct (Posix.cwd disk); reflexivity.
Qed.

(** What was written through [open(path, 'wb')] on a regular or a new file
    is what [open(path, 'rb')] reads. *)
Lemma written_is_read (disk : Posix.t) (path : str) (loc : Posix.location) (data : bytes) :
  Posix.open_wb disk path = Ok (loc, Posix.set_node loc (Some (Posix.File [])) disk) ->
  (forall supply, Posix.tree disk loc <> Some (Posix.Special supply)) ->
  Posix.open_rb
    (Posix.write loc data (Posix.set_node loc (Some (Posix.File [])) disk)) path
  = Ok data.
Proof.
  intros Hopen Hns.
  destruct (@target_after_writes _ _ _ _ [data] Hopen) as (_ & _ & _ & L & T).
  change (writes loc [data] (Posix.set_node loc (Some (Posix.File [])) disk))
    with (Posix.write loc data (Posix.set_node loc (Some (Posix.File [])) disk)) in *.
  cbn [concat] in T. rewrite app_nil_r in T.
  apply (open_rb_file _ _ L).
  destruct (Posix.tree disk loc) as [[| |supply]|]; try exact T.
  exfalso. now apply (Hns supply).
Qed.

Lemma book_not_special (disk : Posix.t) :
  book_writable disk = true ->
  forall supply, Posix.tree disk (book_location disk) <> Some (Posix.Special supply).
Proof.
  unfold book_writable. intros H supply E. rewrite E in H.
  destruct (Posix.tree disk (Posix.cwd disk)) as [[| |]|]; discriminate.
Qed.

(** What [saveAddressBook] leaves can be read back by [loadAddressBook]. *)
Lemma save_then_load (disk : Posix.t) (entries : list (str * str)) :
  distinct_names entries = true -> decoded_texts entries = true ->
  book_writable disk = true ->
  fst (saveAddressBook (address_book entries) disk) = Ok []
  /\ loadAddressBook (snd (saveAddressBook (address_book entries) disk))
     = Ok (address_book entries)
  /\ (forall l, l <> book_location disk ->
        Posix.tree (snd (saveAddressBook (address_book entries) disk)) l
        = Posix.tree disk l)
  /\ Posix.cwd (snd (saveAddressBook (address_book entries) disk)) = Posix.cwd disk.
Proof.
  intros Hd Ht Hw.
  pose proof (@open_wb_address_book disk Hw) as Hopen.
  pose proof (@plain_is_ascii _ (dumps_address_book_plain entries)) as Hascii.
  unfold saveAddressBook, encode. rewrite Hopen, (@encode_ascii _ Hascii).
  cbn [fst snd]. split; [reflexivity|].
  split.
  - unfold loadAddressBook, decode, json_loads.
    rewrite (@written_is_read disk addressBookFile (book_location disk) _ Hopen
               (@book_not_special disk Hw)).
    rewrite (@decode_ascii _ Hascii).
    rewrite (@universal_newlines_plain _ (dumps_address_book_plain entries)).
    now rewrite loads_dumps_address_book.
  - destruct (@target_after_writes _ _ _ _ [map byte_of_code (Json.dumps (address_book entries))]
                Hopen) as (CW & O & _).
    split; [exact O | exact CW].
Qed.

(** ** Adding a peer *)

Lemma str_eqb_sym (a b : str) : str_eqb a b = str_eqb b a.
Proof.
  unfold str_eqb.
  destruct (list_eq_dec N.eq_dec a b), (list_eq_dec N.eq_dec b a); congruence.
Qed.

Lemma str_eqb_eq (a b : str) : str_eqb a b = true <-> a = b.
Proof. unfold str_eqb. destruct (list_eq_dec N.eq_dec a b); split; congruence. Qed.

Lemma dict_set_entries (name addr : str) (entries : list (str * str)) :
  Json.dict_set name (Json.Str addr)
    (map (fun entry => (fst entry, Json.Str (snd entry))) entries)
  = map (fun entry => (fst entry, Json.Str (snd entry))) (set_entry name addr entries).
Proof.
  induction entries as [|[n a] entries IH]; [reflexivity|].
  cbn [map Json.dict_set set_entry fst snd].
  destruct (str_eqb n name); cbn [map fst snd]; [reflexivity | now rewrite IH].
Qed.

Lemma names_set_entry (name addr n : str) (entries : list (str * str)) :
  str_eqb n name = false ->
  existsb (fun e => str_eqb (fst e) n) (set_entry name addr entries)
  = existsb (fun e => str_eqb (fst e) n) entries.
Proof.
  intros Hn. induction entries as [|[n' a'] entries IH]; cbn [set_entry existsb fst].
  - now rewrite str_eqb_sym, Hn.
  - destruct (str_eqb n' name); cbn [existsb fst]; [reflexivity | now rewrite IH].
Qed.

Lemma distinct_set_entry (name addr : str) (entries : list (str * str)) :
  distinct_names entries = true -> distinct_names (set_entry name addr entries) = true.
Proof.
  induction entries as [|[n a] entries IH]; [reflexivity|].
  cbn [distinct_names set_entry]. intros H.
  apply andb_true_iff in H. destruct H as [Hn Hd].
  destruct (str_eqb n name) eqn:E; cbn [distinct_names].
  - now rewrite Hn, Hd.
  - now rewrite names_set_entry, Hn, IH.
Qed.

Lemma decoded_set_entry (name addr : str) (entries : list (str * str)) :
  forallb UTF8.is_scalar name = true -> forallb UTF8.is_scalar addr = true ->
  decoded_texts entries = true -> decoded_texts (set_entry name addr entries) = true.
Proof.
  intros Hn Ha. unfold decoded_texts.
  induction entries as [|[n a] entries IH]; cbn [set_entry forallb fst snd].
  - intros _. now rewrite Hn, Ha.
  - intros H. apply andb_true_iff in H. destruct H as [Hna Hd].
    apply andb_true_iff in Hna. destruct Hna as [Hn' Ha'].
    destruct (str_eqb n name); cbn [forallb fst snd].
    + now rewrite Hn', Ha, Hd.
    + now rewrite Hn', Ha', IH.
Qed.

(** [addPeerUi] on a book of names and addresses that can be written. *)
Lemma addPeerUi_adds (disk : Posix.t) (entries : list (str * str)) (name addr : str) :
  loadAddressBook disk = Ok (address_book entries) ->
  distinct_names entries = true -> decoded_texts entries = true ->
  forallb UTF8.is_scalar name = true -> forallb UTF8.is_scalar addr = true ->
  book_writable disk = true ->
  fst (addPeerUi name addr disk) = Ok [PeerAdded name]
  /\ loadAddressBook (snd (addPeerUi name addr disk))
     = Ok (address_book (set_entry name addr entries))
  /\ (forall l, l <> book_location disk ->
        Posix.tree (snd (addPeerUi name addr disk)) l = Posix.tree disk l).
Proof.
  intros Hload Hd Ht Hn Ha Hw.
  destruct (@save_then_load disk (set_entry name addr entries)
              (distinct_set_entry name addr entries Hd)
              (decoded_set_entry name addr entries Hn Ha Ht) Hw) as (R & L & O & _).
  assert (S : setitem (address_book entries) name (Json.Str addr)
              = Ok (address_book (set_entry name addr entries)))
    by (unfold address_book, setitem; now rewrite dict_set_entries).
  unfold addPeerUi. rewrite Hload, S.
  destruct (saveAddressBook (address_book (set_entry name addr entries)) disk)
    as [[printed|e] disk'] eqn:E; cbn [fst snd] in *; [|discriminate].
  inversion R; subst printed. auto.
Qed.

Lemma subscript_address_book (entries : list (str * str)) (name addr : str) :
  subscript (address_book (set_entry name addr entries)) name = Ok (Json.Str addr)
  /\ forall other, other <> name ->
       subscript (address_book (set_entry name addr entries)) other
       = subscript (address_book entries) other.
Proof.
  unfold address_book, subscript. rewrite <- dict_set_entries.
  split.
  - now rewrite dict_get_set, str_eqb_refl.
  - intros other Hne. rewrite dict_get_set.
    destruct (str_eqb name other) eqn:E; [|reflexivity].
    apply str_eqb_eq in E. congruence.
Qed.

Lemma open_wb_address_book_raises (disk : Posix.t) (e : exn) :
  Posix.open_wb disk addressBookFile = Raise e -> is_IOError e = true.
Proof.
  unfold Posix.open_wb. rewrite locate_address_book.
  destruct (Posix.tree disk (Posix.cwd disk)) as [[| |]|];
    try (intros H; inversion H; reflexivity).
  destruct (Posix.tree disk (book_location disk)) as [[| |]|];
    try destruct (book_location disk); intros H; inversion H; reflexivity.
Qed.

Lemma lookUpPeer_dict (members : list (str * Json.value)) (peer : str) :
  lookUpPeer (Json.Obj members) peer
  = match Json.dict_get peer members with
    | Some address => Ok address
    | None => Ok (Json.Str peer)
    end.
Proof.
  unfold lookUpPeer, contains, subscript.
  destruct (Json.dict_get peer members); reflexivity.
Qed.

(** X1 — What [saveAddressBook] writes for a book of names and addresses,
    [loadAddressBook] reads back as the same book; nothing is printed and
    no other file is touched. *)
Theorem saveAddressBook_then_loadAddressBook :
  forall (disk : Posix.t) (entries : list (str * str)),
    distinct_names entries = true -> decoded_texts entries = true ->
    book_writable disk = true ->
    fst (saveAddressBook (address_book entries) disk) = Ok []
    /\ loadAddressBook (snd (saveAddressBook (address_book entries) disk))
       = Ok (address_book entries)
    /\ (forall l, l <> book_location disk ->
          Posix.tree (snd (saveAddressBook (address_book entries) disk)) l
          = Posix.tree disk l).
Proof.
  intros disk entries Hd Ht Hw.
  destruct (@save_then_load disk entries Hd Ht Hw) as (A & B & C & _). auto.
Qed.

Lemma saveAddressBook_then_loadAddressBook_witness :
  loadAddressBook
    (snd (saveAddressBook
            (address_book [(py "bob", py "10.0.0.2:5000"); (py "eve", py "[::1]:5000")])
            sample_disk))
  = Ok (Json.Obj [(py "bob", Json.Str (py "10.0.0.2:5000"));
                  (py "eve", Json.Str (py "[::1]:5000"))]).
Proof.
  apply (@saveAddressBook_then_loadAddressBook sample_disk
           [(py "bob", py "10.0.0.2:5000"); (py "eve", py "[::1]:5000")]);
    vm_compute; reflexivity.
Defined.

(** X2 — [addPeerUi] on a book of names and addresses: the book read
    afterwards gives the new address for the name and, for every other
    name, what it gave before; the one line shown is the success line. *)
Theorem addPeerUi_saves_the_peer :
  forall (disk : Posix.t) (entries : list (str * str)) (name addr : str),
    loadAddressBook disk = Ok (address_book entries) ->
    distinct_names entries = true -> decoded_texts entries = true ->
    forallb UTF8.is_scalar name = true -> forallb UTF8.is_scalar addr = true ->
    book_writable disk = true ->
    fst (addPeerUi name addr disk) = Ok [PeerAdded name]
    /\ exists book,
         loadAddressBook (snd (addPeerUi name addr disk)) = Ok book
         /\ subscript book name = Ok (Json.Str addr)
         /\ forall other, other <> name ->
              subscript book other = subscript (address_book entries) other.
Proof.
  intros disk entries name addr Hload Hd Ht Hn Ha Hw.
  destruct (@addPeerUi_adds disk entries name addr Hload Hd Ht Hn Ha Hw) as (R & L & _).
  split; [exact R|]. exists (address_book (set_entry name addr entries)).
  split; [exact L|]. apply subscript_address_book.
Qed.

Lemma addPeerUi_saves_the_peer_witness :
  fst (addPeerUi (py "eve") (py "10.0.0.3:5000")
         (disk_with_address_book (utf8 (pyq "{'bob': '10.0.0.2:5000'}"))))
  = Ok [PeerAdded (py "eve")]
  /\ exists book,
       loadAddressBook
         (snd (addPeerUi (py "eve") (py "10.0.0.3:5000")
                 (disk_with_address_book (utf8 (pyq "{'bob': '10.0.0.2:5000'}")))))
       = Ok book
       /\ subscript book (py "eve") = Ok (Json.Str (py "10.0.0.3:5000"))
       /\ forall other, other <> py "eve" ->
            subscript book other
            = subscript (address_book [(py "bob", py "10.0.0.2:5000")]) other.
Proof.
  apply (@addPeerUi_saves_the_peer
           (disk_with_address_book (utf8 (pyq "{'bob': '10.0.0.2:5000'}")))
           [(py "bob", py "10.0.0.2:5000")] (py "eve") (py "10.0.0.3:5000"));
    vm_compute; reflexivity.
Defined.

(** X3 — When the address book holds text that is not JSON, [addPeerUi]
    leaves a book with the new peer alone: what the file held is
    replaced. *)
Theorem addPeerUi_replaces_a_book_that_is_not_json :
  forall (disk : Posix.t) (raw : bytes) (text name addr : str),
    book_writable disk = true ->
    Posix.open_rb disk addressBookFile = Ok raw ->
    UTF8.decode raw = Some text ->
    Json.loads (universal_newlines text) = None ->
    forallb UTF8.is_scalar name = true -> forallb UTF8.is_scalar addr = true ->
    fst (addPeerUi name addr disk) = Ok [PeerAdded name]
    /\ loadAddressBook (snd (addPeerUi name addr disk))
       = Ok (Json.Obj [(name, Json.Str addr)]).
Proof.
  intros disk raw text name addr Hw Hopen Hdec Hjson Hn Ha.
  assert (Hload : loadAddressBook disk = Ok (address_book []))
    by (unfold loadAddressBook, decode, json_loads; now rewrite Hopen, Hdec, Hjson).
  destruct (@addPeerUi_adds disk [] name addr Hload eq_refl eq_refl Hn Ha Hw)
    as (R & L & _).
  split; [exact R | exact L].
Qed.

Lemma addPeerUi_replaces_a_book_that_is_not_json_witness :
  Posix.open_rb (disk_with_address_book (utf8 (pyq "{'bob': '10.0.0.2:5000'")))
    addressBookFile
  = Ok (utf8 (pyq "{'bob': '10.0.0.2:5000'"))
  /\ loadAddressBook
       (snd (addPeerUi (py "eve") (py "10.0.0.3:5000")
               (disk_with_address_book (utf8 (pyq "{'bob': '10.0.0.2:5000'")))))
     = Ok (Json.Obj [(py "eve", Json.Str (py "10.0.0.3:5000"))]).
Proof.
  assert (H : Posix.open_rb (disk_with_address_book (utf8 (pyq "{'bob': '10.0.0.2:5000'")))
                addressBookFile
              = Ok (utf8 (pyq "{'bob': '10.0.0.2:5000'")))
    by (vm_compute; reflexivity).
  split; [exact H|].
  apply (@addPeerUi_replaces_a_book_that_is_not_json
           (disk_with_address_book (utf8 (pyq "{'bob': '10.0.0.2:5000'")))
           (utf8 (pyq "{'bob': '10.0.0.2:5000'")) (pyq "{'bob': '10.0.0.2:5000'")
           (py "eve") (py "10.0.0.3:5000"));
    vm_compute; reflexivity.
Defined.

(** X4 — When the address book cannot be opened for writing,
    [saveAddressBook] prints the error and does not raise, and [addPeerUi]
    still ends with the success line although the disk is as it was. *)
Theorem addPeerUi_reports_success_when_nothing_is_saved :
  forall (disk : Posix.t) (members : list (str * Json.value)) (name addr : str) (e : exn),
    loadAddressBook disk = Ok (Json.Obj members) ->
    Posix.open_wb disk addressBookFile = Raise e ->
    addPeerUi name addr disk = (Ok [SaveFailed e; PeerAdded name], disk).
Proof.
  intros disk members name addr e Hload Hopen.
  unfold addPeerUi, saveAddressBook. rewrite Hload. cbn [setitem].
  now rewrite Hopen, (open_wb_address_book_raises disk Hopen).
Qed.

Lemma addPeerUi_reports_success_when_nothing_is_saved_witness :
  addPeerUi (py "eve") (py "10.0.0.3:5000") disk_with_book_directory
  = (Ok [SaveFailed (OSError EISDIR); PeerAdded (py "eve")], disk_with_book_directory).
Proof.
  apply (@addPeerUi_reports_success_when_nothing_is_saved disk_with_book_directory []);
    vm_compute; reflexivity.
Defined.

(** X5 — When the address book holds JSON that is not an object,
    [addPeerUi] raises [TypeError] at the assignment and the disk is as it
    was. *)
Theorem addPeerUi_raises_on_a_book_that_is_no_dict :
  forall (disk : Posix.t) (book : Json.value) (name addr : str),
    loadAddressBook disk = Ok book ->
    (forall members, book <> Json.Obj members) ->
    addPeerUi name addr disk = (Raise TypeError, disk).
Proof.
  intros disk book name addr Hload Hno.
  unfold addPeerUi. rewrite Hload.
  destruct book as [| | | | |members]; try reflexivity.
  exfalso. now apply (Hno members).
Qed.

Lemma addPeerUi_raises_on_a_book_that_is_no_dict_witness :
  addPeerUi (py "eve") (py "10.0.0.3:5000")
    (disk_with_address_book (utf8 (pyq "['10.0.0.2:5000']")))
  = (Raise TypeError, disk_with_address_book (utf8 (pyq "['10.0.0.2:5000']"))).
Proof.
  apply (@addPeerUi_raises_on_a_book_that_is_no_dict
           (disk_with_address_book (utf8 (pyq "['10.0.0.2:5000']")))
           (Json.Arr [Json.Str (py "10.0.0.2:5000")]));
    [vm_compute; reflexivity | discriminate].
Defined.

(** ** Looking the peer up *)



(** X8 — With an address book that is no [dict], the look-up raises
    [TypeError] before the [try] block, and nothing is shown, sent or
    written: always for [null], a number or a truth value, and for a
    [list] or a [str] when the peer is found in it.  When the peer is not
    found in the [list] or the [str], it is used as it was typed. *)
Theorem downloadFileUi_with_a_book_that_is_no_dict :
  forall (s : state) (book : Json.value) (peer filename : str),
    loadAddressBook (fs s) = Ok book ->
    match book with
    | Json.Obj _ => True
    | Json.Arr items =>
        if existsb (fun x => equals_str x peer) items
        then downloadFileUi_from_book peer filename s = (Raise TypeError, s)
        else downloadFileUi_from_book peer filename s = downloadFileUi peer filename s
    | Json.Str text =>
        if is_substring peer text
        then downloadFileUi_from_book peer filename s = (Raise TypeError, s)
        else downloadFileUi_from_book peer filename s = downloadFileUi peer filename s
    | _ => downloadFileUi_from_book peer filename s = (Raise TypeError, s)
    end.
Proof.
  intros s book peer filename Hload.
  unfold downloadFileUi_from_book. rewrite Hload.
  destruct book as [| | |text|items|members]; try reflexivity; try exact I;
    unfold lookUpPeer, contains, subscript.
  - destruct (is_substring peer text); reflexivity.
  - destruct (existsb (fun x => equals_str x peer) items); reflexivity.
Qed.

Lemma downloadFileUi_with_a_book_that_is_no_dict_witness :
  downloadFileUi_from_book (py "10.0.0.2:5000") (py "hello.txt")
    (fetching (disk_with_address_book (utf8 (pyq "['10.0.0.2:5000']"))) [])
  = (Raise TypeError,
     fetching (disk_with_address_book (utf8 (pyq "['10.0.0.2:5000']"))) []).
Proof.
  assert (H : loadAddressBook
                (fs (fetching (disk_with_address_book (utf8 (pyq "['10.0.0.2:5000']"))) []))
              = Ok (Json.Arr [Json.Str (py "10.0.0.2:5000")]))
    by (vm_compute; reflexivity).
  exact (@downloadFileUi_with_a_book_that_is_no_dict _ _ (py "10.0.0.2:5000")
           (py "hello.txt") H).
Defined.

(** ** File names that leave the directory *)

Lemma last_not_separator (s : str) :
  existsb (N.eqb 47) s = false -> (last s 0 =? 47)%N = false.
Proof.
  induction s as [|c s IH]; [reflexivity|].
  cbn [existsb]. intros H. apply orb_false_iff in H. destruct H as [Hc Hs].
  destruct s as [|d s]; [cbn [last]; now rewrite N.eqb_sym | exact (IH Hs)].
Qed.

(** [../name] joined to a directory of the working directory resolves
    beside that directory. *)
Lemma locate_parent_reference (disk : Posix.t) (dir name : str) :
  is_entry_name dir = true -> is_entry_name name = true ->
  Posix.tree disk (Posix.cwd disk) = Some Posix.Dir ->
  Posix.tree disk (Posix.cwd disk ++ [dir]) = Some Posix.Dir ->
  Posix.locate disk (Posix.join dir (py "../" ++ name)) = Ok (Posix.cwd disk ++ [name]).
Proof.
  intros Hdir Hname Hcwd Hsub.
  destruct (entry_name_facts dir Hdir) as (Dne & D47 & Dbad & _ & Dstep).
  destruct (entry_name_facts name Hname) as (Nne & N47 & Nbad & _ & Nstep).
  rewrite join_dir by (assumption || now apply last_not_separator).
  change (py "../" ++ name) with (46%N :: ([46%N] ++ 47%N :: name)).
  cbv iota beta. change (46 =? 47)%N with false. cbv iota.
  unfold Posix.locate.
  assert (Hbad : existsb Posix.bad_path_char
                   (dir ++ 47%N :: 46%N :: [46%N] ++ 47%N :: name) = false).
  { rewrite existsb_app, Dbad. cbn [app existsb orb].
    change (Posix.bad_path_char 47) with false.
    change (Posix.bad_path_char 46) with false. cbn [orb]. exact Nbad. }
  rewrite Hbad.
  destruct dir as [|d0 dir]; [congruence|].
  assert (Hd0 : (d0 =? 47)%N = false).
  { cbn [existsb] in D47. apply orb_false_iff in D47. rewrite N.eqb_sym. tauto. }
  cbn [app]. rewrite Hd0.
  change (d0 :: dir ++ 47%N :: 46%N :: 46%N :: 47%N :: name)
    with ((d0 :: dir) ++ 47%N :: ([46%N; 46%N] ++ 47%N :: name)).
  rewrite split_on_segment by exact D47.
  rewrite split_on_segment by reflexivity.
  rewrite split_on_plain by exact N47.
  cbn [Posix.walk]. rewrite Hcwd, Dstep, Hsub.
  change (Posix.step_loc (Posix.cwd disk ++ [d0 :: dir]) [46%N; 46%N])
    with (removelast (Posix.cwd disk ++ [d0 :: dir])).
  rewrite removelast_last, Hcwd, Nstep. reflexivity.
Qed.

(** ** The address of the peer *)



(** ** What the handler reads and leaves *)

(** X11 — The handler never changes the disk, whatever arrives on the
    connection, and prints one line at most, the one of the error. *)
Theorem handleClient_leaves_the_disk_as_it_was :
  forall s : state,
    fs (snd (handleClient s)) = fs s
    /\ (shown (snd (handleClient s)) = shown s
        \/ exists e, shown (snd (handleClient s)) = shown s ++ [HandlerError e]).
Proof.
  intros s. destruct (handleClient_returns s) as (_ & _ & F & _ & Sh).
  split; [exact F|]. rewrite Sh.
  destruct (fst (serve_request s)) as [u|e]; [left; apply app_nil_r | right; eauto].
Qed.

(** X12 — Every name [listFiles] lists is the name of a regular file of
    the served directory, and the handler, asked for it, streams that
    file whole. *)
Theorem listFiles_lists_what_handleClient_serves :
  forall (disk : Posix.t) (listing : list str) (f : str),
    In f (listFiles disk listing) ->
    forallb UTF8.is_scalar f = true ->
    length (request_bytes f) <= 1024 ->
    In f listing
    /\ exists loc content,
         Posix.stat disk (Posix.join uploadsDir f) = Ok (loc, Posix.File content)
         /\ sent (handleClient (serving disk (request_bytes f)))
            = Posix.chunks chunkSize content
         /\ concat (sent (handleClient (serving disk (request_bytes f)))) = content.
Proof.
  intros disk listing f Hin Hs Hlen.
  unfold listFiles in Hin. apply filter_In in Hin. destruct Hin as [Hl Hf].
  split; [exact Hl|].
  unfold Posix.isfile in Hf.
  destruct (Posix.stat disk (Posix.join uploadsDir f)) as [[loc [content| |supply]]|e] eqn:St;
    try discriminate.
  exists loc, content. split; [reflexivity|].
  rewrite (@handler_serves_file disk f loc content Hs Hlen St).
  split; [reflexivity | apply concat_chunks, chunkSize_pos].
Qed.

Lemma listFiles_lists_what_handleClient_serves_witness :
  listFiles sample_disk [py "photos"; py "hello.txt"; py "pipe"; py "gone"; py "empty.bin"]
  = [py "hello.txt"; py "empty.bin"]
  /\ concat (sent (handleClient (serving sample_disk (request_bytes (py "hello.txt")))))
     = bytes_of_string "hello".
Proof.
  split; [vm_compute; reflexivity|].
  assert (Hin : In (py "hello.txt")
                  (listFiles sample_disk
                     [py "photos"; py "hello.txt"; py "pipe"; py "gone"; py "empty.bin"]))
    by (vm_compute; left; reflexivity).
  assert (Hs : forallb UTF8.is_scalar (py "hello.txt") = true) by (vm_compute; reflexivity).
  assert (Hlen : length (request_bytes (py "hello.txt")) <= 1024)
    by (apply Nat.leb_le; vm_compute; reflexivity).
  destruct (@listFiles_lists_what_handleClient_serves sample_disk _ _ Hin Hs Hlen)
    as (_ & loc & content & St & _ & Hc).
  rewrite Hc. vm_compute in St. inversion St. reflexivity.
Defined.

(** X13 — A file name that starts with a separator is an absolute path:
    [os.path.join] drops the served directory, and the handler streams
    the file at that path, wherever it is. *)
Theorem handleClient_serves_an_absolute_path :
  forall (disk : Posix.t) (path : str) (loc : Posix.location) (content : bytes),
    forallb UTF8.is_scalar (47%N :: path) = true ->
    length (request_bytes (47%N :: path)) <= 1024 ->
    Posix.stat disk (47%N :: path) = Ok (loc, Posix.File content) ->
    Posix.join uploadsDir (47%N :: path) = 47%N :: path
    /\ sent (handleClient (serving disk (request_bytes (47%N :: path))))
       = Posix.chunks chunkSize content.
Proof.
  intros disk path loc content Hs Hlen Hstat.
  split; [reflexivity|].
  now apply (@handler_serves_file disk (47%N :: path) loc content Hs Hlen).
Qed.

Lemma handleClient_serves_an_absolute_path_witness :
  sent (handleClient (serving disk_with_notes (request_bytes (py "/home/user/notes.txt"))))
  = [bytes_of_string "secret"].
Proof.
  assert (Hs : forallb UTF8.is_scalar (py "/home/user/notes.txt") = true)
    by (vm_compute; reflexivity).
  assert (Hlen : length (request_bytes (py "/home/user/notes.txt")) <= 1024)
    by (apply Nat.leb_le; vm_compute; reflexivity).
  assert (Hstat : Posix.stat disk_with_notes (py "/home/user/notes.txt")
                  = Ok (home ++ [py "notes.txt"], Posix.File (bytes_of_string "secret")))
    by (vm_compute; reflexivity).
  destruct (@handleClient_serves_an_absolute_path disk_with_notes (py "home/user/notes.txt")
              _ _ Hs Hlen Hstat) as [_ H].
  exact H.
Defined.

(** X14 — A file name [../name] leaves the served directory: the handler
    streams the file of that name in the directory the program runs in. *)
Theorem handleClient_serves_the_parent_directory :
  forall (disk : Posix.t) (name : str) (content : bytes),
    is_entry_name name = true ->
    length (request_bytes (py "../" ++ name)) <= 1024 ->
    Posix.tree disk (Posix.cwd disk) = Some Posix.Dir ->
    Posix.tree disk (Posix.cwd disk ++ [uploadsDir]) = Some Posix.Dir ->
    Posix.tree disk (Posix.cwd disk ++ [name]) = Some (Posix.File content) ->
    sent (handleClient (serving disk (request_bytes (py "../" ++ name))))
    = Posix.chunks chunkSize content.
Proof.
  intros disk name content Hname Hlen Hcwd Hup Hfile.
  destruct (entry_name_facts name Hname) as (_ & _ & _ & Hsc & _).
  assert (Hs : forallb UTF8.is_scalar (py "../" ++ name) = true)
    by (rewrite forallb_app, Hsc; reflexivity).
  apply (@handler_serves_file disk (py "../" ++ name) (Posix.cwd disk ++ [name]) content
           Hs Hlen).
  apply stat_inv. split; [|exact Hfile].
  now apply locate_parent_reference.
Qed.

Lemma handleClient_serves_the_parent_directory_witness :
  sent (handleClient (serving disk_with_notes (request_bytes (py "../notes.txt"))))
  = [bytes_of_string "secret"].
Proof.
  apply (@handleClient_serves_the_parent_directory disk_with_notes (py "notes.txt")
           (bytes_of_string "secret"));
    try (vm_compute; reflexivity).
  apply Nat.leb_le. vm_compute. reflexivity.
Defined.

(** ** What the client compares with *)

(** X15 — The digest the client compares with is the one of the file of
    the same name in its own served directory.  When the client can make
    its local file, and the file it compares with is another location,
    as for every plain name, and nothing is there, a download that ran to
    its end is never kept: whatever bytes arrived, the client reports the
    verification failure and removes the file. *)
Theorem downloadFileUi_rejects_without_a_local_copy :
  forall (disk d1 : Posix.t) (peer host filename : str) (port : Z)
         (segments : list bytes) (uloc dloc : Posix.location),
    parse_peer peer = Ok (host, port) -> (0 <= port <= 65535)%Z ->
    Posix.locate disk (Posix.join uploadsDir filename) = Ok uloc ->
    Posix.tree disk uloc = None ->
    Posix.open_wb disk (Posix.join downloadsDir filename) = Ok (dloc, d1) ->
    dloc <> uloc ->
    shown (snd (downloadFileUi peer filename (fetching disk segments)))
    = [VerificationFailed]
    /\ Posix.tree (fs (snd (downloadFileUi peer filename (fetching disk segments)))) dloc
       = None.
Proof.
  intros disk d1 peer host filename port segments uloc dloc Hpeer Hport UL UT Hopen Hne.
  destruct (@client_rejects disk d1 peer host filename port segments uloc dloc
              Hpeer Hport UL UT Hopen Hne) as (_ & Sh & T & _).
  auto.
Qed.

Lemma downloadFileUi_rejects_without_a_local_copy_witness :
  shown (snd (downloadFileUi (py "10.0.0.2:5000") (py "report.pdf")
                (fetching sample_disk [bytes_of_string "%PDF"; bytes_of_string "-1.7"])))
  = [VerificationFailed]
  /\ Posix.tree
       (fs (snd (downloadFileUi (py "10.0.0.2:5000") (py "report.pdf")
                   (fetching sample_disk [bytes_of_string "%PDF"; bytes_of_string "-1.7"]))))
       (home ++ [py "Downloads"; py "report.pdf"])
     = None.
Proof.
  assert (H1 : parse_peer (py "10.0.0.2:5000") = Ok (py "10.0.0.2", 5000%Z))
    by (vm_compute; reflexivity).
  assert (H2 : (0 <= 5000 <= 65535)%Z) by lia.
  assert (H3 : Posix.locate sample_disk (Posix.join uploadsDir (py "report.pdf"))
               = Ok (home ++ [py "Uploads"; py "report.pdf"]))
    by (vm_compute; reflexivity).
  assert (H4 : Posix.tree sample_disk (home ++ [py "Uploads"; py "report.pdf"]) = None)
    by (vm_compute; reflexivity).
  assert (H5 : Posix.open_wb sample_disk (Posix.join downloadsDir (py "report.pdf"))
               = Ok (home ++ [py "Downloads"; py "report.pdf"],
                     Posix.set_node (home ++ [py "Downloads"; py "report.pdf"])
                       (Some (Posix.File [])) sample_disk))
    by reflexivity.
  assert (H6 : home ++ [py "Downloads"; py "report.pdf"]
               <> home ++ [py "Uploads"; py "report.pdf"])
    by discriminate.
  exact (@downloadFileUi_rejects_without_a_local_copy sample_disk _ _ _ _ _
           [bytes_of_string "%PDF"; bytes_of_string "-1.7"] _ _ H1 H2 H3 H4 H5 H6).
Defined.

Lemma same_hash_refl (h : option str) : same_hash h h = true.
Proof. destruct h as [x|]; [apply str_eqb_refl | reflexivity]. Qed.

Lemma calculateFileHash_same_location (disk : Posix.t) (a b : str) (loc : Posix.location) :
  Posix.locate disk a = Ok loc -> Posix.locate disk b = Ok loc ->
  calculateFileHash disk a = calculateFileHash disk b.
Proof.
  intros Ha Hb. unfold calculateFileHash, Posix.open_rb, Posix.stat.
  now rewrite Ha, Hb.
Qed.

(** When the path of the download and the path of the comparison are
    the same file, the two digests agree whatever was received. *)
Lemma client_verifies_against_itself (disk : Posix.t) (peer host filename : str) (port : Z)
      (segments : list bytes) (loc : Posix.location) :
  parse_peer peer = Ok (host, port) -> (0 <= port <= 65535)%Z ->
  Posix.open_wb disk (Posix.join downloadsDir filename)
  = Ok (loc, Posix.set_node loc (Some (Posix.File [])) disk) ->
  (forall supply, Posix.tree disk loc <> Some (Posix.Special supply)) ->
  Posix.locate disk (Posix.join uploadsDir filename) = Ok loc ->
  shown (snd (downloadFileUi peer filename (fetching disk segments))) = [Verified filename]
  /\ Posix.tree (fs (snd (downloadFileUi peer filename (fetching disk segments)))) loc
     = Some (Posix.File (concat segments)).
Proof.
  intros Hpeer Hport Hopen Hns UL.
  destruct (downloadFileUi_cases peer filename (fetching disk segments))
    as [(e & P & _)|(address & P & E)]; [congruence|].
  rewrite Hpeer in P. inversion P; subst address. clear P. rewrite E. clear E.
  cbn [fst snd]. rewrite transfer_connected by (assumption || reflexivity).
  match goal with |- context [receive_and_verify filename ?st] => set (s1 := st) end.
  pose proof (receive_and_verify_ends filename s1) as Hend.
  destruct (receive_and_verify filename s1) as [r s2]. cbn [fst snd] in *.
  destruct (recv_results_data chunkSize segments) as (Hfail & Hwr).
  assert (Hrec : received s1 = recv_results chunkSize (map Data segments)) by reflexivity.
  set (d2 := writes loc (flat_map (Posix.chunks chunkSize) segments)
               (Posix.set_node loc (Some (Posix.File [])) disk)).
  destruct (@target_after_writes _ _ _ _ (flat_map (Posix.chunks chunkSize) segments) Hopen)
    as (CW & OT & DT & L2 & T2). fold d2 in CW, OT, DT, L2, T2.
  assert (T2' : Posix.tree d2 loc = Some (Posix.File (concat segments))).
  { destruct (Posix.tree disk loc) as [[| |supply]|] eqn:E; rewrite T2;
      rewrite ?concat_flat_map_chunks by apply chunkSize_pos; try congruence;
      exfalso; now apply (Hns supply). }
  assert (UL2 : Posix.locate d2 (Posix.join uploadsDir filename) = Ok loc)
    by (eapply locate_agree; [exact CW | exact DT | exact UL]).
  pose proof (@calculateFileHash_same_location d2 _ _ loc L2 UL2) as Same.
  inversion Hend as [e Ho|loc' d1 e Ho Hf|loc' d1 dh oh Ho Hf Hd Hoo Hs
                    |loc' d1 dh oh Ho Hf Hd Hoo Hs]; subst;
    simpl fs in Ho; rewrite Hopen in Ho; inversion Ho; subst; clear Ho.
  - rewrite Hrec, Hfail in Hf. discriminate.
  - unfold conclude. cbn [fst snd fs sock shown].
    rewrite Hrec, Hwr. fold d2. split; [reflexivity | exact T2'].
  - exfalso. rewrite Hrec, Hwr in Hd, Hoo. fold d2 in Hd, Hoo.
    rewrite Same, Hoo in Hd. inversion Hd; subst.
    rewrite same_hash_refl in Hs. discriminate.
Qed.

(** X16 — For a file name [../name] the path of the download and the path
    the digest is compared with are one file, in the directory the program
    runs in: whatever bytes arrive, they are written there, over the file
    that was there, and reported as verified. *)
Theorem downloadFileUi_verifies_a_parent_reference_against_itself :
  forall (disk : Posix.t) (peer host name : str) (port : Z) (segments : list bytes),
    is_entry_name name = true ->
    Posix.tree disk (Posix.cwd disk) = Some Posix.Dir ->
    Posix.tree disk (Posix.cwd disk ++ [downloadsDir]) = Some Posix.Dir ->
    Posix.tree disk (Posix.cwd disk ++ [uploadsDir]) = Some Posix.Dir ->
    (Posix.tree disk (Posix.cwd disk ++ [name]) = None
     \/ exists old, Posix.tree disk (Posix.cwd disk ++ [name]) = Some (Posix.File old)) ->
    parse_peer peer = Ok (host, port) -> (0 <= port <= 65535)%Z ->
    shown (snd (downloadFileUi peer (py "../" ++ name) (fetching disk segments)))
    = [Verified (py "../" ++ name)]
    /\ Posix.tree
         (fs (snd (downloadFileUi peer (py "../" ++ name) (fetching disk segments))))
         (Posix.cwd disk ++ [name])
       = Some (Posix.File (concat segments)).
Proof.
  intros disk peer host name port segments Hname Hcwd Hdl Hup Hfile Hpeer Hport.
  pose proof (@locate_parent_reference disk downloadsDir name eq_refl Hname Hcwd Hdl) as DL.
  pose proof (@locate_parent_reference disk uploadsDir name eq_refl Hname Hcwd Hup) as UL.
  assert (Hopen : Posix.open_wb disk (Posix.join downloadsDir (py "../" ++ name))
                  = Ok (Posix.cwd disk ++ [name],
                        Posix.set_node (Posix.cwd disk ++ [name])
                          (Some (Posix.File [])) disk)).
  { unfold Posix.open_wb. rewrite DL.
    destruct Hfile as [E|[old E]]; rewrite E; destruct (Posix.cwd disk); reflexivity. }
  apply (@client_verifies_against_itself disk peer host (py "../" ++ name) port segments
           (Posix.cwd disk ++ [name]) Hpeer Hport Hopen); [|exact UL].
  intros supply E. destruct Hfile as [E'|[old E']]; congruence.
Qed.

Lemma downloadFileUi_verifies_a_parent_reference_against_itself_witness :
  shown (snd (downloadFileUi (py "10.0.0.2:5000") (py "../notes.txt")
                (fetching disk_with_notes [bytes_of_string "any"; bytes_of_string "thing"])))
  = [Verified (py "../notes.txt")]
  /\ Posix.tree
       (fs (snd (downloadFileUi (py "10.0.0.2:5000") (py "../notes.txt")
                   (fetching disk_with_notes
                      [bytes_of_string "any"; bytes_of_string "thing"]))))
       (home ++ [py "notes.txt"])
     = Some (Posix.File (bytes_of_string "anything")).
Proof.
  apply (@downloadFileUi_verifies_a_parent_reference_against_itself disk_with_notes
           (py "10.0.0.2:5000") (py "10.0.0.2") (py "notes.txt") 5000%Z
           [bytes_of_string "any"; bytes_of_string "thing"]);
    try (vm_compute; reflexivity).
  - right. exists (bytes_of_string "secret"). vm_compute. reflexivity.
  - lia.
Defined.

(** ** A transfer that breaks *)

Lemma recv_results_fault (n : nat) (segments : list bytes) (e : exn) :
  failure (recv_results n (map Data segments ++ [Fault e])) = Some e
  /\ written_chunks (recv_results n (map Data segments ++ [Fault e]))
     = flat_map (Posix.chunks n) segments.
Proof.
  induction segments as [|x xs (A & B)]; simpl; [auto|].
  rewrite failure_data, written_chunks_data, A, B. auto.
Qed.

(** X17 — When the connection fails while the file is received, the
    client shows that error and neither verifies nor removes: the file
    stays in the downloads directory with the bytes that had arrived. *)
Theorem downloadFileUi_keeps_what_arrived_before_a_failure :
  forall (disk : Posix.t) (peer host filename : str) (port : Z)
         (segments : list bytes) (e : exn) (dloc : Posix.location),
    parse_peer peer = Ok (host, port) -> (0 <= port <= 65535)%Z ->
    Posix.open_wb disk (Posix.join downloadsDir filename)
    = Ok (dloc, Posix.set_node dloc (Some (Posix.File [])) disk) ->
    (forall supply, Posix.tree disk dloc <> Some (Posix.Special supply)) ->
    shown (snd (downloadFileUi peer filename (fetching_until disk segments e)))
    = [ClientError e]
    /\ Posix.stat (fs (snd (downloadFileUi peer filename (fetching_until disk segments e))))
         (Posix.join downloadsDir filename)
       = Ok (dloc, Posix.File (concat segments)).
Proof.
  intros disk peer host filename port segments e dloc Hpeer Hport Hopen Hns.
  destruct (downloadFileUi_cases peer filename (fetching_until disk segments e))
    as [(e' & P & _)|(address & P & E)]; [congruence|].
  rewrite Hpeer in P. inversion P; subst address. clear P. rewrite E. clear E.
  cbn [fst snd]. rewrite transfer_connected by (assumption || reflexivity).
  match goal with |- context [receive_and_verify filename ?st] => set (s1 := st) end.
  pose proof (receive_and_verify_ends filename s1) as Hend.
  destruct (receive_and_verify filename s1) as [r s2]. cbn [fst snd] in *.
  destruct (recv_results_fault chunkSize segments e) as (Hfail & Hwr).
  assert (Hrec : received s1 = recv_results chunkSize (map Data segments ++ [Fault e]))
    by reflexivity.
  set (d2 := writes dloc (flat_map (Posix.chunks chunkSize) segments)
               (Posix.set_node dloc (Some (Posix.File [])) disk)).
  destruct (@target_after_writes _ _ _ _ (flat_map (Posix.chunks chunkSize) segments) Hopen)
    as (_ & _ & _ & L2 & T2). fold d2 in L2, T2.
  assert (T2' : Posix.tree d2 dloc = Some (Posix.File (concat segments))).
  { destruct (Posix.tree disk dloc) as [[| |supply]|] eqn:E; rewrite T2;
      rewrite ?concat_flat_map_chunks by apply chunkSize_pos; try congruence;
      exfalso; now apply (Hns supply). }
  inversion Hend as [e' Ho|loc' d1 e' Ho Hf|loc' d1 dh oh Ho Hf Hd Hoo Hs
                    |loc' d1 dh oh Ho Hf Hd Hoo Hs]; subst;
    simpl fs in Ho; rewrite Hopen in Ho; inversion Ho; subst; clear Ho;
    rewrite Hrec, Hfail in Hf; try discriminate.
  inversion Hf; subst e'.
  unfold conclude. cbn [fst snd fs sock shown].
  rewrite Hrec, Hwr. fold d2. split; [reflexivity|].
  apply stat_inv. split; assumption.
Qed.

Lemma downloadFileUi_keeps_what_arrived_before_a_failure_witness :
  shown (snd (downloadFileUi (py "10.0.0.2:5000") (py "hello.txt")
                (fetching_until sample_disk [bytes_of_string "hel"] (OSError ECONNRESET))))
  = [ClientError (OSError ECONNRESET)]
  /\ Posix.stat
       (fs (snd (downloadFileUi (py "10.0.0.2:5000") (py "hello.txt")
                   (fetching_until sample_disk [bytes_of_string "hel"]
                      (OSError ECONNRESET)))))
       (Posix.join downloadsDir (py "hello.txt"))
     = Ok (home ++ [py "Downloads"; py "hello.txt"], Posix.File (bytes_of_string "hel")).
Proof.
  apply (@downloadFileUi_keeps_what_arrived_before_a_failure sample_disk
           (py "10.0.0.2:5000") (py "10.0.0.2") (py "hello.txt") 5000%Z
           [bytes_of_string "hel"] (OSError ECONNRESET)
           (home ++ [py "Downloads"; py "hello.txt"]));
    try (vm_compute; reflexivity).
  - lia.
  - intros supply. vm_compute. discriminate.
Defined.

(** ** The form of a digest *)

Lemma round_length (v : SHA256.chain) (kw : SHA256.word * SHA256.word) :
  length v = 8 -> length (SHA256.round v kw) = 8.
Proof.
  intros H. do 9 (destruct v as [|? v]; try discriminate). reflexivity.
Qed.

Lemma rounds_length (kws : list (SHA256.word * SHA256.word)) :
  forall v, length v = 8 -> length (fold_left SHA256.round kws v) = 8.
Proof.
  induction kws as [|kw kws IH]; intros v H; [exact H|].
  cbn [fold_left]. apply IH, round_length, H.
Qed.

Lemma add_chain_length (x : SHA256.chain) :
  forall y, length (SHA256.add_chain x y) = Nat.min (length x) (length y).
Proof.
  induction x as [|a x IH]; intros [|b y]; cbn [SHA256.add_chain length Nat.min];
    try reflexivity.
  now rewrite IH.
Qed.

Lemma compress_length (h : SHA256.chain) (block : bytes) :
  length h = 8 -> length (SHA256.compress h block) = 8.
Proof.
  intros H. unfold SHA256.compress.
  rewrite add_chain_length, rounds_length, H by exact H. reflexivity.
Qed.

Lemma digest_words_length (msg : bytes) : length (SHA256.digest_words msg) = 8.
Proof.
  unfold SHA256.digest_words.
  assert (G : forall bs h, length h = 8 -> length (fold_left SHA256.compress bs h) = 8).
  { induction bs as [|b bs IH]; intros h H; [exact H|].
    cbn [fold_left]. apply IH, compress_length, H. }
  apply G. reflexivity.
Qed.

Lemma hex_digit_lower (n : Z) :
  (0 <= n < 16)%Z -> is_lower_hex (SHA256.hex_digit n) = true.
Proof.
  intros H. unfold SHA256.hex_digit, is_lower_hex.
  destruct (n <? 10)%Z eqn:E; [apply Z.ltb_lt in E | apply Z.ltb_ge in E];
    apply orb_true_iff; [left | right];
    apply andb_true_iff; split; apply N.leb_le; lia.
Qed.

Lemma hex_word_form (w : SHA256.word) :
  length (SHA256.hex_word w) = 8 /\ forallb is_lower_hex (SHA256.hex_word w) = true.
Proof.
  unfold SHA256.hex_word. split; [reflexivity|].
  cbn [map forallb].
  rewrite !hex_digit_lower by (apply Z.mod_pos_bound; lia). reflexivity.
Qed.

Lemma hex_form (h : SHA256.chain) :
  length (SHA256.hex h) = 8 * length h /\ forallb is_lower_hex (SHA256.hex h) = true.
Proof.
  unfold SHA256.hex. induction h as [|w h (L & F)]; [split; reflexivity|].
  destruct (hex_word_form w) as (Lw & Fw).
  cbn [flat_map]. rewrite length_app, forallb_app, Lw, L, Fw, F.
  split; [cbn [length]; lia | reflexivity].
Qed.

(** X18 — What [calculateFileHash] returns for a file it can read is a
    text of 64 characters, each a digit or a letter from [a] to [f], and
    it is the digest of the bytes of the file. *)
Theorem calculateFileHash_gives_64_hex_digits :
  forall (disk : Posix.t) (filePath h : str),
    calculateFileHash disk filePath = Ok (Some h) ->
    length h = 64
    /\ forallb is_lower_hex h = true
    /\ exists content, Posix.open_rb disk filePath = Ok content
                       /\ h = SHA256.sha256 content.
Proof.
  intros disk filePath h H.
  destruct (Posix.open_rb disk filePath) as [content|e] eqn:Hopen.
  - rewrite (calculateFileHash_content _ _ Hopen) in H. inversion H; subst h.
    destruct (hex_form (SHA256.digest_words content)) as (L & F).
    rewrite digest_words_length in L.
    split; [exact L|]. split; [exact F|]. exists content. auto.
  - unfold calculateFileHash in H. rewrite Hopen in H.
    destruct (is_IOError e); discriminate.
Qed.

Lemma calculateFileHash_gives_64_hex_digits_witness :
  calculateFileHash sample_disk (py "Uploads/hello.txt")
  = Ok (Some (py "2cf24dba5fb0a30e26e83b2ac5b9e29e1b161e5c1fa7425e73043362938b9824"))
  /\ length (py "2cf24dba5fb0a30e26e83b2ac5b9e29e1b161e5c1fa7425e73043362938b9824") = 64.
Proof.
  assert (H : calculateFileHash sample_disk (py "Uploads/hello.txt")
              = Ok (Some (py "2cf24dba5fb0a30e26e83b2ac5b9e29e1b161e5c1fa7425e73043362938b9824")))
    by (vm_compute; reflexivity).
  split; [exact H|].
  apply (@calculateFileHash_gives_64_hex_digits sample_disk (py "Uploads/hello.txt") _ H).
Defined.

(** ** The menu *)

Lemma menu_key_selection (selectedIdx key : Z) :
  (0 <= selectedIdx <= 4)%Z ->
  (0 <= fst (menu_key selectedIdx key) <= 4)%Z
  /\ (fst (menu_key selectedIdx key) <= selectedIdx + 1)%Z
  /\ (fst (menu_key selectedIdx key) = selectedIdx + 1 -> key = KEY_DOWN)%Z
  /\ (snd (menu_key selectedIdx key) = Some Quit -> selectedIdx = 4%Z)
  /\ (snd (menu_key selectedIdx key) <> None ->
      fst (menu_key selectedIdx key) = selectedIdx).
Proof.
  intros H. unfold menu_key.
  change (Z.of_nat (length options) - 1)%Z with 4%Z.
  destruct (key =? KEY_UP)%Z eqn:Eu; cbn [andb].
  - destruct (selectedIdx >? 0)%Z eqn:Ep; cbn [fst snd].
    + apply Z.gtb_lt in Ep. repeat split; try lia; try discriminate; congruence.
    + apply Z.eqb_eq in Eu. subst key. cbn [andb].
      change (KEY_UP =? KEY_DOWN)%Z with false. cbn [andb].
      change ((KEY_UP =? KEY_ENTER)%Z || existsb (Z.eqb KEY_UP) [10%Z; 13%Z]) with false.
      cbn [fst snd]. repeat split; try lia; try discriminate; congruence.
  - destruct (key =? KEY_DOWN)%Z eqn:Ed; cbn [andb].
    + apply Z.eqb_eq in Ed.
      destruct (selectedIdx <? 4)%Z eqn:El; cbn [fst snd].
      * apply Z.ltb_lt in El. repeat split; try lia; try discriminate; congruence.
      * subst key.
        change ((KEY_DOWN =? KEY_ENTER)%Z || existsb (Z.eqb KEY_DOWN) [10%Z; 13%Z])
          with false.
        cbn [fst snd]. repeat split; try lia; try discriminate; congruence.
    + destruct ((key =? KEY_ENTER)%Z || existsb (Z.eqb key) [10%Z; 13%Z]);
        [|cbn [fst snd]; repeat split; try lia; try discriminate; congruence].
      destruct (selectedIdx =? 4)%Z eqn:E4;
        [apply Z.eqb_eq in E4; cbn [fst snd]; repeat split; try lia; congruence|].
      destruct (selectedIdx =? 0)%Z, (selectedIdx =? 1)%Z, (selectedIdx =? 2)%Z,
               (selectedIdx =? 3)%Z;
        cbn [fst snd]; repeat split; try lia; try discriminate; congruence.
Qed.

Lemma displayUi_keys_selection (keys : list Z) :
  forall selectedIdx : Z,
    (0 <= selectedIdx <= 4)%Z ->
    (0 <= fst (displayUi_keys keys selectedIdx) <= 4)%Z
    /\ (In Quit (snd (displayUi_keys keys selectedIdx)) ->
        (4 - selectedIdx <= Z.of_nat (presses KEY_DOWN keys))%Z).
Proof.
  induction keys as [|key keys IH]; intros idx Hidx.
  - cbn [displayUi_keys fst snd]. split; [exact Hidx | intros []].
  - destruct (menu_key_selection key Hidx) as (Hr & Hup & Hdown & Hquit & Hsame).
    assert (Hcount : (Z.of_nat (presses KEY_DOWN keys)
                      <= Z.of_nat (presses KEY_DOWN (key :: keys)))%Z
                     /\ (fst (menu_key idx key) = idx + 1 ->
                         Z.of_nat (presses KEY_DOWN (key :: keys))
                         = Z.of_nat (presses KEY_DOWN keys) + 1)%Z).
    { unfold presses. cbn [filter].
      destruct (KEY_DOWN =? key)%Z eqn:E; cbn [length]; split; lia. }
    destruct Hcount as (Hmono & Hstep).
    cbn [displayUi_keys].
    destruct (menu_key idx key) as [idx' [started|]] eqn:Em; cbn [fst snd] in *.
    + assert (idx' = idx) by (apply Hsame; discriminate). subst idx'.
      destruct (IH idx Hidx) as (Ir & Iq).
      destruct started; cbn [fst snd];
        try (split; [exact Ir|]; intros [Hq|Hq]; [discriminate | specialize (Iq Hq); lia]).
      split; [exact Hidx|]. intros _. rewrite (Hquit eq_refl). lia.
    + destruct (IH idx' Hr) as (Ir & Iq).
      split; [exact Ir|]. intros Hq. specialize (Iq Hq).
      destruct (Z.eq_dec idx' (idx + 1)) as [E|E]; [specialize (Hstep E)|]; lia.
Qed.

(** X20 — The menu starts on its first option and [Quit] is the last
    one: the keys that end the program hold the down key four times at
    least. *)
Theorem displayUi_quits_after_four_keys_down :
  forall keys : list Z,
    In Quit (snd (displayUi_keys keys 0)) -> 4 <= presses KEY_DOWN keys.
Proof.
  intros keys H.
  destruct (@displayUi_keys_selection keys 0%Z) as (_ & Q); [lia|].
  specialize (Q H). lia.
Qed.

Lemma displayUi_quits_after_four_keys_down_witness :
  snd (displayUi_keys [KEY_DOWN; 10%Z; KEY_DOWN; KEY_DOWN; KEY_UP; KEY_DOWN; KEY_DOWN;
                       KEY_DOWN; KEY_ENTER; 13%Z] 0)
  = [RunListPeersUi; Quit]
  /\ 4 <= presses KEY_DOWN [KEY_DOWN; 10%Z; KEY_DOWN; KEY_DOWN; KEY_UP; KEY_DOWN; KEY_DOWN;
                            KEY_DOWN; KEY_ENTER; 13%Z].
Proof.
  split; [vm_compute; reflexivity|].
  apply (@displayUi_quits_after_four_keys_down
           [KEY_DOWN; 10%Z; KEY_DOWN; KEY_DOWN; KEY_UP; KEY_DOWN; KEY_DOWN;
            KEY_DOWN; KEY_ENTER; 13%Z]).
  vm_compute. right. left. reflexivity.
Defined.

(** ** A request that does not arrive whole *)

Lemma deliver_settles (v : Json.value) (stk : list Json.frame) :
  pending_or_settled (Json.deliver v stk) = true.
Proof. destruct stk as [|[done|done [k|]] stk]; reflexivity. Qed.

Lemma start_value_pending (c : N) (f : Json.frame) (stk : list Json.frame) :
  pending_or_settled (Json.start_value c (f :: stk)) = true.
Proof.
  unfold Json.start_value.
  repeat match goal with
         | |- context [if ?b then _ else _] => destruct b; try reflexivity
         end.
Qed.

Lemma between_pending (e : Json.expect) (f : Json.frame) (stk : list Json.frame) (c : N) :
  pending_or_settled (Json.between e (f :: stk) c) = true.
Proof.
  unfold Json.between. destruct (Json.is_ws c); [reflexivity|].
  destruct e; try apply start_value_pending;
    repeat match goal with
           | |- context [if ?b then _ else _] => destruct b
           | |- context [match ?x with _ => _ end] => destruct x
           | |- _ => reflexivity || apply deliver_settles || apply start_value_pending
           end.
Qed.

Lemma step_pending (st : Json.pstate) (c : N) :
  pending_or_settled st = true -> pending_or_settled (Json.step st c) = true.
Proof.
  destruct st as [m stk]. destruct m; cbn [Json.step].
  - destruct stk as [|f stk]; [discriminate | intros _; apply between_pending].
  - intros _. destruct (Json.is_ws c); reflexivity.
  - destruct stk as [|f stk]; [discriminate | intros _].
    unfold Json.in_string, Json.deliver_string.
    repeat match goal with
           | |- context [if ?b then _ else _] => destruct b
           | |- context [match ?x with _ => _ end] => destruct x
           | |- _ => reflexivity || apply deliver_settles
           end.
  - destruct stk as [|f stk]; [discriminate | intros _].
    unfold Json.in_escape.
    repeat match goal with
           | |- context [if ?b then _ else _] => destruct b; try reflexivity
           end.
  - destruct stk as [|f stk]; [discriminate | intros _].
    unfold Json.finish_unit, Json.fresh_unit.
    repeat match goal with
           | |- context [if ?b then _ else _] => destruct b
           | |- context [match ?x with _ => _ end] => destruct x
           | |- _ => reflexivity
           end.
  - destruct stk as [|f stk]; [discriminate | intros _].
    unfold Json.in_string, Json.deliver_string.
    repeat match goal with
           | |- context [if ?b then _ else _] => destruct b
           | |- context [match ?x with _ => _ end] => destruct x
           | |- _ => reflexivity || apply deliver_settles
           end.
  - destruct stk as [|f stk]; [discriminate | intros _].
    unfold Json.in_escape.
    repeat match goal with
           | |- context [if ?b then _ else _] => destruct b; try reflexivity
           end.
  - destruct stk as [|f stk]; [discriminate | intros _].
    destruct (Json.is_num_char c); [reflexivity|].
    destruct ((c =? 73)%N && str_eqb acc [45%N]); [reflexivity|].
    destruct (Json.valid_number acc); [|reflexivity].
    unfold Json.after_value.
    destruct f as [done|done [k|]]; cbn [Json.deliver]; try reflexivity;
      apply between_pending.
  - destruct stk as [|f stk]; [discriminate | intros _].
    destruct rest as [|x [|y rest]]; try reflexivity;
      destruct (c =? x)%N; try reflexivity; apply deliver_settles.
  - reflexivity.
Qed.

Lemma steps_pending (text : str) :
  forall st, pending_or_settled st = true ->
             pending_or_settled (fold_left Json.step text st) = true.
Proof.
  induction text as [|c text IH]; intros st H; [exact H|].
  cbn [fold_left]. apply IH, step_pending, H.
Qed.

Lemma steps_failed (text : str) : fold_left Json.step text Json.failed = Json.failed.
Proof. induction text as [|c text IH]; [reflexivity | exact IH]. Qed.

Lemma steps_done (text : str) (v : Json.value) (stk : list Json.frame) :
  fold_left Json.step text (Json.Done v, stk)
  = if forallb Json.is_ws text then (Json.Done v, stk) else Json.failed.
Proof.
  induction text as [|c text IH]; [reflexivity|].
  cbn [fold_left forallb Json.step].
  destruct (Json.is_ws c); cbn [andb]; [exact IH | apply steps_failed].
Qed.

Lemma forallb_last (f : N -> bool) (text : str) :
  text <> [] -> forallb f text = true -> f (last text 0%N) = true.
Proof.
  induction text as [|c text IH]; [congruence|].
  intros _ H. cbn [forallb] in H. apply andb_true_iff in H. destruct H as [Hc Ht].
  destruct text as [|d text]; [exact Hc|].
  apply IH; [discriminate | exact Ht].
Qed.

(** A text that [json.loads] reads as an object has no shorter beginning
    that [json.loads] reads. *)
Lemma loads_beginning (text : str) (v : Json.value) (n : nat) :
  Json.loads (123%N :: text) = Some v ->
  last (123%N :: text) 0%N = 125%N ->
  n < length (123%N :: text) ->
  Json.loads (firstn n (123%N :: text)) = None.
Proof.
  intros Hloads Hlast Hn.
  destruct n as [|m]; [reflexivity|].
  cbn [firstn length] in *. unfold Json.loads in *.
  change (123 =? 65279)%N with false in *. cbv iota in *. cbn [fold_left] in *.
  change (Json.step (Json.Between Json.EValue, []) 123)
    with (Json.Between Json.EKeyOrClose, [Json.FObj [] None]) in *.
  set (s1 := (Json.Between Json.EKeyOrClose, [Json.FObj [] None])) in *.
  assert (Hm : m < length text) by lia.
  assert (Hsplit : text = firstn m text ++ skipn m text)
    by (symmetry; apply firstn_skipn).
  assert (Hrest : skipn m text <> []).
  { intros E. apply (f_equal (@length N)) in E. rewrite length_skipn in E.
    cbn [length] in E. lia. }
  pose proof (@steps_pending (firstn m text) s1 eq_refl) as J.
  destruct (fold_left Json.step (firstn m text) s1) as [mode stk] eqn:E.
  destruct mode; try reflexivity.
  - destruct stk; [|reflexivity]. exfalso.
    rewrite Hsplit, fold_left_app, E, steps_done in Hloads.
    destruct (forallb Json.is_ws (skipn m text)) eqn:W; [|discriminate].
    apply (forallb_last _ Hrest) in W.
    assert (L : last (123%N :: text) 0%N = last (skipn m text) 0%N).
    { rewrite Hsplit at 1. change (123%N :: firstn m text ++ skipn m text)
        with ((123%N :: firstn m text) ++ skipn m text).
      destruct (@exists_last _ (skipn m text) Hrest) as (body & z & Ez).
      rewrite Ez, app_assoc, !last_last. reflexivity. }
    rewrite L in Hlast. rewrite Hlast in W. discriminate.
  - destruct stk; [discriminate | reflexivity].
Qed.

Lemma request_text_ends (filename : str) :
  exists body, request_text filename = 123%N :: body
               /\ last (123%N :: body) 0%N = 125%N.
Proof.
  rewrite request_text_shape.
  exists (skipn 1 (pyq "{'request': 'download', 'filename': '")
          ++ (flat_map Json.escape_char filename ++ pyq "'}")).
  split; [reflexivity|].
  replace (123%N :: skipn 1 (pyq "{'request': 'download', 'filename': '")
           ++ flat_map Json.escape_char filename ++ pyq "'}")
    with ((pyq "{'request': 'download', 'filename': '"
           ++ flat_map Json.escape_char filename ++ [34%N]) ++ [125%N]).
  - apply last_last.
  - cbn [app]. rewrite <- !app_assoc. reflexivity.
Qed.

Lemma forallb_firstn (f : N -> bool) (n : nat) (text : str) :
  forallb f text = true -> forallb f (firstn n text) = true.
Proof.
  revert n. induction text as [|c text IH]; intros [|n] H; try reflexivity.
  cbn [forallb firstn] in *. apply andb_true_iff in H. destruct H as [Hc Ht].
  now rewrite Hc, IH.
Qed.

(** The beginning of a request is no request. *)
Lemma parse_request_beginning (filename : str) (n : nat) :
  forallb UTF8.is_scalar filename = true ->
  n < length (request_bytes filename) ->
  parse_request (firstn n (request_bytes filename)) = Raise JSONDecodeError.
Proof.
  intros Hs Hn. rewrite request_bytes_eq in *. rewrite length_map in Hn.
  rewrite firstn_map.
  unfold parse_request, decode, json_loads.
  rewrite (@decode_ascii _ (@forallb_firstn _ n _ (request_text_ascii filename))).
  destruct (request_text_ends filename) as (body & Eb & Hlast).
  pose proof (loads_request_text filename Hs) as Hloads.
  rewrite Eb in *.
  now rewrite (@loads_beginning body _ n Hloads Hlast Hn).
Qed.

Lemma serve_request_unparsed (s : state) (data : bytes) (rest : list event) (e : exn) :
  closes (sock s) = 0 ->
  recv_from 1024 (inbox (sock s)) = (Ok data, rest) ->
  parse_request data = Raise e ->
  serve_request s = (Raise e, after_recv rest s).
Proof.
  intros Hc Hrecv Hparse.
  unfold serve_request, bind at 1, recv. rewrite Hc, Hrecv. simpl.
  unfold bind at 1, lift. rewrite Hparse. reflexivity.
Qed.

(** X21 — The handler reads the connection once.  When what that one
    [recv(1024)] returns is only the beginning of a request, because the
    request is longer than 1024 bytes or the transport delivered it in
    parts, the handler sends nothing and prints the error of
    [json.loads]. *)
Theorem handleClient_wants_the_request_in_one_recv :
  forall (s : state) (filename : str) (n : nat) (rest : list event),
    forallb UTF8.is_scalar filename = true ->
    closes (sock s) = 0 ->
    n < length (request_bytes filename) ->
    recv_from 1024 (inbox (sock s)) = (Ok (firstn n (request_bytes filename)), rest) ->
    sent (handleClient s) = outbox (sock s)
    /\ shown (snd (handleClient s)) = shown s ++ [HandlerError JSONDecodeError].
Proof.
  intros s filename n rest Hs Hc Hn Hrecv.
  destruct (handleClient_returns s) as (_ & _ & _ & O & Sh).
  pose proof (@serve_request_unparsed s _ rest JSONDecodeError Hc Hrecv
                (@parse_request_beginning filename n Hs Hn)) as E.
  unfold sent. rewrite O, Sh, E. split; reflexivity.
Qed.

Lemma handleClient_wants_the_request_in_one_recv_witness :
  1024 < length (request_bytes (repeat 97%N 1000))
  /\ sent (handleClient (serving sample_disk (request_bytes (repeat 97%N 1000)))) = []
  /\ shown (snd (handleClient (serving sample_disk (request_bytes (repeat 97%N 1000)))))
     = [HandlerError JSONDecodeError].
Proof.
  split; [apply Nat.ltb_lt; vm_compute; reflexivity|].
  apply (@handleClient_wants_the_request_in_one_recv
           (serving sample_disk (request_bytes (repeat 97%N 1000)))
           (repeat 97%N 1000) 1024
           [Data (skipn 1024 (request_bytes (repeat 97%N 1000)))]).
  - vm_compute. reflexivity.
  - reflexivity.
  - apply Nat.ltb_lt. vm_compute. reflexivity.
  - vm_compute. reflexivity.
Defined.

(** ** An empty file name *)

Lemma stat_directory_itself (disk : Posix.t) (dir : str) :
  is_entry_name dir = true ->
  Posix.tree disk (Posix.cwd disk) = Some Posix.Dir ->
  Posix.tree disk (Posix.cwd disk ++ [dir]) = Some Posix.Dir ->
  Posix.join dir [] = dir ++ [47%N]
  /\ Posix.stat disk (Posix.join dir []) = Ok (Posix.cwd disk ++ [dir], Posix.Dir).
Proof.
  intros Hdir Hcwd Hsub.
  destruct (entry_name_facts dir Hdir) as (Dne & D47 & Dbad & _ & Dstep).
  assert (J : Posix.join dir [] = dir ++ [47%N])
    by (rewrite join_dir by (assumption || now apply last_not_separator); reflexivity).
  split; [exact J|]. rewrite J.
  apply stat_inv. split; [|exact Hsub].
  unfold Posix.locate.
  rewrite existsb_app, Dbad. cbn [existsb orb].
  change (Posix.bad_path_char 47) with false. cbn [orb].
  destruct dir as [|d0 dir]; [congruence|].
  assert (Hd0 : (d0 =? 47)%N = false).
  { cbn [existsb] in D47. apply orb_false_iff in D47. rewrite N.eqb_sym. tauto. }
  cbn [app]. rewrite Hd0.
  change (d0 :: dir ++ [47%N]) with ((d0 :: dir) ++ 47%N :: []).
  rewrite split_on_segment by exact D47.
  cbn [Posix.split_on Posix.walk]. rewrite Hcwd, Dstep, Hsub.
  reflexivity.
Qed.

(** X22 — With an empty file name the joined path is the directory
    itself.  The handler finds that it exists, fails to open it and sends
    nothing; the client, which has sent its request by then, fails to open
    its downloads directory for writing, shows that error and leaves the
    disk as it was. *)
Theorem empty_file_name_transfers_nothing :
  forall (server client : Posix.t) (peer host : str) (port : Z) (segments : list bytes),
    Posix.tree server (Posix.cwd server) = Some Posix.Dir ->
    Posix.tree server (Posix.cwd server ++ [uploadsDir]) = Some Posix.Dir ->
    Posix.tree client (Posix.cwd client) = Some Posix.Dir ->
    Posix.tree client (Posix.cwd client ++ [downloadsDir]) = Some Posix.Dir ->
    parse_peer peer = Ok (host, port) -> (0 <= port <= 65535)%Z ->
    sent (handleClient (serving server (request_bytes []))) = []
    /\ shown (snd (handleClient (serving server (request_bytes []))))
       = [HandlerError (OSError EISDIR)]
    /\ shown (snd (downloadFileUi peer [] (fetching client segments)))
       = [ClientError (OSError EISDIR)]
    /\ fs (snd (downloadFileUi peer [] (fetching client segments))) = client
    /\ outbox (sock (snd (downloadFileUi peer [] (fetching client segments))))
       = [request_bytes []].
Proof.
  intros server client peer host port segments Scwd Sup Ccwd Cdl Hpeer Hport.
  destruct (@stat_directory_itself server uploadsDir eq_refl Scwd Sup) as (_ & SU).
  destruct (@stat_directory_itself client downloadsDir eq_refl Ccwd Cdl) as (_ & CD).
  assert (Hlen : length (request_bytes []) <= 1024)
    by (apply Nat.leb_le; vm_compute; reflexivity).
  pose proof (@handler_streams (serving server (request_bytes []))
                (request_bytes []) [] [] eq_refl
                (recv_whole (@request_bytes_not_empty []) Hlen)
                (proj2 (proj2 (@request_round_trip [] eq_refl)))) as H.
  simpl fs in H. rewrite SU in H. destruct H as (H1 & H2).
  split; [exact H1|]. split; [exact H2|].
  destruct (downloadFileUi_cases peer [] (fetching client segments))
    as [(e & P & _)|(address & P & E)]; [congruence|].
  rewrite Hpeer in P. inversion P; subst address. clear P. rewrite E. clear E.
  cbn [fst snd]. rewrite transfer_connected by (assumption || reflexivity).
  match goal with |- context [receive_and_verify [] ?st] => set (s1 := st) end.
  pose proof (receive_and_verify_ends [] s1) as Hend.
  destruct (receive_and_verify [] s1) as [r s2]. cbn [fst snd] in *.
  assert (Hopen : Posix.open_wb client (Posix.join downloadsDir [])
                  = Raise (OSError EISDIR)).
  { apply stat_inv in CD. destruct CD as (L & T).
    unfold Posix.open_wb. now rewrite L, T. }
  inversion Hend as [e Ho|loc d1 e Ho Hf|loc d1 dh oh Ho Hf Hd Hoo Hs
                    |loc d1 dh oh Ho Hf Hd Hoo Hs]; subst;
    simpl fs in Ho; rewrite Hopen in Ho; inversion Ho; subst.
  unfold conclude. cbn. auto.
Qed.

Lemma empty_file_name_transfers_nothing_witness :
  sent (handleClient (serving sample_disk (request_bytes []))) = []
  /\ shown (snd (handleClient (serving sample_disk (request_bytes []))))
     = [HandlerError (OSError EISDIR)]
  /\ shown (snd (downloadFileUi (py "10.0.0.2:5000") []
                   (fetching sample_disk [bytes_of_string "hello"])))
     = [ClientError (OSError EISDIR)]
  /\ fs (snd (downloadFileUi (py "10.0.0.2:5000") []
                (fetching sample_disk [bytes_of_string "hello"])))
     = sample_disk
  /\ outbox (sock (snd (downloadFileUi (py "10.0.0.2:5000") []
                          (fetching sample_disk [bytes_of_string "hello"]))))
     = [request_bytes []].
Proof.
  apply (@empty_file_name_transfers_nothing sample_disk sample_disk (py "10.0.0.2:5000")
           (py "10.0.0.2") 5000%Z [bytes_of_string "hello"]);
    try (vm_compute; reflexivity).
  lia.
Defined.

(** ** The chunks of the stream *)

Lemma chunks_fuel_full (n : nat) :
  0 < n -> forall fuel data,
  Forall (fun c => length c = n) (removelast (Posix.chunks_fuel fuel n data)).
Proof.
  intros Hn fuel; induction fuel as [|fuel IH]; intros data; [constructor|].
  destruct data as [|b data]; [constructor|].
  change (Posix.chunks_fuel (S fuel) n (b :: data))
    with (firstn n (b :: data) :: Posix.chunks_fuel fuel n (skipn n (b :: data))).
  specialize (IH (skipn n (b :: data))).
  destruct (Posix.chunks_fuel fuel n (skipn n (b :: data))) as [|c cs] eqn:E;
    [constructor|].
  change (removelast (firstn n (b :: data) :: c :: cs))
    with (firstn n (b :: data) :: removelast (c :: cs)).
  constructor; [|exact IH].
  apply firstn_length_le.
  destruct (Nat.le_gt_cases n (length (b :: data))) as [H|H]; [exact H|].
  rewrite skipn_all2 in E by lia.
  destruct fuel; discriminate.
Qed.

(** ** A request without a usable file name *)

(** X24 — A request to download that has no entry [filename], or one
    whose value is not a [str], makes the handler raise [KeyError] or
    [TypeError] before any file is looked at: nothing is sent and the
    error is printed. *)
Theorem handleClient_wants_a_file_name :
  forall (s : state) (data : bytes) (rest : list event)
         (request operation : Json.value),
    closes (sock s) = 0 ->
    recv_from 1024 (inbox (sock s)) = (Ok data, rest) ->
    parse_request data = Ok request ->
    subscript request (py "request") = Ok operation ->
    equals_str operation (py "download") = true ->
    match subscript request (py "filename") with
    | Ok (Json.Str _) => True
    | Ok _ =>
        sent (handleClient s) = outbox (sock s)
        /\ shown (snd (handleClient s)) = shown s ++ [HandlerError TypeError]
    | Raise e =>
        sent (handleClient s) = outbox (sock s)
        /\ shown (snd (handleClient s)) = shown s ++ [HandlerError e]
    end.
Proof.
  intros s data rest request operation Hc Hrecv Hparse Hop Heq.
  destruct (handleClient_returns s) as (_ & _ & _ & O & Sh).
  unfold sent. rewrite O, Sh.
  assert (E : serve_request s
              = (filename <- lift (subscript request (py "filename")) ;;
                 filePath <- lift (os_path_join uploadsDir filename) ;;
                 present <- (fun s => (Ok (Posix.exists_ (fs s) filePath), s)) ;;
                 if (present : bool) then
                   f <- open_rb filePath ;;
                   for_each (Posix.chunks chunkSize f) sendall
                 else sendall []) (after_recv rest s)).
  { unfold serve_request, bind at 1, recv. rewrite Hc, Hrecv. simpl.
    unfold bind at 1, lift. rewrite Hparse.
    unfold bind at 1. rewrite Hop, Heq. reflexivity. }
  rewrite E. unfold bind at 1, lift.
  destruct (subscript request (py "filename")) as [[| | | | |]|e];
    try exact I; split; reflexivity.
Qed.

Lemma handleClient_wants_a_file_name_witness :
  sent (handleClient (serving sample_disk (utf8 (pyq "{'request': 'download'}")))) = []
  /\ shown (snd (handleClient (serving sample_disk (utf8 (pyq "{'request': 'download'}")))))
     = [HandlerError (KeyError (py "filename"))].
Proof.
  exact (@handleClient_wants_a_file_name
           (serving sample_disk (utf8 (pyq "{'request': 'download'}")))
           (utf8 (pyq "{'request': 'download'}")) []
           (Json.Obj [(py "request", Json.Str (py "download"))])
           (Json.Str (py "download"))
           eq_refl eq_refl eq_refl eq_refl eq_refl).
Defined.

(** ** The course of a download *)




(** ** The comparison of the digests *)

Lemma calculateFileHash_node (disk disk' : Posix.t) (path : str) (loc : Posix.location) :
  Posix.locate disk path = Ok loc -> Posix.locate disk' path = Ok loc ->
  Posix.tree disk' loc = Posix.tree disk loc ->
  calculateFileHash disk' path = calculateFileHash disk path.
Proof.
  intros L L' T. unfold calculateFileHash, Posix.open_rb, Posix.stat.
  now rewrite L, L', T.
Qed.

(** A download that runs to its end, into a regular file that is not the
    file it is compared with: the digest of what arrived is compared with
    the digest of the client's own file of that name. *)
Lemma client_compares (disk : Posix.t) (peer host filename : str) (port : Z)
      (segments : list bytes) (uloc dloc : Posix.location) :
  parse_peer peer = Ok (host, port) -> (0 <= port <= 65535)%Z ->
  Posix.open_wb disk (Posix.join downloadsDir filename)
  = Ok (dloc, Posix.set_node dloc (Some (Posix.File [])) disk) ->
  Posix.locate disk (Posix.join uploadsDir filename) = Ok uloc ->
  dloc <> uloc ->
  exists oh,
    calculateFileHash disk (Posix.join uploadsDir filename) = Ok oh
    /\ outbox (sock (snd (downloadFileUi peer filename (fetching disk segments))))
       = [request_bytes filename]
    /\ (forall l, l <> dloc ->
          Posix.tree (fs (snd (downloadFileUi peer filename (fetching disk segments)))) l
          = Posix.tree disk l)
    /\ (same_hash (Some (SHA256.sha256 (concat segments))) oh = true ->
        shown (snd (downloadFileUi peer filename (fetching disk segments)))
        = [Verified filename]
        /\ Posix.stat (fs (snd (downloadFileUi peer filename (fetching disk segments))))
             (Posix.join downloadsDir filename)
           = Ok (dloc, Posix.File (concat segments)))
    /\ (same_hash (Some (SHA256.sha256 (concat segments))) oh = false ->
        shown (snd (downloadFileUi peer filename (fetching disk segments)))
        = [VerificationFailed]
        /\ Posix.tree (fs (snd (downloadFileUi peer filename (fetching disk segments)))) dloc
           = None).
Proof.
  intros Hpeer Hport Hopen UL Hne.
  destruct (@calculateFileHash_returns disk (Posix.join uploadsDir filename)
              (locate_acceptable _ _ UL)) as (oh & Hoh).
  exists oh. split; [exact Hoh|].
  destruct (downloadFileUi_cases peer filename (fetching disk segments))
    as [(e & P & _)|(address & P & E)]; [congruence|].
  rewrite Hpeer in P. inversion P; subst address. clear P. rewrite E. clear E.
  cbn [fst snd]. rewrite transfer_connected by (assumption || reflexivity).
  match goal with |- context [receive_and_verify filename ?st] => set (s1 := st) end.
  pose proof (receive_and_verify_ends filename s1) as Hend.
  destruct (receive_and_verify filename s1) as [r s2]. cbn [fst snd] in *.
  destruct (recv_results_data chunkSize segments) as (Hfail & Hwr).
  assert (Hrec : received s1 = recv_results chunkSize (map Data segments)) by reflexivity.
  destruct (@open_wb_ok _ _ _ _ Hopen) as (DL & _ & _ & _ & AT).
  assert (Hns : forall supply, Posix.tree disk dloc <> Some (Posix.Special supply)).
  { intros supply Hsp. rewrite Hsp in AT.
    apply (f_equal (fun d => Posix.tree d dloc)) in AT. simpl in AT.
    rewrite location_eqb_refl in AT. congruence. }
  set (d2 := writes dloc (flat_map (Posix.chunks chunkSize) segments)
               (Posix.set_node dloc (Some (Posix.File [])) disk)).
  destruct (@target_after_writes _ _ _ _ (flat_map (Posix.chunks chunkSize) segments) Hopen)
    as (CW & OT & DT & L2 & T2). fold d2 in CW, OT, DT, L2, T2.
  assert (T2' : Posix.tree d2 dloc = Some (Posix.File (concat segments))).
  { destruct (Posix.tree disk dloc) as [[| |supply]|] eqn:E; rewrite T2;
      rewrite ?concat_flat_map_chunks by apply chunkSize_pos; try congruence;
      exfalso; now apply (Hns supply). }
  assert (Hdh : calculateFileHash d2 (Posix.join downloadsDir filename)
                = Ok (Some (SHA256.sha256 (concat segments))))
    by (apply calculateFileHash_content; eapply open_rb_file; eauto).
  assert (UL2 : Posix.locate d2 (Posix.join uploadsDir filename) = Ok uloc)
    by (eapply locate_agree; [exact CW | exact DT | exact UL]).
  assert (Hoh2 : calculateFileHash d2 (Posix.join uploadsDir filename) = Ok oh).
  { rewrite <- Hoh. apply (@calculateFileHash_node disk d2 _ uloc UL UL2).
    apply OT. congruence. }
  inversion Hend as [e Ho|loc d1 e Ho Hf|loc d1 dh oh' Ho Hf Hd Hoo Hs
                    |loc d1 dh oh' Ho Hf Hd Hoo Hs]; subst;
    simpl fs in Ho; rewrite Hopen in Ho; inversion Ho; subst; clear Ho;
    try (rewrite Hrec, Hfail in Hf; discriminate);
    rewrite Hrec, Hwr in Hd, Hoo; fold d2 in Hd, Hoo;
    rewrite Hdh in Hd; rewrite Hoh2 in Hoo; inversion Hd; inversion Hoo; subst;
    unfold conclude; cbn [fst snd fs sock shown closed_socket outbox closes];
    rewrite Hrec, Hwr; fold d2.
  - split; [reflexivity|]. split; [exact OT|].
    split; [intros _; split; [reflexivity | apply stat_inv; auto]|].
    intros Hb. rewrite Hb in Hs. discriminate.
  - split; [reflexivity|].
    split.
    { intros l Hl. cbn [Posix.set_node Posix.tree].
      rewrite (location_eqb_neq Hl). now apply OT. }
    split; [intros Hb; rewrite Hb in Hs; discriminate|].
    intros _. split; [reflexivity|].
    cbn [Posix.set_node Posix.tree]. now rewrite location_eqb_refl.
Qed.

(** C1, as the specification words it, fails: [hello.txt] is among the
    served files of the handler, the handler sends it whole and the
    client, on another node, writes it; but the client has no file of
    that name in its own served directory, so the comparison reports a
    failure and the copy is removed. *)
Lemma C1_counterexample :
  Posix.stat sample_disk (Posix.join uploadsDir (py "hello.txt"))
  = Ok (home ++ [py "Uploads"; py "hello.txt"], Posix.File (bytes_of_string "hello"))
  /\ sent (handleClient (serving sample_disk (request_bytes (py "hello.txt"))))
     = [bytes_of_string "hello"]
  /\ shown (snd (downloadFileUi (py "10.0.0.2:5000") (py "hello.txt")
                   (fetching fresh_disk [bytes_of_string "hello"])))
     = [VerificationFailed]
  /\ Posix.exists_
       (fs (snd (downloadFileUi (py "10.0.0.2:5000") (py "hello.txt")
                   (fetching fresh_disk [bytes_of_string "hello"]))))
       (Posix.join downloadsDir (py "hello.txt"))
     = false.
Proof. repeat split; vm_compute; reflexivity. Qed.

(** C1, amended — A file that is among the served files of the handler is
    requested in a request that fits the one [recv(1024)] of the handler;
    the network delivers what the handler sent, in any segmentation; the
    client can make its local file, which is not the file it compares
    with.  Then what the handler sent, put end to end, is the content of
    the file, in chunks of at most [chunkSize] bytes, whatever the size of
    the file; the client has sent the one request and changes no other
    file.  The digest of what the client wrote is compared with the digest
    of the file of that name in the served directory of the client itself
    (the handler sends no digest): when the two agree, as they do when
    that file has the content of the served one, the success is reported
    and the local copy has the content of the served file; when they do
    not, as when the client has no such file, the verification failure is
    reported and the local copy is removed. *)
Theorem C1_download_round_trip :
  forall (server client : Posix.t) (peer host filename : str) (port : Z)
         (content : bytes) (segments : list bytes) (sloc uloc dloc : Posix.location),
    forallb UTF8.is_scalar filename = true ->
    length (request_bytes filename) <= 1024 ->
    Posix.stat server (Posix.join uploadsDir filename) = Ok (sloc, Posix.File content) ->
    Posix.open_wb client (Posix.join downloadsDir filename)
    = Ok (dloc, Posix.set_node dloc (Some (Posix.File [])) client) ->
    Posix.locate client (Posix.join uploadsDir filename) = Ok uloc ->
    dloc <> uloc ->
    parse_peer peer = Ok (host, port) -> (0 <= port <= 65535)%Z ->
    concat segments
    = concat (sent (handleClient (serving server (request_bytes filename)))) ->
    concat (sent (handleClient (serving server (request_bytes filename)))) = content
    /\ Forall (fun chunk => chunk <> [] /\ length chunk <= chunkSize)
              (sent (handleClient (serving server (request_bytes filename))))
    /\ outbox (sock (snd (downloadFileUi peer filename (fetching client segments))))
       = [request_bytes filename]
    /\ (forall l, l <> dloc ->
          Posix.tree (fs (snd (downloadFileUi peer filename (fetching client segments)))) l
          = Posix.tree client l)
    /\ exists reference,
         calculateFileHash client (Posix.join uploadsDir filename) = Ok reference
         /\ (Posix.tree client uloc = Some (Posix.File content) ->
             reference = Some (SHA256.sha256 content))
         /\ (Posix.tree client uloc = None -> reference = None)
         /\ (same_hash (Some (SHA256.sha256 content)) reference = true ->
             shown (snd (downloadFileUi peer filename (fetching client segments)))
             = [Verified filename]
             /\ Posix.stat (fs (snd (downloadFileUi peer filename (fetching client segments))))
                  (Posix.join downloadsDir filename)
                = Ok (dloc, Posix.File content))
         /\ (same_hash (Some (SHA256.sha256 content)) reference = false ->
             shown (snd (downloadFileUi peer filename (fetching client segments)))
             = [VerificationFailed]
             /\ Posix.tree
                  (fs (snd (downloadFileUi peer filename (fetching client segments)))) dloc
                = None).
Proof.
  intros server client peer host filename port content segments sloc uloc dloc
         Hs Hlen Hstat Hopen UL Hne Hpeer Hport Hnet.
  pose proof (@handler_serves_file server filename sloc content Hs Hlen Hstat) as Hsent.
  rewrite Hsent in *.
  assert (Hcat : concat segments = content)
    by (rewrite Hnet; apply concat_chunks, chunkSize_pos).
  split; [apply concat_chunks, chunkSize_pos|].
  split; [apply chunks_fuel_bounds, chunkSize_pos|].
  destruct (@client_compares client peer host filename port segments uloc dloc
              Hpeer Hport Hopen UL Hne) as (oh & Hoh & Out & Fr & Yes & No).
  rewrite Hcat in Yes, No.
  split; [exact Out|]. split; [exact Fr|].
  exists oh. split; [exact Hoh|].
  split.
  { intros T. rewrite (calculateFileHash_content _ _ (open_rb_file _ _ UL T)) in Hoh.
    now inversion Hoh. }
  split.
  { intros T. unfold calculateFileHash, Posix.open_rb, Posix.stat in Hoh.
    rewrite UL, T in Hoh. cbn in Hoh. now inversion Hoh. }
  split; assumption.
Qed.

Lemma C1_witness :
  (shown (snd (downloadFileUi (py "127.0.0.1:5000") (py "hello.txt")
                 (fetching sample_disk [bytes_of_string "hel"; bytes_of_string "lo"])))
   = [Verified (py "hello.txt")]
   /\ Posix.stat
        (fs (snd (downloadFileUi (py "127.0.0.1:5000") (py "hello.txt")
                    (fetching sample_disk [bytes_of_string "hel"; bytes_of_string "lo"]))))
        (Posix.join downloadsDir (py "hello.txt"))
      = Ok (home ++ [py "Downloads"; py "hello.txt"], Posix.File (bytes_of_string "hello")))
  /\ shown (snd (downloadFileUi (py "127.0.0.1:5000") (py "hello.txt")
                   (fetching fresh_disk [bytes_of_string "hel"; bytes_of_string "lo"])))
     = [VerificationFailed].
Proof.
  assert (H1 : forallb UTF8.is_scalar (py "hello.txt") = true) by (vm_compute; reflexivity).
  assert (H2 : length (request_bytes (py "hello.txt")) <= 1024)
    by (apply Nat.leb_le; vm_compute; reflexivity).
  assert (H3 : Posix.stat sample_disk (Posix.join uploadsDir (py "hello.txt"))
               = Ok (home ++ [py "Uploads"; py "hello.txt"],
                     Posix.File (bytes_of_string "hello")))
    by (vm_compute; reflexivity).
  assert (H7 : parse_peer (py "127.0.0.1:5000") = Ok (py "127.0.0.1", 5000%Z))
    by (vm_compute; reflexivity).
  assert (H8 : (0 <= 5000 <= 65535)%Z) by lia.
  assert (H9 : concat [bytes_of_string "hel"; bytes_of_string "lo"]
               = concat (sent (handleClient
                                 (serving sample_disk (request_bytes (py "hello.txt"))))))
    by (vm_compute; reflexivity).
  assert (H6 : home ++ [py "Downloads"; py "hello.txt"]
               <> home ++ [py "Uploads"; py "hello.txt"]) by discriminate.
  split.
  - assert (H4 : Posix.open_wb sample_disk (Posix.join downloadsDir (py "hello.txt"))
                 = Ok (home ++ [py "Downloads"; py "hello.txt"],
                       Posix.set_node (home ++ [py "Downloads"; py "hello.txt"])
                         (Some (Posix.File [])) sample_disk))
      by reflexivity.
    assert (H5 : Posix.locate sample_disk (Posix.join uploadsDir (py "hello.txt"))
                 = Ok (home ++ [py "Uploads"; py "hello.txt"]))
      by (vm_compute; reflexivity).
    destruct (@C1_download_round_trip sample_disk sample_disk (py "127.0.0.1:5000")
                (py "127.0.0.1") (py "hello.txt") 5000%Z (bytes_of_string "hello")
                [bytes_of_string "hel"; bytes_of_string "lo"]
                (home ++ [py "Uploads"; py "hello.txt"])
                (home ++ [py "Uploads"; py "hello.txt"])
                (home ++ [py "Downloads"; py "hello.txt"])
                H1 H2 H3 H4 H5 H6 H7 H8 H9)
      as (_ & _ & _ & _ & reference & _ & Same & _ & Yes & _).
    apply Yes. rewrite (Same eq_refl). apply str_eqb_refl.
  - assert (H4 : Posix.open_wb fresh_disk (Posix.join downloadsDir (py "hello.txt"))
                 = Ok (home ++ [py "Downloads"; py "hello.txt"],
                       Posix.set_node (home ++ [py "Downloads"; py "hello.txt"])
                         (Some (Posix.File [])) fresh_disk))
      by reflexivity.
    assert (H5 : Posix.locate fresh_disk (Posix.join uploadsDir (py "hello.txt"))
                 = Ok (home ++ [py "Uploads"; py "hello.txt"]))
      by (vm_compute; reflexivity).
    destruct (@C1_download_round_trip sample_disk fresh_disk (py "127.0.0.1:5000")
                (py "127.0.0.1") (py "hello.txt") 5000%Z (bytes_of_string "hello")
                [bytes_of_string "hel"; bytes_of_string "lo"]
                (home ++ [py "Uploads"; py "hello.txt"])
                (home ++ [py "Uploads"; py "hello.txt"])
                (home ++ [py "Downloads"; py "hello.txt"])
                H1 H2 H3 H4 H5 H6 H7 H8 H9)
      as (_ & _ & _ & _ & reference & _ & _ & Missing & _ & No).
    apply No. now rewrite (Missing eq_refl).
Defined.

(** When the local file cannot be made, the client has sent its request,
    shows the error of [open] and leaves the disk as it was. *)
Lemma client_cannot_open (disk : Posix.t) (peer host filename : str) (port : Z)
      (segments : list bytes) (e : exn) :
  parse_peer peer = Ok (host, port) -> (0 <= port <= 65535)%Z ->
  Posix.open_wb disk (Posix.join downloadsDir filename) = Raise e ->
  shown (snd (downloadFileUi peer filename (fetching disk segments))) = [ClientError e]
  /\ fs (snd (downloadFileUi peer filename (fetching disk segments))) = disk
  /\ outbox (sock (snd (downloadFileUi peer filename (fetching disk segments))))
     = [request_bytes filename].
Proof.
  intros Hpeer Hport Hopen.
  destruct (downloadFileUi_cases peer filename (fetching disk segments))
    as [(e' & P & _)|(address & P & E)]; [congruence|].
  rewrite Hpeer in P. inversion P; subst address. clear P. rewrite E. clear E.
  cbn [fst snd]. rewrite transfer_connected by (assumption || reflexivity).
  match goal with |- context [receive_and_verify filename ?st] => set (s1 := st) end.
  pose proof (receive_and_verify_ends filename s1) as Hend.
  destruct (receive_and_verify filename s1) as [r s2]. cbn [fst snd] in *.
  inversion Hend as [e' Ho|loc d1 e' Ho Hf|loc d1 dh oh Ho Hf Hd Hoo Hs
                    |loc d1 dh oh Ho Hf Hd Hoo Hs]; subst;
    simpl fs in Ho; rewrite Hopen in Ho; inversion Ho; subst.
  unfold conclude. cbn. auto.
Qed.

(** C2, amended — A file name that is not among the served files of the
    handler is requested in a request that fits the one [recv(1024)]; the
    network delivers what the handler sent.  Then zero bytes arrive.  The
    client has no outcome of its own for a file that was not found: when
    it cannot make its local file it shows the error of [open] and leaves
    the disk as it was; when it can, and the file it compares with is
    another one and is not there either, it shows the verification failure
    and removes the empty local file. *)
Theorem C2_missing_file_is_a_verification_failure :
  forall (server client : Posix.t) (peer host filename : str) (port : Z)
         (segments : list bytes),
    forallb UTF8.is_scalar filename = true ->
    length (request_bytes filename) <= 1024 ->
    Posix.exists_ server (Posix.join uploadsDir filename) = false ->
    parse_peer peer = Ok (host, port) -> (0 <= port <= 65535)%Z ->
    concat segments
    = concat (sent (handleClient (serving server (request_bytes filename)))) ->
    concat (sent (handleClient (serving server (request_bytes filename)))) = []
    /\ concat segments = []
    /\ (forall e,
          Posix.open_wb client (Posix.join downloadsDir filename) = Raise e ->
          shown (snd (downloadFileUi peer filename (fetching client segments)))
          = [ClientError e]
          /\ fs (snd (downloadFileUi peer filename (fetching client segments))) = client)
    /\ (forall dloc uloc,
          Posix.open_wb client (Posix.join downloadsDir filename)
          = Ok (dloc, Posix.set_node dloc (Some (Posix.File [])) client) ->
          Posix.locate client (Posix.join uploadsDir filename) = Ok uloc ->
          dloc <> uloc ->
          Posix.tree client uloc = None ->
          shown (snd (downloadFileUi peer filename (fetching client segments)))
          = [VerificationFailed]
          /\ Posix.tree (fs (snd (downloadFileUi peer filename (fetching client segments))))
               dloc
             = None
          /\ forall l, l <> dloc ->
               Posix.tree (fs (snd (downloadFileUi peer filename (fetching client segments))))
                 l
               = Posix.tree client l).
Proof.
  intros server client peer host filename port segments Hs Hlen Hmiss Hpeer Hport Hnet.
  pose proof (handler_sends_nothing server filename Hs Hlen Hmiss) as Hzero.
  rewrite Hzero in Hnet.
  split; [exact Hzero|]. split; [exact Hnet|].
  split.
  - intros e Hopen.
    destruct (@client_cannot_open client peer host filename port segments e
                Hpeer Hport Hopen) as (A & B & _).
    auto.
  - intros dloc uloc Hopen UL Hne UT.
    destruct (@client_rejects client _ peer host filename port segments uloc dloc
                Hpeer Hport UL UT Hopen Hne) as (_ & Sh & T & O).
    auto.
Qed.

Lemma C2_witness :
  (shown (snd (downloadFileUi (py "127.0.0.1:5000") (py "missing.txt")
                 (fetching sample_disk [[]])))
   = [VerificationFailed]
   /\ Posix.tree (fs (snd (downloadFileUi (py "127.0.0.1:5000") (py "missing.txt")
                             (fetching sample_disk [[]]))))
        (home ++ [py "Downloads"; py "missing.txt"])
      = None)
  /\ shown (snd (downloadFileUi (py "127.0.0.1:5000") (py "nosub/missing.txt")
                   (fetching sample_disk [])))
     = [ClientError (OSError ENOENT)].
Proof.
  assert (H7 : parse_peer (py "127.0.0.1:5000") = Ok (py "127.0.0.1", 5000%Z))
    by (vm_compute; reflexivity).
  assert (H8 : (0 <= 5000 <= 65535)%Z) by lia.
  split.
  - assert (H1 : forallb UTF8.is_scalar (py "missing.txt") = true)
      by (vm_compute; reflexivity).
    assert (H2 : length (request_bytes (py "missing.txt")) <= 1024)
      by (apply Nat.leb_le; vm_compute; reflexivity).
    assert (H3 : Posix.exists_ sample_disk (Posix.join uploadsDir (py "missing.txt")) = false)
      by (vm_compute; reflexivity).
    assert (H9 : concat [[]]
                 = concat (sent (handleClient
                                   (serving sample_disk (request_bytes (py "missing.txt"))))))
      by (vm_compute; reflexivity).
    destruct (@C2_missing_file_is_a_verification_failure sample_disk sample_disk
                (py "127.0.0.1:5000") (py "127.0.0.1") (py "missing.txt") 5000%Z [[]]
                H1 H2 H3 H7 H8 H9) as (_ & _ & _ & Made).
    destruct (Made (home ++ [py "Downloads"; py "missing.txt"])
                   (home ++ [py "Uploads"; py "missing.txt"])) as (A & B & _);
      try (vm_compute; reflexivity); [discriminate|].
    split; assumption.
  - assert (H1 : forallb UTF8.is_scalar (py "nosub/missing.txt") = true)
      by (vm_compute; reflexivity).
    assert (H2 : length (request_bytes (py "nosub/missing.txt")) <= 1024)
      by (apply Nat.leb_le; vm_compute; reflexivity).
    assert (H3 : Posix.exists_ sample_disk (Posix.join uploadsDir (py "nosub/missing.txt"))
                 = false)
      by (vm_compute; reflexivity).
    assert (H9 : concat []
                 = concat (sent (handleClient
                                   (serving sample_disk
                                      (request_bytes (py "nosub/missing.txt"))))))
      by (vm_compute; reflexivity).
    destruct (@C2_missing_file_is_a_verification_failure sample_disk sample_disk
                (py "127.0.0.1:5000") (py "127.0.0.1") (py "nosub/missing.txt") 5000%Z []
                H1 H2 H3 H7 H8 H9) as (_ & _ & Closed & _).
    destruct (Closed (OSError ENOENT)) as (A & _); [vm_compute; reflexivity | exact A].
Defined.

(** C9, amended — The client joins the downloads directory and the file
    name as they are, opens what the path resolves to and writes there
    what it receives; no other location changes.  A file name with a
    separator can leave the downloads directory: with [../] before a name
    the bytes that arrive are written to the entry of that name in the
    directory the program runs in, and with [/] before a name to the entry
    of that name in the root, neither of them below the downloads
    directory, and they stay there (the file the client compares with is
    then the same file).  A plain name resolves to an entry of the
    downloads directory. *)
Theorem C9_write_target_is_the_unchecked_join :
  forall (client : Posix.t) (peer host name : str) (port : Z) (segments : list bytes),
    is_entry_name name = true ->
    Posix.tree client [] = Some Posix.Dir ->
    Posix.tree client (Posix.cwd client) = Some Posix.Dir ->
    Posix.tree client (downloads_location client) = Some Posix.Dir ->
    Posix.tree client (Posix.cwd client ++ [uploadsDir]) = Some Posix.Dir ->
    (Posix.tree client (Posix.cwd client ++ [name]) = None
     \/ exists old, Posix.tree client (Posix.cwd client ++ [name]) = Some (Posix.File old)) ->
    (Posix.tree client [name] = None
     \/ exists old, Posix.tree client [name] = Some (Posix.File old)) ->
    parse_peer peer = Ok (host, port) -> (0 <= port <= 65535)%Z ->
    (forall filename l,
        Posix.tree (fs (snd (downloadFileUi peer filename (fetching client segments)))) l
        <> Posix.tree client l ->
        Posix.locate client (Posix.join downloadsDir filename) = Ok l)
    /\ Posix.locate client (Posix.join downloadsDir (py "../" ++ name))
       = Ok (Posix.cwd client ++ [name])
    /\ below (downloads_location client) (Posix.cwd client ++ [name]) = false
    /\ Posix.tree
         (fs (snd (downloadFileUi peer (py "../" ++ name) (fetching client segments))))
         (Posix.cwd client ++ [name])
       = Some (Posix.File (concat segments))
    /\ Posix.locate client (Posix.join downloadsDir (47%N :: name)) = Ok [name]
    /\ below (downloads_location client) [name] = false
    /\ Posix.tree
         (fs (snd (downloadFileUi peer (47%N :: name) (fetching client segments))))
         [name]
       = Some (Posix.File (concat segments))
    /\ Posix.locate client (Posix.join downloadsDir name)
       = Ok (downloads_location client ++ [name])
    /\ below (downloads_location client) (downloads_location client ++ [name]) = true.
Proof.
  intros client peer host name port segments Hname Hroot Hcwd Hdl Hup Hbeside Htop
         Hpeer Hport.
  destruct (@write_targets client name Hname Hroot Hcwd Hdl) as (A & B & C).
  pose proof (@locate_parent_reference client uploadsDir name eq_refl Hname Hcwd Hup) as UB.
  split.
  { intros filename l. apply (@client_changes_target_only peer filename
                                (fetching client segments) l). }
  split; [exact B|]. split; [apply below_sibling|].
  split.
  { assert (Hopen : Posix.open_wb client (Posix.join downloadsDir (py "../" ++ name))
                    = Ok (Posix.cwd client ++ [name],
                          Posix.set_node (Posix.cwd client ++ [name])
                            (Some (Posix.File [])) client)).
    { unfold Posix.open_wb. rewrite B.
      destruct Hbeside as [E|[old E]]; rewrite E; destruct (Posix.cwd client); reflexivity. }
    apply (@client_verifies_against_itself client peer host (py "../" ++ name) port
             segments (Posix.cwd client ++ [name]) Hpeer Hport Hopen); [|exact UB].
    intros supply E. destruct Hbeside as [E'|[old E']]; congruence. }
  split; [exact C|]. split; [apply below_top|].
  split.
  { assert (Hopen : Posix.open_wb client (Posix.join downloadsDir (47%N :: name))
                    = Ok ([name], Posix.set_node [name] (Some (Posix.File [])) client)).
    { unfold Posix.open_wb. rewrite C.
      destruct Htop as [E|[old E]]; rewrite E; reflexivity. }
    apply (@client_verifies_against_itself client peer host (47%N :: name) port
             segments [name] Hpeer Hport Hopen); [|exact C].
    intros supply E. destruct Htop as [E'|[old E']]; congruence. }
  split; [exact A | apply below_child].
Qed.

Lemma C9_witness :
  Posix.tree
    (fs (snd (downloadFileUi (py "10.0.0.2:5000") (py "../notes.txt")
                (fetching disk_with_notes [bytes_of_string "any"; bytes_of_string "thing"]))))
    (home ++ [py "notes.txt"])
  = Some (Posix.File (bytes_of_string "anything"))
  /\ below (downloads_location disk_with_notes) (home ++ [py "notes.txt"]) = false
  /\ Posix.tree
       (fs (snd (downloadFileUi (py "10.0.0.2:5000") (py "/notes.txt")
                   (fetching disk_with_notes
                      [bytes_of_string "any"; bytes_of_string "thing"]))))
       [py "notes.txt"]
     = Some (Posix.File (bytes_of_string "anything")).
Proof.
  assert (H1 : is_entry_name (py "notes.txt") = true) by (vm_compute; reflexivity).
  assert (H2 : Posix.tree disk_with_notes [] = Some Posix.Dir) by (vm_compute; reflexivity).
  assert (H3 : Posix.tree disk_with_notes (Posix.cwd disk_with_notes) = Some Posix.Dir)
    by (vm_compute; reflexivity).
  assert (H4 : Posix.tree disk_with_notes (downloads_location disk_with_notes)
               = Some Posix.Dir) by (vm_compute; reflexivity).
  assert (H5 : Posix.tree disk_with_notes (Posix.cwd disk_with_notes ++ [uploadsDir])
               = Some Posix.Dir) by (vm_compute; reflexivity).
  assert (H6 : Posix.tree disk_with_notes (Posix.cwd disk_with_notes ++ [py "notes.txt"])
               = None
               \/ exists old,
                    Posix.tree disk_with_notes
                      (Posix.cwd disk_with_notes ++ [py "notes.txt"])
                    = Some (Posix.File old))
    by (right; exists (bytes_of_string "secret"); vm_compute; reflexivity).
  assert (H7 : Posix.tree disk_with_notes [py "notes.txt"] = None
               \/ exists old, Posix.tree disk_with_notes [py "notes.txt"]
                              = Some (Posix.File old))
    by (left; vm_compute; reflexivity).
  assert (H8 : parse_peer (py "10.0.0.2:5000") = Ok (py "10.0.0.2", 5000%Z))
    by (vm_compute; reflexivity).
  assert (H9 : (0 <= 5000 <= 65535)%Z) by lia.
  destruct (@C9_write_target_is_the_unchecked_join disk_with_notes (py "10.0.0.2:5000")
              (py "10.0.0.2") (py "notes.txt") 5000%Z
              [bytes_of_string "any"; bytes_of_string "thing"]
              H1 H2 H3 H4 H5 H6 H7 H8 H9)
    as (_ & _ & Out & Beside & _ & _ & Top & _).
  split; [exact Beside|]. split; [exact Out | exact Top].
Defined.

(** ** The peer as it was typed *)

Lemma dict_get_absent (k : str) (entries : list (str * str)) :
  existsb (fun entry => str_eqb (fst entry) k) entries = false ->
  Json.dict_get k (map (fun entry => (fst entry, Json.Str (snd entry))) entries) = None.
Proof.
  induction entries as [|[n a] entries IH]; [reflexivity|].
  cbn [existsb map Json.dict_get fst snd]. intros H.
  apply orb_false_iff in H. destruct H as [Hn He]. now rewrite Hn, IH.
Qed.

(** X6 — Once [addPeerUi] has saved a peer, a download for which the name
    of the peer is typed goes on from line 142 with the saved address; and
    when that address is not a name of the book itself, this is the very
    download for which the address is typed. *)
Theorem download_by_name_after_addPeerUi :
  forall (disk : Posix.t) (entries : list (str * str)) (name addr filename : str)
         (s : state),
    loadAddressBook disk = Ok (address_book entries) ->
    distinct_names entries = true -> decoded_texts entries = true ->
    forallb UTF8.is_scalar name = true -> forallb UTF8.is_scalar addr = true ->
    book_writable disk = true ->
    fs s = snd (addPeerUi name addr disk) ->
    downloadFileUi_from_book name filename s = downloadFileUi addr filename s
    /\ (existsb (fun entry => str_eqb (fst entry) addr) (set_entry name addr entries) = false ->
        downloadFileUi_from_book name filename s
        = downloadFileUi_from_book addr filename s).
Proof.
  intros disk entries name addr filename s Hload Hd Ht Hn Ha Hw Hfs.
  destruct (@addPeerUi_adds disk entries name addr Hload Hd Ht Hn Ha Hw) as (_ & L & _).
  assert (ByName : downloadFileUi_from_book name filename s
                   = downloadFileUi addr filename s).
  { unfold downloadFileUi_from_book. rewrite Hfs, L.
    unfold address_book. rewrite lookUpPeer_dict.
    destruct (subscript_address_book entries name addr) as (G & _).
    unfold address_book, subscript in G.
    destruct (Json.dict_get name _) as [v|]; inversion G; subst. reflexivity. }
  split; [exact ByName|].
  intros Hfree. rewrite ByName.
  unfold downloadFileUi_from_book. rewrite Hfs, L.
  unfold address_book. rewrite lookUpPeer_dict, (dict_get_absent _ _ Hfree). reflexivity.
Qed.

Lemma download_by_name_after_addPeerUi_witness :
  downloadFileUi_from_book (py "eve") (py "hello.txt")
    (fetching (snd (addPeerUi (py "eve") (py "10.0.0.3:5000") sample_disk))
              [bytes_of_string "hello"])
  = downloadFileUi_from_book (py "10.0.0.3:5000") (py "hello.txt")
      (fetching (snd (addPeerUi (py "eve") (py "10.0.0.3:5000") sample_disk))
                [bytes_of_string "hello"]).
Proof.
  assert (H1 : loadAddressBook sample_disk = Ok (address_book []))
    by (vm_compute; reflexivity).
  assert (H4 : forallb UTF8.is_scalar (py "eve") = true) by (vm_compute; reflexivity).
  assert (H5 : forallb UTF8.is_scalar (py "10.0.0.3:5000") = true)
    by (vm_compute; reflexivity).
  assert (H6 : book_writable sample_disk = true) by (vm_compute; reflexivity).
  assert (H8 : existsb (fun entry => str_eqb (fst entry) (py "10.0.0.3:5000"))
                 (set_entry (py "eve") (py "10.0.0.3:5000") []) = false)
    by (vm_compute; reflexivity).
  exact (proj2 (@download_by_name_after_addPeerUi sample_disk [] (py "eve")
                  (py "10.0.0.3:5000") (py "hello.txt")
                  (fetching (snd (addPeerUi (py "eve") (py "10.0.0.3:5000") sample_disk))
                            [bytes_of_string "hello"])
                  H1 eq_refl eq_refl H4 H5 H6 eq_refl) H8).
Defined.



(** X10 — How [connect] fails for the address that was parsed, a host of
    printable ASCII: a port that does not fit an [int] of C raises
    [OverflowError]; otherwise a host that has no address raises
    [socket.gaierror], an [OSError], whatever the port; otherwise a port
    that is not between 0 and 65535 raises [OverflowError]; otherwise a
    peer that refuses raises its error.  Each time the client shows the
    error, closes its socket, sends nothing and writes no file. *)
Theorem downloadFileUi_without_a_connection :
  forall (peer host filename : str) (port : Z) (s : state),
    parse_peer peer = Ok (host, port) ->
    forallb is_plain host = true ->
    ((port < -2147483648 \/ 2147483647 < port)%Z ->
       downloadFileUi peer filename s
       = (Ok tt, mkState (fs s) (closed_socket (sock s))
                         (shown s ++ [ClientError OverflowError])))
    /\ ((-2147483648 <= port <= 2147483647)%Z -> resolves (sock s) host = false ->
        downloadFileUi peer filename s
        = (Ok tt, mkState (fs s) (closed_socket (sock s))
                          (shown s ++ [ClientError (OSError EAI_NONAME)])))
    /\ (resolves (sock s) host = true -> (port < 0 \/ 65535 < port)%Z ->
        downloadFileUi peer filename s
        = (Ok tt, mkState (fs s) (closed_socket (sock s))
                          (shown s ++ [ClientError OverflowError])))
    /\ (forall e, resolves (sock s) host = true -> (0 <= port <= 65535)%Z ->
                  refuses (sock s) = Some e ->
          downloadFileUi peer filename s
          = (Ok tt, mkState (fs s) (closed_socket (sock s))
                            (shown s ++ [ClientError e]))).
Proof.
  intros peer host filename port s Hpeer _.
  destruct (downloadFileUi_cases peer filename s) as [(e & P & _)|(address & P & E)];
    [congruence|].
  rewrite Hpeer in P. inversion P; subst address. clear P. cbn [fst snd] in E.
  rewrite E. clear E. unfold transfer, bind, connect.
  repeat split.
  - intros Hport.
    replace ((-2147483648 <=? port)%Z && (port <=? 2147483647)%Z) with false;
      [reflexivity|].
    symmetry. apply andb_false_iff.
    destruct Hport; [left | right]; apply Z.leb_gt; lia.
  - intros Hport Hres.
    replace ((-2147483648 <=? port)%Z && (port <=? 2147483647)%Z) with true
      by (symmetry; apply andb_true_iff; split; apply Z.leb_le; lia).
    rewrite Hres. reflexivity.
  - intros Hres Hport. rewrite Hres.
    replace ((0 <=? port)%Z && (port <=? 65535)%Z) with false
      by (symmetry; apply andb_false_iff;
          destruct Hport; [left | right]; apply Z.leb_gt; lia).
    destruct (negb ((-2147483648 <=? port)%Z && (port <=? 2147483647)%Z)); reflexivity.
  - intros e Hres Hport Hr. rewrite Hres, Hr.
    replace ((-2147483648 <=? port)%Z && (port <=? 2147483647)%Z) with true
      by (symmetry; apply andb_true_iff; split; apply Z.leb_le; lia).
    replace ((0 <=? port)%Z && (port <=? 65535)%Z) with true
      by (symmetry; apply andb_true_iff; split; apply Z.leb_le; lia).
    reflexivity.
Qed.

Lemma downloadFileUi_without_a_connection_witness :
  downloadFileUi (py "10.0.0.2:70000") (py "hello.txt")
    (fetching sample_disk [bytes_of_string "hello"])
  = (Ok tt, mkState sample_disk
                    (closed_socket (connection [Data (bytes_of_string "hello")]))
                    [ClientError OverflowError]).
Proof.
  assert (H : parse_peer (py "10.0.0.2:70000") = Ok (py "10.0.0.2", 70000%Z))
    by (vm_compute; reflexivity).
  assert (P : forallb is_plain (py "10.0.0.2") = true) by (vm_compute; reflexivity).
  destruct (@downloadFileUi_without_a_connection (py "10.0.0.2:70000") (py "10.0.0.2")
              (py "hello.txt") 70000%Z (fetching sample_disk [bytes_of_string "hello"]) H P)
    as (_ & _ & A & _).
  apply A; [reflexivity | right; lia].
Defined.

(** X19 — Whatever keys are pressed, the selection of the menu stays on
    one of its five options.  The up key moves it one up, and does nothing
    on the first option; the down key moves it one down, and does nothing
    on the last: the selection does not wrap around. *)
Theorem displayUi_selection_stays_on_an_option :
  forall keys : list Z,
    (0 <= fst (displayUi_keys keys 0) < Z.of_nat (length options))%Z
    /\ menu_key 0 KEY_UP = (0%Z, None)
    /\ menu_key (Z.of_nat (length options) - 1) KEY_DOWN
       = ((Z.of_nat (length options) - 1)%Z, None)
    /\ (forall selectedIdx,
           (0 < selectedIdx < Z.of_nat (length options))%Z ->
           menu_key selectedIdx KEY_UP = ((selectedIdx - 1)%Z, None))
    /\ (forall selectedIdx,
           (0 <= selectedIdx < Z.of_nat (length options) - 1)%Z ->
           menu_key selectedIdx KEY_DOWN = ((selectedIdx + 1)%Z, None)).
Proof.
  intros keys.
  destruct (@displayUi_keys_selection keys 0%Z) as (H & _); [lia|].
  change (Z.of_nat (length options)) with 5%Z.
  split; [lia|]. split; [reflexivity|]. split; [reflexivity|].
  split; intros idx Hidx; unfold menu_key;
    change (Z.of_nat (length options) - 1)%Z with 4%Z.
  - change (KEY_UP =? KEY_UP)%Z with true.
    replace (idx >? 0)%Z with true by (symmetry; apply Z.gtb_lt; lia). reflexivity.
  - change (KEY_DOWN =? KEY_UP)%Z with false.
    change (KEY_DOWN =? KEY_DOWN)%Z with true.
    replace (idx <? 4)%Z with true by (symmetry; apply Z.ltb_lt; lia). reflexivity.
Qed.

(** X23 — The handler sends a served file in [sendall] calls of exactly
    [chunkSize] bytes each, but for the last, which has the bytes that are
    left: no call is empty and none has more than [chunkSize] bytes. *)
Theorem handleClient_sends_full_chunks_but_the_last :
  forall (disk : Posix.t) (filename : str) (loc : Posix.location) (content : bytes),
    forallb UTF8.is_scalar filename = true ->
    length (request_bytes filename) <= 1024 ->
    Posix.stat disk (Posix.join uploadsDir filename) = Ok (loc, Posix.File content) ->
    Forall (fun chunk => length chunk = chunkSize)
           (removelast (sent (handleClient (serving disk (request_bytes filename)))))
    /\ Forall (fun chunk => chunk <> [] /\ length chunk <= chunkSize)
              (sent (handleClient (serving disk (request_bytes filename))))
    /\ concat (sent (handleClient (serving disk (request_bytes filename)))) = content.
Proof.
  intros disk filename loc content Hs Hlen Hstat.
  rewrite (@handler_serves_file disk filename loc content Hs Hlen Hstat).
  split; [apply chunks_fuel_full, chunkSize_pos|].
  split; [apply chunks_fuel_bounds, chunkSize_pos | apply concat_chunks, chunkSize_pos].
Qed.

Lemma handleClient_sends_full_chunks_but_the_last_witness :
  sent (handleClient (serving sample_disk (request_bytes (py "hello.txt"))))
  = [bytes_of_string "hello"]
  /\ Forall (fun chunk => chunk <> [] /\ length chunk <= chunkSize)
            (sent (handleClient (serving sample_disk (request_bytes (py "hello.txt"))))).
Proof.
  split; [vm_compute; reflexivity|].
  apply (@handleClient_sends_full_chunks_but_the_last sample_disk (py "hello.txt")
           (home ++ [py "Uploads"; py "hello.txt"]) (bytes_of_string "hello")).
  - vm_compute. reflexivity.
  - apply Nat.leb_le. vm_compute. reflexivity.
  - vm_compute. reflexivity.
Defined.
